(** * helm-operator: a shallow embedding of the reconciliation engine

    The development follows the Go sources of the operator:
    - [pkg/chartsync/oss.go] and its older sibling (credential decoding,
      object-store providers),
    - [pkg/release/release.go] (chart preparation, the sync decision
      machine, the action loop and the post-renderer),
    - the operator's work-queue controller.

    Calls that leave the repository (the Helm client, the Kubernetes API,
    the git mirror, object-store SDKs, the file system) are operations of
    an interface [Op]; Go functions that perform such calls are programs
    of the free monad [Prog] over that interface, and are run against an
    arbitrary stateful handler by [exec].  A Go panic is the [Panic]
    node of a program.  Logging through the structured logger and metric
    observations do not influence control flow and are left out, except
    where the code reports through [klog] or [runtime.HandleError]. *)

From Stdlib Require Import Bool Ascii String List ZArith Lia Btauto.
From stdpp Require Import base option list strings gmap.

Set Warnings "-register-all".
Open Scope string_scope.
Open Scope list_scope.
Open Scope Z_scope.

(** ** Go values: errors, results, panics *)

Module Go.

(** An [error] value.  [Errorf] keeps the format string of [fmt.Errorf]
    and its arguments, [External] is an error handed back by a
    collaborator, [CorruptInputError] is the error of [encoding/base64],
    [NotFound] an API status error for which [errors.IsNotFound] holds. *)
Inductive error : Type :=
| Errorf (format : string) (args : list arg)
| External (msg : string)
| ChartUnavailableError (err : error)
| CorruptInputError (offset : Z)
| NotFound (msg : string)
| errCollection (errs : list error)
with arg : Type :=
| ArgStr (s : string)
| ArgErr (e : error).

(** A Go result pair [(x, err)]: the value is only looked at when the
    error is nil. *)
Inductive result (A : Type) : Type :=
| Ok (a : A)
| Err (e : error).
Arguments Ok {A} a.
Arguments Err {A} e.

(** A Go call either returns or panics with a value. *)
Inductive outcome (A : Type) : Type :=
| Returned (a : A)
| Panicked (v : string).
Arguments Returned {A} a.
Arguments Panicked {A} v.

Definition obind {A B} (m : outcome A) (k : A -> outcome B) : outcome B :=
  match m with
  | Returned a => k a
  | Panicked v => Panicked v
  end.

Definition IsNotFound (e : error) : bool :=
  match e with
  | NotFound _ => true
  | _ => false
  end.

End Go.
Export Go.

(** ** encoding/base64, as the decoders use it *)

Module Base64.

(** An encoding is its 64-character alphabet and its padding character
    ([None] for [NoPadding]).  The three encodings used by the repository
    are not strict. *)
Record Encoding : Type := {
  encode : string;
  padChar : option ascii
}.

Definition encodeStd : string :=
  "ABCDEFGHIJKLMNOPQRSTUVWXYZabcdefghijklmnopqrstuvwxyz0123456789+/".
Definition encodeURL : string :=
  "ABCDEFGHIJKLMNOPQRSTUVWXYZabcdefghijklmnopqrstuvwxyz0123456789-_".

Definition StdEncoding : Encoding := {| encode := encodeStd; padChar := Some "="%char |}.
Definition URLEncoding : Encoding := {| encode := encodeURL; padChar := Some "="%char |}.
Definition RawURLEncoding : Encoding := {| encode := encodeURL; padChar := None |}.

(** [enc.encode[v]] for a 6-bit value [v], held in a byte. *)
Definition encodeChar (enc : Encoding) (v : ascii) : ascii :=
  nth (nat_of_ascii v) (list_ascii_of_string (encode enc)) "000"%char.

Fixpoint indexOf (c : ascii) (l : list ascii) (i : nat) : option nat :=
  match l with
  | [] => None
  | x :: l' => if Ascii.eqb x c then Some i else indexOf c l' (S i)
  end.

(** [enc.decodeMap[c]]: [None] stands for the entry [0xff]. *)
Definition decodeMap (enc : Encoding) (c : ascii) : option ascii :=
  match indexOf c (list_ascii_of_string (encode enc)) 0%nat with
  | Some i => Some (ascii_of_nat i)
  | None => None
  end.

(** The four 6-bit values of a 24-bit group [a b c]:
    [val>>18&0x3F], [val>>12&0x3F], [val>>6&0x3F], [val&0x3F]. *)
Definition sextet0 (a : ascii) : ascii :=
  let (_, _, a2, a3, a4, a5, a6, a7) := a in Ascii a2 a3 a4 a5 a6 a7 false false.
Definition sextet1 (a b : ascii) : ascii :=
  let (a0, a1, _, _, _, _, _, _) := a in
  let (_, _, _, _, b4, b5, b6, b7) := b in Ascii b4 b5 b6 b7 a0 a1 false false.
Definition sextet2 (b c : ascii) : ascii :=
  let (b0, b1, b2, b3, _, _, _, _) := b in
  let (_, _, _, _, _, _, c6, c7) := c in Ascii c6 c7 b0 b1 b2 b3 false false.
Definition sextet3 (c : ascii) : ascii :=
  let (c0, c1, c2, c3, c4, c5, _, _) := c in Ascii c0 c1 c2 c3 c4 c5 false false.

Definition padding (enc : Encoding) (n : nat) : list ascii :=
  match padChar enc with
  | Some p => repeat p n
  | None => []
  end.

(** [Encoding.Encode]: full 3-byte groups, then the remaining 1 or 2
    bytes, padded when the encoding pads. *)
Fixpoint Encode (enc : Encoding) (src : list ascii) : list ascii :=
  match src with
  | [] => []
  | [a] =>
      [encodeChar enc (sextet0 a); encodeChar enc (sextet1 a zero)] ++ padding enc 2
  | [a; b] =>
      [encodeChar enc (sextet0 a); encodeChar enc (sextet1 a b);
       encodeChar enc (sextet2 b zero)] ++ padding enc 1
  | a :: b :: c :: rest =>
      encodeChar enc (sextet0 a) :: encodeChar enc (sextet1 a b)
      :: encodeChar enc (sextet2 b c) :: encodeChar enc (sextet3 c)
      :: Encode enc rest
  end.

Definition EncodeToString (enc : Encoding) (src : list ascii) : string :=
  string_of_list_ascii (Encode enc src).

(** The bytes of [val = d0<<18 | d1<<12 | d2<<6 | d3]:
    [byte(val>>16)], [byte(val>>8)], [byte(val)]. *)
Definition octet0 (d0 d1 : ascii) : ascii :=
  let (x0, x1, x2, x3, x4, x5, _, _) := d0 in
  let (_, _, _, _, y4, y5, _, _) := d1 in Ascii y4 y5 x0 x1 x2 x3 x4 x5.
Definition octet1 (d1 d2 : ascii) : ascii :=
  let (y0, y1, y2, y3, _, _, _, _) := d1 in
  let (_, _, z2, z3, z4, z5, _, _) := d2 in Ascii z2 z3 z4 z5 y0 y1 y2 y3.
Definition octet2 (d2 d3 : ascii) : ascii :=
  let (z0, z1, _, _, _, _, _, _) := d2 in
  let (w0, w1, w2, w3, w4, w5, _, _) := d3 in Ascii w0 w1 w2 w3 w4 w5 z0 z1.

(** The [dlen - 1] bytes that [decodeQuantum] writes for the [dlen]
    values gathered in [dbuf]. *)
Definition quantumBytes (dbuf : list ascii) : list ascii :=
  match dbuf with
  | [d0; d1] => [octet0 d0 d1]
  | [d0; d1; d2] => [octet0 d0 d1; octet1 d1 d2]
  | [d0; d1; d2; d3] => [octet0 d0 d1; octet1 d1 d2; octet2 d2 d3]
  | _ => []
  end.

Definition isNewline (c : ascii) : bool :=
  Ascii.eqb c "010"%char || Ascii.eqb c "013"%char.

Definition isPad (enc : Encoding) (c : ascii) : bool :=
  match padChar enc with
  | Some p => Ascii.eqb c p
  | None => false
  end.

(** Skip over newlines: the remaining input and the new index. *)
Fixpoint skipNewlines (src : list ascii) (si : Z) : list ascii * Z :=
  match src with
  | c :: rest => if isNewline c then skipNewlines rest (si + 1) else (src, si)
  | [] => ([], si)
  end.

(** After the padding of a quantum: skip newlines, anything left is
    trailing garbage (the bytes of the quantum still count). *)
Definition afterPadding (dbuf : list ascii) (rest : list ascii) (si : Z)
  : list ascii * option error :=
  let (rest', si') := skipNewlines rest si in
  (quantumBytes dbuf,
   match rest' with
   | [] => None
   | _ :: _ => Some (CorruptInputError si')
   end).

(** [Encoding.Decode], quantum by quantum: [dbuf] holds the values read
    for the current quantum (its length is [j]), [si] is the index of the
    next input byte and [len] the length of the whole input.  The result
    is the decoded bytes and the error, if any. *)
Fixpoint decodeFrom (enc : Encoding) (len : Z) (dbuf : list ascii)
  (src : list ascii) (si : Z) : list ascii * option error :=
  match src with
  | [] =>
      match dbuf with
      | [] => ([], None)
      | [_] => ([], Some (CorruptInputError (si - 1)))
      | _ =>
          match padChar enc with
          | Some _ => ([], Some (CorruptInputError (si - Z.of_nat (length dbuf))))
          | None => (quantumBytes dbuf, None)
          end
      end
  | c :: rest =>
      match decodeMap enc c with
      | Some v =>
          match dbuf with
          | [d0; d1; d2] =>
              let (out, err) := decodeFrom enc len [] rest (si + 1) in
              (quantumBytes [d0; d1; d2; v] ++ out, err)
          | _ => decodeFrom enc len (dbuf ++ [v]) rest (si + 1)
          end
      | None =>
          if isNewline c then decodeFrom enc len dbuf rest (si + 1)
          else if negb (isPad enc c) then ([], Some (CorruptInputError si))
          else
            match dbuf with
            | [] | [_] => ([], Some (CorruptInputError si))
            | [_; _] =>
                let (rest', si') := skipNewlines rest (si + 1) in
                match rest' with
                | [] => ([], Some (CorruptInputError len))
                | c2 :: rest2 =>
                    if isPad enc c2 then afterPadding dbuf rest2 (si' + 1)
                    else ([], Some (CorruptInputError (si' - 1)))
                end
            | _ => afterPadding dbuf rest (si + 1)
            end
      end
  end.

(** [Encoding.DecodeString]: the decoded prefix is returned with the error. *)
Definition DecodeString (enc : Encoding) (s : string) : list ascii * option error :=
  decodeFrom enc (Z.of_nat (String.length s)) [] (list_ascii_of_string s) 0.

End Base64.

(** ** crypto/aes and crypto/cipher, after FIPS-197

    A byte is an [ascii], least significant bit first. *)

Module AES.

Definition axor (a b : ascii) : ascii :=
  let (a0, a1, a2, a3, a4, a5, a6, a7) := a in
  let (b0, b1, b2, b3, b4, b5, b6, b7) := b in
  Ascii (xorb a0 b0) (xorb a1 b1) (xorb a2 b2) (xorb a3 b3)
        (xorb a4 b4) (xorb a5 b5) (xorb a6 b6) (xorb a7 b7).

(** Byte-wise xor of two slices (as [subtle.XORBytes], over the shorter). *)
Fixpoint xorBytes (x y : list ascii) : list ascii :=
  match x, y with
  | a :: x', b :: y' => axor a b :: xorBytes x' y'
  | _, _ => []
  end.

(** Multiplication by [x] in GF(2^8) modulo [x^8 + x^4 + x^3 + x + 1]. *)
Definition xtime (a : ascii) : ascii :=
  let (a0, a1, a2, a3, a4, a5, a6, a7) := a in
  Ascii a7 (xorb a0 a7) a1 (xorb a2 a7) (xorb a3 a7) a4 a5 a6.

Definition mul2 (a : ascii) : ascii := xtime a.
Definition mul3 (a : ascii) : ascii := axor (xtime a) a.
Definition mul9 (a : ascii) : ascii := axor (xtime (xtime (xtime a))) a.
Definition mul11 (a : ascii) : ascii :=
  axor (axor (xtime (xtime (xtime a))) (xtime a)) a.
Definition mul13 (a : ascii) : ascii :=
  axor (axor (xtime (xtime (xtime a))) (xtime (xtime a))) a.
Definition mul14 (a : ascii) : ascii :=
  axor (axor (xtime (xtime (xtime a))) (xtime (xtime a))) (xtime a).

(** Product in GF(2^8): add [a * x^i] for every bit [i] of [b]. *)
Definition gmul (a b : ascii) : ascii :=
  let (b0, b1, b2, b3, b4, b5, b6, b7) := b in
  let t (bit : bool) (v : ascii) := if bit then v else zero in
  let a1 := xtime a in let a2 := xtime a1 in let a3 := xtime a2 in
  let a4 := xtime a3 in let a5 := xtime a4 in let a6 := xtime a5 in
  let a7 := xtime a6 in
  axor (t b0 a) (axor (t b1 a1) (axor (t b2 a2) (axor (t b3 a3)
    (axor (t b4 a4) (axor (t b5 a5) (axor (t b6 a6) (t b7 a7))))))).

(** The multiplicative inverse, [a^254] (and 0 for 0). *)
Definition ginv (a : ascii) : ascii :=
  let a2 := gmul a a in let a4 := gmul a2 a2 in let a8 := gmul a4 a4 in
  let a16 := gmul a8 a8 in let a32 := gmul a16 a16 in
  let a64 := gmul a32 a32 in let a128 := gmul a64 a64 in
  gmul a128 (gmul a64 (gmul a32 (gmul a16 (gmul a8 (gmul a4 a2))))).

(** The affine transformation of the S-box and its inverse. *)
Definition affine (b : ascii) : ascii :=
  let (b0, b1, b2, b3, b4, b5, b6, b7) := b in
  let x (p q r s t : bool) (c : bool) := xorb (xorb (xorb (xorb (xorb p q) r) s) t) c in
  Ascii (x b0 b4 b5 b6 b7 true) (x b1 b5 b6 b7 b0 true) (x b2 b6 b7 b0 b1 false)
        (x b3 b7 b0 b1 b2 false) (x b4 b0 b1 b2 b3 false) (x b5 b1 b2 b3 b4 true)
        (x b6 b2 b3 b4 b5 true) (x b7 b3 b4 b5 b6 false).
Definition invAffine (s : ascii) : ascii :=
  let (s0, s1, s2, s3, s4, s5, s6, s7) := s in
  let x (p q r : bool) (c : bool) := xorb (xorb (xorb p q) r) c in
  Ascii (x s2 s5 s7 true) (x s3 s6 s0 false) (x s4 s7 s1 true) (x s5 s0 s2 false)
        (x s6 s1 s3 false) (x s7 s2 s4 false) (x s0 s3 s5 false) (x s1 s4 s6 false).

Definition allBytes : list ascii :=
  Eval vm_compute in map ascii_of_nat (seq 0 256).

(** The tables [sbox0] and [sbox1] of [crypto/aes]. *)
Definition sbox0 : list ascii :=
  Eval vm_compute in map (fun b => affine (ginv b)) allBytes.
Definition sbox1 : list ascii :=
  Eval vm_compute in map (fun s => ginv (invAffine s)) allBytes.

Definition subByte (b : ascii) : ascii := nth (nat_of_ascii b) sbox0 zero.
Definition invSubByte (b : ascii) : ascii := nth (nat_of_ascii b) sbox1 zero.

Definition SubBytes (s : list ascii) : list ascii := map subByte s.
Definition InvSubBytes (s : list ascii) : list ascii := map invSubByte s.

(** The state is the block, column by column: byte [r + 4c] is row [r]
    of column [c]. *)
Definition ShiftRows (s : list ascii) : list ascii :=
  match s with
  | [s0; s1; s2; s3; s4; s5; s6; s7; s8; s9; s10; s11; s12; s13; s14; s15] =>
      [s0; s5; s10; s15; s4; s9; s14; s3; s8; s13; s2; s7; s12; s1; s6; s11]
  | _ => s
  end.
Definition InvShiftRows (s : list ascii) : list ascii :=
  match s with
  | [s0; s1; s2; s3; s4; s5; s6; s7; s8; s9; s10; s11; s12; s13; s14; s15] =>
      [s0; s13; s10; s7; s4; s1; s14; s11; s8; s5; s2; s15; s12; s9; s6; s3]
  | _ => s
  end.

Definition mixColumn (a0 a1 a2 a3 : ascii) : list ascii :=
  [axor (axor (axor (mul2 a0) (mul3 a1)) a2) a3;
   axor (axor (axor a0 (mul2 a1)) (mul3 a2)) a3;
   axor (axor (axor a0 a1) (mul2 a2)) (mul3 a3);
   axor (axor (axor (mul3 a0) a1) a2) (mul2 a3)].
Definition invMixColumn (a0 a1 a2 a3 : ascii) : list ascii :=
  [axor (axor (axor (mul14 a0) (mul11 a1)) (mul13 a2)) (mul9 a3);
   axor (axor (axor (mul9 a0) (mul14 a1)) (mul11 a2)) (mul13 a3);
   axor (axor (axor (mul13 a0) (mul9 a1)) (mul14 a2)) (mul11 a3);
   axor (axor (axor (mul11 a0) (mul13 a1)) (mul9 a2)) (mul14 a3)].

Fixpoint MixColumns (s : list ascii) : list ascii :=
  match s with
  | a0 :: a1 :: a2 :: a3 :: rest => mixColumn a0 a1 a2 a3 ++ MixColumns rest
  | _ => s
  end.
Fixpoint InvMixColumns (s : list ascii) : list ascii :=
  match s with
  | a0 :: a1 :: a2 :: a3 :: rest => invMixColumn a0 a1 a2 a3 ++ InvMixColumns rest
  | _ => s
  end.

Definition AddRoundKey (s rk : list ascii) : list ascii := xorBytes s rk.

(** *** Key expansion *)

Definition word : Type := list ascii.

Definition RotWord (w : word) : word :=
  match w with
  | [a0; a1; a2; a3] => [a1; a2; a3; a0]
  | _ => w
  end.
Definition SubWord (w : word) : word := map subByte w.

Definition Rcon (j : nat) : word :=
  [Nat.iter (j - 1) xtime one; zero; zero; zero].

(** [expand Nk n i w]: the key schedule [w] of [i] words, extended by
    [n] words. *)
Fixpoint expand (Nk n i : nat) (w : list word) : list word :=
  match n with
  | O => w
  | S n' =>
      let temp := nth (i - 1) w [] in
      let temp' :=
        if (i mod Nk =? 0)%nat then xorBytes (SubWord (RotWord temp)) (Rcon (i / Nk))
        else if (6 <? Nk)%nat && (i mod Nk =? 4)%nat then SubWord temp
        else temp in
      expand Nk n' (S i) (w ++ [xorBytes (nth (i - Nk) w []) temp'])
  end.

Fixpoint words (key : list ascii) : list word :=
  match key with
  | a0 :: a1 :: a2 :: a3 :: rest => [a0; a1; a2; a3] :: words rest
  | _ => []
  end.

Fixpoint roundKeysOf (w : list word) : list (list ascii) :=
  match w with
  | w0 :: w1 :: w2 :: w3 :: rest => (w0 ++ w1 ++ w2 ++ w3) :: roundKeysOf rest
  | _ => []
  end.

(** The round keys [rk_0 .. rk_Nr] of a key of [Nk] words. *)
Definition KeyExpansion (key : list ascii) : list (list ascii) :=
  let Nk := (length key / 4)%nat in
  let Nr := (Nk + 6)%nat in
  roundKeysOf (expand Nk (4 * (Nr + 1) - Nk) Nk (words key)).

(** *** The block cipher *)

Definition BlockSize : nat := 16.

(** An [aesCipher]: the expanded key. *)
Record aesCipher : Type := { roundKeys : list (list ascii) }.

(** [aes.NewCipher]: only keys of 16, 24 or 32 bytes are accepted. *)
Definition NewCipher (key : list ascii) : result aesCipher :=
  match length key with
  | 16%nat | 24%nat | 32%nat => Ok {| roundKeys := KeyExpansion key |}
  | _ => Err (External "crypto/aes: invalid key size")
  end.

Fixpoint encryptRounds (s : list ascii) (rks : list (list ascii)) : list ascii :=
  match rks with
  | [] => s
  | [rk] => AddRoundKey (ShiftRows (SubBytes s)) rk
  | rk :: rks' =>
      encryptRounds (AddRoundKey (MixColumns (ShiftRows (SubBytes s))) rk) rks'
  end.

(** The cipher of FIPS-197 on one block. *)
Definition encryptBlock (c : aesCipher) (src : list ascii) : list ascii :=
  match roundKeys c with
  | rk0 :: rks => encryptRounds (AddRoundKey src rk0) rks
  | [] => src
  end.

Fixpoint decryptRounds (s : list ascii) (rks : list (list ascii)) : list ascii :=
  match rks with
  | [] => s
  | [rk] => AddRoundKey (InvSubBytes (InvShiftRows s)) rk
  | rk :: rks' =>
      decryptRounds (InvMixColumns (AddRoundKey (InvSubBytes (InvShiftRows s)) rk)) rks'
  end.

(** The inverse cipher of FIPS-197 on one block: the round keys are used
    last to first. *)
Definition decryptBlock (c : aesCipher) (src : list ascii) : list ascii :=
  match rev (roundKeys c) with
  | rk :: rks => decryptRounds (AddRoundKey src rk) rks
  | [] => src
  end.

(** [Block.Decrypt(dst, src)]: decrypts the first block of [src]; panics
    when [src] is shorter than a block. *)
Definition Decrypt (c : aesCipher) (src : list ascii) : outcome (list ascii) :=
  if (length src <? BlockSize)%nat then Panicked "crypto/aes: input not full block"
  else Returned (decryptBlock c (firstn BlockSize src)).

End AES.


(** ** The custom resource (pkg/apis/helm.fluxcd.io/v1) *)

Module V1.

Record GitChartSource : Type := {
  GitURL : string;
  Ref : string;
  Path : string;
  SkipDepUpdate : bool
}.

Record RepoChartSource : Type := {
  RepoURL : string;
  Name : string;
  Version : string
}.

Record Customize : Type := {
  CustomizeKey : string;
  CustomizeUseCache : bool
}.

(** The object-store source.  [Key] and [UseCache] are the fields the Go
    struct calls so; [Customize] has fields of the same names. *)
Record Oss : Type := {
  CloudProvider : string;
  RegionId : string;
  Bucket : string;
  Key : string;
  AckId : string;
  AckSecret : string;
  AckEncrypted : bool;
  UseCache : bool
}.

Record Test : Type := {
  TestEnable : bool;
  TestIgnoreFailures : option bool;
  TestTimeout : option Z;
  TestCleanup : option bool
}.

Record Rollback : Type := {
  RollbackEnable : bool;
  RollbackTimeout : option Z;
  RollbackWait : bool;
  RollbackDisableHooks : bool;
  RollbackRecreate : bool;
  RollbackForce : bool
}.

(** [HelmReleaseSpec], with the chart source embedded: each source kind
    is a pointer that may be nil. *)
Record HelmReleaseSpec : Type := {
  HelmVersion : string;
  GitChartSource_ : option GitChartSource;
  RepoChartSource_ : option RepoChartSource;
  Customize_ : option Customize;
  Oss_ : option Oss;
  ReleaseName : string;
  TargetNamespace : string;
  Timeout : option Z;
  MaxHistory : option Z;
  ResetValues : option bool;
  ForceUpgrade : bool;
  SkipCRDs : bool;
  Wait : option bool;
  DisableOpenAPIValidation : bool;
  Test_ : Test;
  Rollback_ : Rollback;
  AppId : string;
  ComponentId : string;
  IstioEnabled : bool;
  LogCollect : bool
}.

Inductive HelmReleasePhase : Type :=
| HelmReleasePhaseChartFetched
| HelmReleasePhaseChartFetchFailed
| HelmReleasePhaseInstalling
| HelmReleasePhaseUpgrading
| HelmReleasePhaseMigrating
| HelmReleasePhaseTesting
| HelmReleasePhaseTestFailed
| HelmReleasePhaseTested
| HelmReleasePhaseRollingBack
| HelmReleasePhaseRolledBack
| HelmReleasePhaseRollbackFailed
| HelmReleasePhaseDeployFailed
| HelmReleasePhaseDeployed
| HelmReleasePhaseSucceeded
| HelmReleasePhaseFailed.

Record HelmReleaseCondition : Type := {
  ConditionType : string;
  ConditionStatus : string;
  ConditionReason : string
}.

Record HelmReleaseStatus : Type := {
  ObservedGeneration : Z;
  Phase : option HelmReleasePhase;
  LastAttemptedRevision : string;
  ReleaseStatus : string;
  Conditions : list HelmReleaseCondition
}.

Record HelmRelease : Type := {
  Namespace : string;
  ObjName : string;
  Generation : Z;
  Annotations : gmap string string;
  Spec : HelmReleaseSpec;
  Status : HelmReleaseStatus
}.

Definition HelmV2 : string := "v2".
Definition HelmV3 : string := "v3".

(** The accessors of the custom resource that the engine calls and whose
    code is outside the files at hand: defaulting of names, versions and
    time-outs, and the resource id. *)
Class Accessors : Type := {
  GetReleaseName : HelmRelease -> string;
  GetTargetNamespace : HelmRelease -> string;
  GetHelmVersion : HelmRelease -> string -> string;
  GetMaxHistory : HelmRelease -> Z;
  GetTimeout : HelmRelease -> Z;
  GetWait : HelmRelease -> bool;
  GetReuseValues : HelmRelease -> bool;
  ResourceID : HelmRelease -> string;
  GetIgnoreFailures : Test -> bool;
  GetTestTimeout : Test -> Z;
  GetCleanup : Test -> bool;
  GetRollbackTimeout : Rollback -> Z
}.

End V1.

(** ** The Helm client's data (pkg/helm) *)

Module Helm.

Inductive Status : Type :=
| StatusUnknown
| StatusDeployed
| StatusUninstalled
| StatusSuperseded
| StatusFailed
| StatusUninstalling
| StatusPendingInstall
| StatusPendingUpgrade
| StatusPendingRollback.

Definition Status_eqb (a b : Status) : bool :=
  match a, b with
  | StatusUnknown, StatusUnknown | StatusDeployed, StatusDeployed
  | StatusUninstalled, StatusUninstalled | StatusSuperseded, StatusSuperseded
  | StatusFailed, StatusFailed | StatusUninstalling, StatusUninstalling
  | StatusPendingInstall, StatusPendingInstall
  | StatusPendingUpgrade, StatusPendingUpgrade
  | StatusPendingRollback, StatusPendingRollback => true
  | _, _ => false
  end.

Record Info : Type := { InfoStatus : Status }.

Record Release : Type := {
  Name : string;
  Namespace : string;
  Version : Z;
  Info_ : Info;
  Manifest : string
}.

Record GetOptions : Type := {
  GetNamespace : string;
  GetVersion : Z
}.

Record HistoryOptions : Type := {
  HistoryNamespace : string;
  HistoryMax : Z
}.

(** [PostRenderer] holds the resource the post-renderer closes over. *)
Record UpgradeOptions : Type := {
  DryRun : bool;
  UpgradeNamespace : string;
  UpgradeTimeout : Z;
  Install : bool;
  Force : bool;
  ReuseValues : bool;
  ResetValues : bool;
  SkipCRDs : bool;
  MaxHistory : Z;
  Wait : bool;
  DisableValidation : bool;
  PostRenderer : option V1.HelmRelease
}.

Record RollbackOptions : Type := {
  RollbackNamespace : string;
  RollbackTimeout : Z;
  RollbackWait : bool;
  RollbackDisableHooks : bool;
  RollbackRecreate : bool;
  RollbackForce : bool
}.

Record TestOptions : Type := {
  TestNamespace : string;
  TestTimeout : Z;
  TestCleanup : bool
}.

Record UninstallOptions : Type := {
  UninstallNamespace : string;
  KeepHistory : bool;
  UninstallTimeout : Z
}.

(** What the engine asks of a release status and of two releases, in
    code outside the files at hand. *)
Class StatusAPI : Type := {
  AllowsUpgrade : Status -> bool;
  StatusString : Status -> string;
  Diff : option Release -> option Release -> string
}.

End Helm.

(** ** Unstructured Kubernetes objects (apimachinery) *)

Module Unstructured.

(** A decoded JSON value; an object is a map from field names. *)
Inductive value : Type :=
| Null
| Bool (b : bool)
| Number (n : Z)
| Str (s : string)
| Array (l : list value)
| Object (m : gmap string value).

(** [Unstructured.Object] is a [map[string]interface{}]. *)
Abbreviation t := (gmap string value).

(** [NestedFieldNoCopy], of which the callers keep the value only: the
    value at the path, [None] when it is missing or when a level on the
    way is not a map. *)
Fixpoint NestedFieldNoCopy (v : value) (fields : list string) : option value :=
  match fields with
  | [] => Some v
  | f :: fields' =>
      match v with
      | Object m =>
          match m !! f with
          | Some v' => NestedFieldNoCopy v' fields'
          | None => None
          end
      | _ => None
      end
  end.

Definition asString (v : value) : option string :=
  match v with
  | Str s => Some s
  | _ => None
  end.

(** A [map[string]interface{}] as a [map[string]string]: fails when a
    value is not a string. *)
Definition toStringMap (m : gmap string value) : option (gmap string string) :=
  if decide (map_Forall (fun _ v => is_Some (asString v)) m)
  then Some (omap asString m)
  else None.

(** [NestedStringMap(obj, fields...)], first result: [None] is the nil
    map returned when the field is missing, is not a map, or holds a
    value that is not a string. *)
Definition NestedStringMap (obj : t) (fields : list string) : option (gmap string string) :=
  match NestedFieldNoCopy (Object obj) fields with
  | Some (Object m) => toStringMap m
  | _ => None
  end.

(** [setNestedFieldNoCopy]: missing levels are created, a level that is
    present and not a map makes the call fail ([None]) with the object
    as it was. *)
Fixpoint setNestedField (obj : t) (val : value) (fields : list string) : option t :=
  match fields with
  | [] => None
  | [f] => Some (<[f := val]> obj)
  | f :: fields' =>
      match obj !! f with
      | Some (Object m) =>
          match setNestedField m val fields' with
          | Some m' => Some (<[f := Object m']> obj)
          | None => None
          end
      | Some _ => None
      | None =>
          match setNestedField ∅ val fields' with
          | Some m' => Some (<[f := Object m']> obj)
          | None => None
          end
      end
  end.

(** [SetNestedStringMap] with its error dropped, as every caller does:
    on failure the object is unchanged. *)
Definition SetNestedStringMap (obj : t) (val : gmap string string) (fields : list string) : t :=
  match setNestedField obj (Object (Str <$> val)) fields with
  | Some obj' => obj'
  | None => obj
  end.

Definition GetLabels (u : t) : option (gmap string string) :=
  NestedStringMap u ["metadata"; "labels"].
Definition SetLabels (u : t) (labels : gmap string string) : t :=
  SetNestedStringMap u labels ["metadata"; "labels"].
Definition GetAnnotations (u : t) : option (gmap string string) :=
  NestedStringMap u ["metadata"; "annotations"].
Definition SetAnnotations (u : t) (annotations : gmap string string) : t :=
  SetNestedStringMap u annotations ["metadata"; "annotations"].

(** [getNestedString]: the empty string unless the field is a string. *)
Definition getNestedString (u : t) (fields : list string) : string :=
  match NestedFieldNoCopy (Object u) fields with
  | Some (Str s) => s
  | _ => ""
  end.
Definition GetKind (u : t) : string := getNestedString u ["kind"].
Definition GetName (u : t) : string := getNestedString u ["metadata"; "name"].
Definition GetNamespace (u : t) : string := getNestedString u ["metadata"; "namespace"].

End Unstructured.

(** ** Calls that leave the repository, and programs over them *)

Module Effects.

(** A Helm client is named by the version it was loaded under. *)
Definition Client : Type := string.

(** A [git.Export]: a checked-out copy in a directory. *)
Record Export : Type := { Dir : string }.

Record GroupVersionResource : Type := {
  Group : string;
  GVRVersion : string;
  Resource : string
}.

(** An item of the work queue is an [interface{}]: a string key, or
    something else (described by its [%#v] rendering). *)
Inductive QueueItem : Type :=
| KeyItem (key : string)
| ForeignItem (rendering : string).

(** The operations, indexed by what they hand back.  A Go pair
    [(x, err)] is a [result]; a lone [error] is an [option error]. *)
Inductive Op : Type -> Type :=
(* helm.Client *)
| ClientGet (c : Client) (name : string) (opts : Helm.GetOptions)
    : Op (result (option Helm.Release))
| ClientHistory (c : Client) (name : string) (opts : Helm.HistoryOptions)
    : Op (result (list Helm.Release))
| ClientUpgradeFromPath (c : Client) (chartPath name : string) (values : string)
    (opts : Helm.UpgradeOptions) : Op (result (option Helm.Release))
| ClientRollback (c : Client) (name : string) (opts : Helm.RollbackOptions)
    : Op (result (option Helm.Release))
| ClientTest (c : Client) (name : string) (opts : Helm.TestOptions) : Op (option error)
| ClientUninstall (c : Client) (name : string) (opts : Helm.UninstallOptions)
    : Op (option error)
| ClientDependencyUpdate (c : Client) (chartPath : string) : Op (option error)
| ClientGetChartRevision (c : Client) (chartPath : string) : Op (result string)
(* helmV3.Converter *)
| V2ReleaseExists (name : string) : Op (result bool)
| Convert (name : string) (dryRun : bool) : Op (option error)
(* pkg/status *)
| SetStatusPhase (ns : string) (hr : V1.HelmRelease) (phase : V1.HelmReleasePhase) : Op unit
| SetStatusPhaseWithRevision (ns : string) (hr : V1.HelmRelease)
    (phase : V1.HelmReleasePhase) (revision : string) : Op unit
| SetObservedGeneration (ns : string) (hr : V1.HelmRelease) (generation : Z) : Op unit
| HasRolledBack (hr : V1.HelmRelease) : Op bool
| ShouldRetryUpgrade (hr : V1.HelmRelease) : Op bool
| ObserveReleaseConditions (hr : V1.HelmRelease) : Op unit
(* pkg/release, files not at hand *)
| managedByHelmRelease (rel : Helm.Release) (hr : V1.HelmRelease)
    : Op (bool * string * option error)
| annotateResources (rel : option Helm.Release) (resourceID : string) : Op (option error)
| composeValues (hr : V1.HelmRelease) (chartPath : string) : Op (result string)
(* git mirror *)
| GetMirrorCopy (hr : V1.HelmRelease) : Op (result (Export * string))
| ChangedFiles (export : Export) (revision : string) (paths : list string)
    : Op (list string)
| Clean (export : Export) : Op (option error)
| GitChartSyncDelete (hr : V1.HelmRelease) : Op bool
| SyncMirror (hr : V1.HelmRelease) : Op unit
(* chart repositories and downloads *)
| EnsureChartFetched (c : Client) (base : string) (source : V1.RepoChartSource)
    : Op (result (string * bool))
| DownloadFile (key base : string) (useCache : bool) : Op (result string)
(* file system and object-store SDKs *)
| OsStat (path : string) : Op (option error)
| OssNew (endpoint ackId ackSecret : string) : Op (option error)
| OssBucket (bucket : string) : Op (option error)
| OssGetObjectToFile (key path : string) : Op (option error)
| ObsNew (ackId ackSecret endpoint : string) : Op (option error)
| ObsDownloadFile (bucket key path : string) : Op (option error)
| ObsClose : Op unit
(* klog: Error(v), Error(err.Error()) and Info(msg); runtime.HandleError *)
| KlogError (msg : string) : Op unit
| KlogErrorMessage (err : error) : Op unit
| KlogInfo (msg : string) : Op unit
| HandleError (err : error) : Op unit
(* the cluster, through the dynamic client *)
| BuildConfigFromFlags : Op (option error)
| DynamicNewForConfig : Op (option error)
| DynGet (gvr : GroupVersionResource) (ns name : string) : Op (result Unstructured.t)
| DynDelete (gvr : GroupVersionResource) (ns name : string) : Op (option error)
| WaitUntilGone (gvr : GroupVersionResource) (ns name : string) : Op unit
(* the work queue, the lister, the lock files and the event recorder *)
| QueueLen : Op Z
| QueueGet : Op (QueueItem * bool)
| QueueDone (obj : QueueItem) : Op unit
| QueueForget (obj : QueueItem) : Op unit
| QueueAddRateLimited (key : string) : Op unit
| SetQueueLength (n : Z) : Op unit
| Lock (name : string) : Op (option error)
| Unlock (name : string) : Op unit
| ListerGet (ns name : string) : Op (result V1.HelmRelease)
| RecorderEvent (hr : V1.HelmRelease) (eventtype reason : string)
    (format : string) (args : list arg) : Op unit.

(** A program: it returns, calls out and goes on with the answer, or
    panics. *)
Inductive Prog (A : Type) : Type :=
| Ret (a : A)
| Vis {R : Type} (op : Op R) (k : R -> Prog A)
| Panic (v : string).
Arguments Ret {A} a.
Arguments Vis {A R} op k.
Arguments Panic {A} v.

Fixpoint bind {A B : Type} (m : Prog A) (k : A -> Prog B) : Prog B :=
  match m with
  | Ret a => k a
  | Vis op k' => Vis op (fun r => bind (k' r) k)
  | Panic v => Panic v
  end.

Definition call {R : Type} (op : Op R) : Prog R := Vis op Ret.

(** A deferred function that calls [recover]: a panic of [m] is handed
    to [h] and the function returns what [h] leaves in the results. *)
Fixpoint recovering {A : Type} (m : Prog A) (h : string -> Prog A) : Prog A :=
  match m with
  | Ret a => Ret a
  | Vis op k => Vis op (fun r => recovering (k r) h)
  | Panic v => h v
  end.

(** A deferred call without [recover]: it runs when [m] returns and when
    [m] panics, and the panic goes on afterwards. *)
Fixpoint deferring {A : Type} (m : Prog A) (d : Prog unit) : Prog A :=
  match m with
  | Ret a => bind d (fun _ => Ret a)
  | Vis op k => Vis op (fun r => deferring (k r) d)
  | Panic v => bind d (fun _ => Panic v)
  end.

(** A pure computation that may panic, as a program. *)
Definition lift {A : Type} (o : outcome A) : Prog A :=
  match o with
  | Returned a => Ret a
  | Panicked v => Panic v
  end.

(** The world outside answers each operation and moves on. *)
Definition handler (W : Type) : Type := forall R : Type, Op R -> W -> R * W.

(** One call that was made: the operation, without its answer. *)
Inductive Call : Type :=
| called {R : Type} (op : Op R).

(** Running a program: its outcome, the world it leaves, and the calls
    it made, in order. *)
Fixpoint exec {W A : Type} (h : handler W) (m : Prog A) (w : W)
  : outcome A * W * list Call :=
  match m with
  | Ret a => (Returned a, w, [])
  | Panic v => (Panicked v, w, [])
  | Vis op k =>
      let (r, w') := h _ op w in
      let '(o, w'', calls) := exec h (k r) w' in
      (o, w'', called op :: calls)
  end.

Definition outcomeOf {W A : Type} (h : handler W) (m : Prog A) (w : W) : outcome A :=
  fst (fst (exec h m w)).
Definition worldOf {W A : Type} (h : handler W) (m : Prog A) (w : W) : W :=
  snd (fst (exec h m w)).
Definition callsOf {W A : Type} (h : handler W) (m : Prog A) (w : W) : list Call :=
  snd (exec h m w).

End Effects.
Export Effects.

#[global] Instance Prog_ret : MRet Prog := fun A a => Ret a.
#[global] Instance Prog_bind : MBind Prog := fun A B k m => bind m k.

(** ** pkg/chartsync: credentials and object-store providers *)

Module Chartsync.

Import Base64 AES.

Definition Ali : string := "aliyun".
Definition Huawei : string := "huaweiyun".

(** The key both decoders are written with. *)
Definition k : list ascii := list_ascii_of_string "2367943245267894".

(** *** The decoder of oss.go *)

(** The loop of [AESDecrypt]: [cipher.Decrypt(decrypted[bs:be],
    encrypted[bs:be])] block after block; slicing a last block that is
    not whole panics. *)
Fixpoint decryptBlocks (c : aesCipher) (encrypted : list ascii) : outcome (list ascii) :=
  match encrypted with
  | [] => Returned []
  | b0 :: b1 :: b2 :: b3 :: b4 :: b5 :: b6 :: b7 :: b8 :: b9 :: b10 :: b11
       :: b12 :: b13 :: b14 :: b15 :: rest =>
      obind (AES.Decrypt c [b0; b1; b2; b3; b4; b5; b6; b7; b8; b9; b10; b11;
                            b12; b13; b14; b15])
        (fun d => obind (decryptBlocks c rest) (fun ds => Returned (d ++ ds)))
  | _ => Panicked "runtime error: slice bounds out of range"
  end.

(** [decrypted[:trim]], where [trim] is 0 for an empty slice and
    otherwise the length less the value of the last byte. *)
Definition trimPadding (decrypted : list ascii) : outcome (list ascii) :=
  match last decrypted with
  | None => Returned []
  | Some b =>
      if (length decrypted <? nat_of_ascii b)%nat
      then Panicked "runtime error: slice bounds out of range"
      else Returned (firstn (length decrypted - nat_of_ascii b) decrypted)
  end.

(** [AESDecrypt(encrypted, key)]: the error of [aes.NewCipher] is
    dropped, so a bad key leaves a nil cipher, whose first use panics. *)
Definition AESDecrypt (encrypted key : list ascii) : outcome (list ascii) :=
  match NewCipher key with
  | Err _ => Panicked "runtime error: invalid memory address or nil pointer dereference"
  | Ok cipher => obind (decryptBlocks cipher encrypted) trimPadding
  end.

(** [Decrypt(encrypted)]: the deferred function recovers a panic and
    logs it, and the function then returns its zero results. *)
Definition Decrypt (encrypted : string) : Prog (string * option error) :=
  recovering
    (let (bytes, err) := DecodeString StdEncoding encrypted in
     match err with
     | Some e => mret ("", Some e)
     | None =>
         decrypted ← lift (AESDecrypt bytes k);
         mret (string_of_list_ascii decrypted, None)
     end)
    (fun v => call (KlogError v);; mret ("", None)).

Definition setAck (oss : V1.Oss) (ackId ackSecret : string) : V1.Oss :=
  {| V1.CloudProvider := V1.CloudProvider oss;
     V1.RegionId := V1.RegionId oss;
     V1.Bucket := V1.Bucket oss;
     V1.Key := V1.Key oss;
     V1.AckId := ackId;
     V1.AckSecret := ackSecret;
     V1.AckEncrypted := V1.AckEncrypted oss;
     V1.UseCache := V1.UseCache oss |}.

(** [AckDecode(oss)]: the struct behind the pointer, as the call leaves
    it, and the error. *)
Definition AckDecode (oss : V1.Oss) : Prog (V1.Oss * option error) :=
  if V1.AckEncrypted oss then
    '(ackId, err) ← Decrypt (V1.AckId oss);
    match err with
    | Some e => mret (oss, Some e)
    | None =>
        '(ackSecret, err) ← Decrypt (V1.AckSecret oss);
        match err with
        | Some e => mret (oss, Some e)
        | None => mret (setAck oss ackId ackSecret, None)
        end
    end
  else mret (oss, None).

(** *** The older decoder, and the encoder it answers *)

(** [cbcDecrypter.CryptBlocks] on whole blocks: each block is decrypted
    and xored with the ciphertext block before it (the IV at first). *)
Fixpoint cbcDecryptBlocks (c : aesCipher) (iv src : list ascii) : list ascii :=
  match src with
  | b0 :: b1 :: b2 :: b3 :: b4 :: b5 :: b6 :: b7 :: b8 :: b9 :: b10 :: b11
       :: b12 :: b13 :: b14 :: b15 :: rest =>
      let block := [b0; b1; b2; b3; b4; b5; b6; b7; b8; b9; b10; b11;
                    b12; b13; b14; b15] in
      xorBytes (decryptBlock c block) iv ++ cbcDecryptBlocks c block rest
  | _ => []
  end.

(** [cipher.NewCBCDecrypter(block, iv).CryptBlocks(dst, src)] with [dst]
    as long as [src]. *)
Definition CBCDecrypt (c : aesCipher) (iv src : list ascii) : outcome (list ascii) :=
  if negb (length iv =? BlockSize)%nat
  then Panicked "cipher.NewCBCDecrypter: IV length must equal block size"
  else if negb (length src mod BlockSize =? 0)%nat
  then Panicked "crypto/cipher: input not full blocks"
  else Returned (cbcDecryptBlocks c iv src).

(** [PKCS7UnPadding(origData)]: indexing the last byte of an empty slice
    panics, and so does a padding longer than the data. *)
Definition PKCS7UnPadding (origData : list ascii) : outcome (list ascii) :=
  match last origData with
  | None => Panicked "runtime error: index out of range [-1]"
  | Some b =>
      if (length origData <? nat_of_ascii b)%nat
      then Panicked "runtime error: slice bounds out of range"
      else Returned (firstn (length origData - nat_of_ascii b) origData)
  end.

(** [AesDecrypt(ciphertext)]: the error of the base64 decoder is
    dropped and the bytes decoded so far are used; nothing recovers a
    panic. *)
Definition AesDecrypt (ciphertext : string) : outcome string :=
  let (decryptedByte, _) := DecodeString RawURLEncoding ciphertext in
  match NewCipher k with
  | Err _ => Panicked "key length must be 16/24/32"
  | Ok block =>
      obind (CBCDecrypt block (firstn BlockSize k) decryptedByte) (fun orig =>
      obind (PKCS7UnPadding orig) (fun orig =>
      Returned (string_of_list_ascii orig)))
  end.

(** The older [AckDecode(oss)], which returns nothing. *)
Definition AckDecodeLegacy (oss : V1.Oss) : outcome V1.Oss :=
  if V1.AckEncrypted oss then
    obind (AesDecrypt (V1.AckId oss)) (fun ackId =>
    obind (AesDecrypt (V1.AckSecret oss)) (fun ackSecret =>
    Returned (setAck oss ackId ackSecret)))
  else Returned oss.

(** Modelled from the spec: [PKCS7Padding], which [AesEncrypt] uses and
    which is not among the files at hand.  PKCS#7 appends [n] bytes of
    value [n], where [n] brings the length to the next multiple of the
    block size (a whole block when it already is one). *)
Definition PKCS7Padding (data : list ascii) (blockSize : nat) : list ascii :=
  let padding := (blockSize - length data mod blockSize)%nat in
  data ++ repeat (ascii_of_nat padding) padding.

(** [cbcEncrypter.CryptBlocks] on whole blocks: each block is xored with
    the ciphertext block before it (the IV at first) and encrypted. *)
Fixpoint cbcEncryptBlocks (c : aesCipher) (iv src : list ascii) : list ascii :=
  match src with
  | b0 :: b1 :: b2 :: b3 :: b4 :: b5 :: b6 :: b7 :: b8 :: b9 :: b10 :: b11
       :: b12 :: b13 :: b14 :: b15 :: rest =>
      let block := encryptBlock c (xorBytes
                     [b0; b1; b2; b3; b4; b5; b6; b7; b8; b9; b10; b11;
                      b12; b13; b14; b15] iv) in
      block ++ cbcEncryptBlocks c block rest
  | _ => []
  end.

(** Modelled from the spec: [AesEncrypt], the encoder that the test of
    the older decoder calls and that is not among the files at hand.
    The credential envelope is
    [base64url(aes-cbc-pkcs7(plaintext, key, iv = key[:16]))], in the
    unpadded URL-safe form. *)
Definition AesEncrypt (orig : string) : string :=
  match NewCipher k with
  | Err _ => ""
  | Ok block =>
      let origData := PKCS7Padding (list_ascii_of_string orig) BlockSize in
      EncodeToString RawURLEncoding
        (cbcEncryptBlocks block (firstn BlockSize k) origData)
  end.

(** *** Providers *)

(** [path/filepath.Join], taken from the Go library as it is. *)
Class FilePath : Type := { Join : string -> string -> string }.

(** A provider is one of two implementations, each holding the pointer
    to the source and the cache directory. *)
Inductive Provider : Type :=
| aliImpl (oss : V1.Oss) (base : string)
| huaweiImpl (oss : V1.Oss) (base : string).

Definition NewProvider (oss : V1.Oss) (base : string) : result Provider :=
  if String.eqb (V1.CloudProvider oss) Ali then Ok (aliImpl oss base)
  else if String.eqb (V1.CloudProvider oss) Huawei then Ok (huaweiImpl oss base)
  else Err (ChartUnavailableError
              (Errorf "unknown cloudProvider :%s" [ArgStr (V1.CloudProvider oss)])).

Definition Endpoint (p : Provider) (regionId : string) : string :=
  match p with
  | aliImpl _ _ => "http://" +:+ regionId +:+ ".aliyuncs.com"
  | huaweiImpl _ _ => "http://obs." +:+ regionId +:+ ".myhuaweicloud.com"
  end.

Definition providerOss (p : Provider) : V1.Oss :=
  match p with
  | aliImpl oss _ | huaweiImpl oss _ => oss
  end.
Definition providerBase (p : Provider) : string :=
  match p with
  | aliImpl _ base | huaweiImpl _ base => base
  end.

(** The SDK calls of a download, once the credentials are decoded. *)
Definition fetchObject (p : Provider) (oss : V1.Oss) (cachePath : string)
  : Prog (result string) :=
  match p with
  | aliImpl _ _ =>
      err ← call (OssNew (Endpoint p (V1.RegionId oss)) (V1.AckId oss) (V1.AckSecret oss));
      match err with
      | Some e => mret (Err (ChartUnavailableError e))
      | None =>
          err ← call (OssBucket (V1.Bucket oss));
          match err with
          | Some e => mret (Err (ChartUnavailableError e))
          | None =>
              err ← call (OssGetObjectToFile (V1.Key oss) cachePath);
              match err with
              | Some e => mret (Err (ChartUnavailableError e))
              | None => mret (Ok cachePath)
              end
          end
      end
  | huaweiImpl _ _ =>
      err ← call (ObsNew (V1.AckId oss) (V1.AckSecret oss) (Endpoint p (V1.RegionId oss)));
      match err with
      | Some e => mret (Err (ChartUnavailableError e))
      | None =>
          deferring
            (err ← call (ObsDownloadFile (V1.Bucket oss) (V1.Key oss) cachePath);
             match err with
             | Some e => mret (Err (ChartUnavailableError e))
             | None => mret (Ok cachePath)
             end)
            (call ObsClose)
      end
  end.

(** [DownloadFile(useCache)] of either provider: the source as the call
    leaves it (its credentials may have been decoded in place), and the
    cache path or the error. *)
Definition ProviderDownloadFile `{FilePath} (p : Provider) (useCache : bool)
  : Prog (V1.Oss * result string) :=
  let oss := providerOss p in
  let cachePath :=
    Join (providerBase p)
         (EncodeToString URLEncoding (list_ascii_of_string (V1.Key oss))) in
  cached ← (if useCache then
              call (KlogInfo ("cache used,key: " +:+ V1.Key oss +:+ ",path:" +:+ cachePath));;
              err ← call (OsStat cachePath);
              mret (match err with None => true | Some _ => false end)
            else mret false);
  if (cached : bool) then mret (oss, Ok cachePath)
  else
    '(oss', err) ← AckDecode oss;
    match err with
    | Some e => mret (oss', Err e)
    | None => r ← fetchObject p oss' cachePath; mret (oss', r)
    end.

End Chartsync.

(** ** pkg/release: chart preparation, decision machine, action loop *)

Module Release.

Import Chartsync.

Record Config : Type := {
  ChartCache : string;
  UpdateDeps : bool;
  LogDiffs : bool;
  DefaultHelmVersion : string
}.

Definition WithDefaults (c : Config) : Config :=
  if String.eqb (ChartCache c) "" then
    {| ChartCache := "/tmp"; UpdateDeps := UpdateDeps c;
       LogDiffs := LogDiffs c; DefaultHelmVersion := DefaultHelmVersion c |}
  else c.

(** The [Release] struct: the clients that were loaded, by version, and
    the configuration.  The other fields are collaborators, reached
    through operations. *)
Record Release : Type := {
  helmClients : list Client;
  config : Config
}.

(** [helmClients.Load(version)]. *)
Definition Load (clients : list Client) (version : string) : option Client :=
  if bool_decide (version ∈ clients) then Some version else None.

Record chart : Type := {
  chartPath : string;
  revision : string;
  changed : bool
}.

Definition noChart : chart := {| chartPath := ""; revision := ""; changed := false |}.

Inductive action : Type :=
| InstallAction
| UpgradeAction
| MigrateAction
| SkipAction
| RollbackAction
| UninstallAction
| DryRunCompareAction
| AnnotateAction
| TestAction.

Definition MigrateAnnotation : string := "helm.fluxcd.io/migrate".

Definition setOss (hr : V1.HelmRelease) (oss : V1.Oss) : V1.HelmRelease :=
  let sp := V1.Spec hr in
  {| V1.Namespace := V1.Namespace hr;
     V1.ObjName := V1.ObjName hr;
     V1.Generation := V1.Generation hr;
     V1.Annotations := V1.Annotations hr;
     V1.Spec :=
       {| V1.HelmVersion := V1.HelmVersion sp;
          V1.GitChartSource_ := V1.GitChartSource_ sp;
          V1.RepoChartSource_ := V1.RepoChartSource_ sp;
          V1.Customize_ := V1.Customize_ sp;
          V1.Oss_ := Some oss;
          V1.ReleaseName := V1.ReleaseName sp;
          V1.TargetNamespace := V1.TargetNamespace sp;
          V1.Timeout := V1.Timeout sp;
          V1.MaxHistory := V1.MaxHistory sp;
          V1.ResetValues := V1.ResetValues sp;
          V1.ForceUpgrade := V1.ForceUpgrade sp;
          V1.SkipCRDs := V1.SkipCRDs sp;
          V1.Wait := V1.Wait sp;
          V1.DisableOpenAPIValidation := V1.DisableOpenAPIValidation sp;
          V1.Test_ := V1.Test_ sp;
          V1.Rollback_ := V1.Rollback_ sp;
          V1.AppId := V1.AppId sp;
          V1.ComponentId := V1.ComponentId sp;
          V1.IstioEnabled := V1.IstioEnabled sp;
          V1.LogCollect := V1.LogCollect sp |};
     V1.Status := V1.Status hr |}.

(** Modelled from the spec: [status.HasSynced], which is not among the
    files at hand.  The resource has not been synced to its current
    generation yet when [observedGeneration < generation]. *)
Definition HasSynced (hr : V1.HelmRelease) : bool :=
  negb (V1.ObservedGeneration (V1.Status hr) <? V1.Generation hr).

Section Engine.

Context `{V1.Accessors} `{Helm.StatusAPI} `{FilePath}.

(** *** prepareChart *)

(** The guards of the [switch], in the order of its cases. *)
Definition gitSourceSet (hr : V1.HelmRelease) : option V1.GitChartSource :=
  match V1.GitChartSource_ (V1.Spec hr) with
  | Some g =>
      if negb (String.eqb (V1.GitURL g) "") && negb (String.eqb (V1.Path g) "")
      then Some g else None
  | None => None
  end.
Definition repoSourceSet (hr : V1.HelmRelease) : option V1.RepoChartSource :=
  match V1.RepoChartSource_ (V1.Spec hr) with
  | Some s =>
      if negb (String.eqb (V1.RepoURL s) "") && negb (String.eqb (V1.Name s) "")
         && negb (String.eqb (V1.Version s) "")
      then Some s else None
  | None => None
  end.
Definition customizeSet (hr : V1.HelmRelease) : option V1.Customize :=
  match V1.Customize_ (V1.Spec hr) with
  | Some c => if negb (String.eqb (V1.CustomizeKey c) "") then Some c else None
  | None => None
  end.

(** After a download: the revision of the chart, and whether it differs
    from the last one attempted. *)
Definition revisionOf (client : Client) (hr : V1.HelmRelease) (path : string)
  : Prog (chart * option Export * option error) :=
  rev ← call (ClientGetChartRevision client path);
  match rev with
  | Err e => mret (noChart, None, Some e)
  | Ok revision =>
      mret ({| chartPath := path; revision := revision;
               changed := negb (String.eqb (V1.LastAttemptedRevision (V1.Status hr))
                                           revision) |}, None, None)
  end.

(** [prepareChart(client, hr)]: the resource as the call leaves it, the
    chart, the export whose [Clean] is the clean-up (if any), and the
    error. *)
Definition prepareChart (r : Release) (client : Client) (hr : V1.HelmRelease)
  : Prog (V1.HelmRelease * (chart * option Export * option error)) :=
  match gitSourceSet hr with
  | Some g =>
      m ← call (GetMirrorCopy hr);
      match m with
      | Err e => mret (hr, (noChart, None, Some e))
      | Ok (export, revision) =>
          let path := Join (Dir export) (V1.Path g) in
          i ← call (ChangedFiles export (V1.LastAttemptedRevision (V1.Status hr))
                      [V1.Path g]);
          let changed := (0 <? length i)%nat in
          err ← (if UpdateDeps (config r) && negb (V1.SkipDepUpdate g)
                 then call (ClientDependencyUpdate client path)
                 else mret None);
          match err with
          | Some e => mret (hr, (noChart, None, Some e))
          | None =>
              mret (hr, ({| chartPath := path; revision := revision; changed := changed |},
                         Some export, None))
          end
      end
  | None =>
  match repoSourceSet hr with
  | Some s =>
      f ← call (EnsureChartFetched client (ChartCache (config r)) s);
      match f with
      | Err e => mret (hr, (noChart, None, Some e))
      | Ok (path, _) => c ← revisionOf client hr path; mret (hr, c)
      end
  | None =>
  match customizeSet hr with
  | Some c =>
      f ← call (DownloadFile (V1.CustomizeKey c) (ChartCache (config r))
                  (V1.CustomizeUseCache c));
      match f with
      | Err e => mret (hr, (noChart, None, Some e))
      | Ok path => c ← revisionOf client hr path; mret (hr, c)
      end
  | None =>
  match V1.Oss_ (V1.Spec hr) with
  | Some oss =>
      match NewProvider oss (ChartCache (config r)) with
      | Err e => mret (hr, (noChart, None, Some e))
      | Ok provider =>
          '(oss', f) ← ProviderDownloadFile provider (V1.UseCache oss);
          let hr' := setOss hr oss' in
          match f with
          | Err e => mret (hr', (noChart, None, Some e))
          | Ok path => c ← revisionOf client hr' path; mret (hr', c)
          end
      end
  | None =>
      mret (hr, (noChart, None,
                 Some (Errorf "could not find valid chart source configuration for release" [])))
  end end end end.

(** *** determineSyncAction *)

Definition getOptions (hr : V1.HelmRelease) : Helm.GetOptions :=
  {| Helm.GetNamespace := V1.GetTargetNamespace hr; Helm.GetVersion := 0 |}.

Definition isFailedOrSuperseded (rel : Helm.Release) : bool :=
  Helm.Status_eqb (Helm.InfoStatus (Helm.Info_ rel)) Helm.StatusFailed
  || Helm.Status_eqb (Helm.InfoStatus (Helm.Info_ rel)) Helm.StatusSuperseded.

(** [determineSyncAction(client, hr, chart)]: the action, the release
    to compare or roll back to, and the error. *)
Definition determineSyncAction (r : Release) (client : Client) (hr : V1.HelmRelease)
  (chart : chart) : Prog (action * option Helm.Release * option error) :=
  g ← call (ClientGet client (V1.GetReleaseName hr) (getOptions hr));
  match g with
  | Err e =>
      mret (SkipAction, None,
            Some (Errorf "failed to retrieve Helm release: %w" [ArgErr e]))
  | Ok None =>
      match V1.Annotations hr !! MigrateAnnotation with
      | Some _ =>
          if String.eqb (V1.GetHelmVersion hr (DefaultHelmVersion (config r))) V1.HelmV3
          then
            e ← call (V2ReleaseExists (V1.GetReleaseName hr));
            match e with
            | Err e =>
                mret (SkipAction, None,
                      Some (Errorf "failed to retrieve Helm v2 release while attempting migration: %w"
                              [ArgErr e]))
            | Ok true => mret (MigrateAction, None, None)
            | Ok false => mret (InstallAction, None, None)
            end
          else mret (InstallAction, None, None)
      | None => mret (InstallAction, None, None)
      end
  | Ok (Some curRel) =>
      '(managedBy, antecedent, err) ← call (managedByHelmRelease curRel hr);
      match err with
      | Some e =>
          mret (SkipAction, None,
                Some (Errorf "failed to determine ownership over release: %w" [ArgErr e]))
      | None =>
      if negb managedBy then
        mret (SkipAction, None,
              Some (Errorf "release appears to be managed by '%s'" [ArgStr antecedent]))
      else
      let s := Helm.InfoStatus (Helm.Info_ curRel) in
      if negb (Helm.AllowsUpgrade s) then
        mret (SkipAction, None,
              Some (Errorf "status '%s' of release does not allow a safe upgrade"
                      [ArgStr (Helm.StatusString s)]))
      else if negb (HasSynced hr) then mret (UpgradeAction, Some curRel, None)
      else
        rolledBack ← call (HasRolledBack hr);
        if (rolledBack : bool) then
          retry ← (if changed chart then mret true else call (ShouldRetryUpgrade hr));
          if (retry : bool) then mret (UpgradeAction, Some curRel, None)
          else
            hist ← call (ClientHistory client (V1.GetReleaseName hr)
                           {| Helm.HistoryNamespace := V1.GetTargetNamespace hr;
                              Helm.HistoryMax := V1.GetMaxHistory hr |});
            match hist with
            | Err e =>
                mret (SkipAction, None,
                      Some (Errorf "failed to retreive history for rolled back release: %w"
                              [ArgErr e]))
            | Ok hist =>
                mret (DryRunCompareAction,
                      Some (default curRel (List.find isFailedOrSuperseded hist)), None)
            end
        else if changed chart then mret (UpgradeAction, Some curRel, None)
        else mret (DryRunCompareAction, Some curRel, None)
      end
  end.

(** *** The Helm actions *)

(** Each action reports the phases it goes through on the resource. *)
Definition phase (hr : V1.HelmRelease) (p : V1.HelmReleasePhase) : Prog unit :=
  call (SetStatusPhase (V1.Namespace hr) hr p).

Definition dryRunOptions (hr : V1.HelmRelease) : Helm.UpgradeOptions :=
  {| Helm.DryRun := true;
     Helm.UpgradeNamespace := V1.GetTargetNamespace hr;
     Helm.UpgradeTimeout := 0;
     Helm.Install := false;
     Helm.Force := V1.ForceUpgrade (V1.Spec hr);
     Helm.ReuseValues := V1.GetReuseValues hr;
     Helm.ResetValues := negb (V1.GetReuseValues hr);
     Helm.SkipCRDs := false;
     Helm.MaxHistory := 0;
     Helm.Wait := false;
     Helm.DisableValidation := false;
     Helm.PostRenderer := None |}.

Definition installOptions (hr : V1.HelmRelease) : Helm.UpgradeOptions :=
  {| Helm.DryRun := false;
     Helm.UpgradeNamespace := V1.GetTargetNamespace hr;
     Helm.UpgradeTimeout := V1.GetTimeout hr;
     Helm.Install := true;
     Helm.Force := V1.ForceUpgrade (V1.Spec hr);
     Helm.ReuseValues := false;
     Helm.ResetValues := false;
     Helm.SkipCRDs := V1.SkipCRDs (V1.Spec hr);
     Helm.MaxHistory := V1.GetMaxHistory hr;
     Helm.Wait := V1.GetWait hr;
     Helm.DisableValidation := V1.DisableOpenAPIValidation (V1.Spec hr);
     Helm.PostRenderer := Some hr |}.

Definition upgradeOptions (hr : V1.HelmRelease) : Helm.UpgradeOptions :=
  {| Helm.DryRun := false;
     Helm.UpgradeNamespace := V1.GetTargetNamespace hr;
     Helm.UpgradeTimeout := V1.GetTimeout hr;
     Helm.Install := false;
     Helm.Force := V1.ForceUpgrade (V1.Spec hr);
     Helm.ReuseValues := V1.GetReuseValues hr;
     Helm.ResetValues := negb (V1.GetReuseValues hr);
     Helm.SkipCRDs := V1.SkipCRDs (V1.Spec hr);
     Helm.MaxHistory := V1.GetMaxHistory hr;
     Helm.Wait := V1.GetWait hr;
     Helm.DisableValidation := V1.DisableOpenAPIValidation (V1.Spec hr);
     Helm.PostRenderer := Some hr |}.

Definition rollbackOptions (hr : V1.HelmRelease) : Helm.RollbackOptions :=
  let rb := V1.Rollback_ (V1.Spec hr) in
  {| Helm.RollbackNamespace := V1.GetTargetNamespace hr;
     Helm.RollbackTimeout := V1.GetRollbackTimeout rb;
     Helm.RollbackWait := V1.RollbackWait rb;
     Helm.RollbackDisableHooks := V1.RollbackDisableHooks rb;
     Helm.RollbackRecreate := V1.RollbackRecreate rb;
     Helm.RollbackForce := V1.RollbackForce rb |}.

Definition dryRunCompare (client : Client) (rel : option Helm.Release)
  (hr : V1.HelmRelease) (chart : chart) (values : string)
  : Prog (option Helm.Release * string * option error) :=
  d ← call (ClientUpgradeFromPath client (chartPath chart) (V1.GetReleaseName hr) values
              (dryRunOptions hr));
  match d with
  | Err e =>
      mret (None, "", Some (Errorf "dry-run upgrade for comparison failed: %w" [ArgErr e]))
  | Ok dryRel => mret (dryRel, Helm.Diff rel dryRel, None)
  end.

Definition install (client : Client) (hr : V1.HelmRelease) (chart : chart)
  (values : string) : Prog (result (option Helm.Release)) :=
  call (SetStatusPhaseWithRevision (V1.Namespace hr) hr V1.HelmReleasePhaseInstalling
          (revision chart));;
  u ← call (ClientUpgradeFromPath client (chartPath chart) (V1.GetReleaseName hr) values
              (installOptions hr));
  match u with
  | Err e =>
      phase hr V1.HelmReleasePhaseDeployFailed;;
      mret (Err (Errorf "installation failed: %w" [ArgErr e]))
  | Ok rel => phase hr V1.HelmReleasePhaseDeployed;; mret (Ok rel)
  end.

Definition migrate (client : Client) (hr : V1.HelmRelease) (chart : chart)
  (dryRun : bool) : Prog (result (option Helm.Release)) :=
  call (SetStatusPhaseWithRevision (V1.Namespace hr) hr V1.HelmReleasePhaseMigrating
          (revision chart));;
  err ← call (Convert (V1.GetReleaseName hr) dryRun);
  match err with
  | Some e =>
      phase hr V1.HelmReleasePhaseFailed;;
      mret (Err (Errorf "installation failed: %w" [ArgErr e]))
  | None => phase hr V1.HelmReleasePhaseSucceeded;; mret (Ok None)
  end.

Definition upgrade (client : Client) (hr : V1.HelmRelease) (chart : chart)
  (values : string) : Prog (result (option Helm.Release)) :=
  call (SetStatusPhaseWithRevision (V1.Namespace hr) hr V1.HelmReleasePhaseUpgrading
          (revision chart));;
  u ← call (ClientUpgradeFromPath client (chartPath chart) (V1.GetReleaseName hr) values
              (upgradeOptions hr));
  match u with
  | Err e =>
      phase hr V1.HelmReleasePhaseDeployFailed;;
      mret (Err (Errorf "upgrade failed: %w" [ArgErr e]))
  | Ok rel => phase hr V1.HelmReleasePhaseDeployed;; mret (Ok rel)
  end.

Definition rollback (client : Client) (hr : V1.HelmRelease) (revision : string)
  : Prog (result (option Helm.Release)) :=
  phase hr V1.HelmReleasePhaseRollingBack;;
  b ← call (ClientRollback client (V1.GetReleaseName hr) (rollbackOptions hr));
  match b with
  | Err e =>
      phase hr V1.HelmReleasePhaseRollbackFailed;;
      mret (Err (Errorf "rollback failed: %w" [ArgErr e]))
  | Ok rel => phase hr V1.HelmReleasePhaseRolledBack;; mret (Ok rel)
  end.

Definition test (client : Client) (hr : V1.HelmRelease) : Prog (option error) :=
  phase hr V1.HelmReleasePhaseTesting;;
  let t := V1.Test_ (V1.Spec hr) in
  err ← call (ClientTest client (V1.GetReleaseName hr)
                {| Helm.TestNamespace := V1.GetTargetNamespace hr;
                   Helm.TestTimeout := V1.GetTestTimeout t;
                   Helm.TestCleanup := V1.GetCleanup t |});
  match err with
  | Some e =>
      phase hr V1.HelmReleasePhaseTestFailed;;
      mret (Some (Errorf "test failed: %w" [ArgErr e]))
  | None => phase hr V1.HelmReleasePhaseTested;; mret None
  end.

Definition annotate (hr : V1.HelmRelease) (rel : option Helm.Release)
  : Prog (option error) :=
  err ← call (annotateResources rel (V1.ResourceID hr));
  match err with
  | Some e => mret (Some (Errorf "failed to annotate release resources: %w" [ArgErr e]))
  | None => mret None
  end.

Definition uninstall (client : Client) (hr : V1.HelmRelease) : Prog (option error) :=
  err ← call (ClientUninstall client (V1.GetReleaseName hr)
                {| Helm.UninstallNamespace := V1.GetTargetNamespace hr;
                   Helm.KeepHistory := false;
                   Helm.UninstallTimeout := V1.GetTimeout hr |});
  match err with
  | Some e => mret (Some (Errorf "uninstall failed: %w" [ArgErr e]))
  | None => mret None
  end.

(** *** run: the action loop *)

(** What the loop carries from one action to the next. *)
Record loopState : Type := {
  newRel : option Helm.Release;
  errs : list error
}.

(** An action ends with [goto next] under a new action, or leaves the
    [switch]. *)
Inductive transition : Type :=
| Goto (a : action)
| Leave.

Definition append (st : loopState) (e : error) : loopState :=
  {| newRel := newRel st; errs := errs st ++ [e] |}.
Definition withRel (st : loopState) (rel : option Helm.Release) : loopState :=
  {| newRel := rel; errs := errs st |}.

Definition nilDereference : string :=
  "runtime error: invalid memory address or nil pointer dereference".

(** One pass through the [switch] of [run]. *)
Definition step (r : Release) (client : Client) (hr : V1.HelmRelease)
  (curRel : option Helm.Release) (chart : chart) (values : string)
  (a : action) (st : loopState) : Prog (transition * loopState) :=
  match a with
  | DryRunCompareAction =>
      match curRel with
      | None => Panic nilDereference
      | Some _ =>
          '(dryRel, diff, err) ← dryRunCompare client curRel hr chart values;
          let st := withRel st dryRel in
          match err with
          | Some e =>
              phase hr V1.HelmReleasePhaseFailed;;
              mret (Leave, append st (Errorf "dry-run upgrade failed: %w" [ArgErr e]))
          | None =>
              if negb (String.eqb diff "") then mret (Goto UpgradeAction, st)
              else
                rolledBack ← call (HasRolledBack hr);
                (if (rolledBack : bool) then mret tt
                 else phase hr V1.HelmReleasePhaseSucceeded);;
                mret (Leave, st)
          end
      end
  | InstallAction =>
      i ← install client hr chart values;
      match i with
      | Err e => mret (Goto UninstallAction, append (withRel st None) e)
      | Ok rel => mret (Goto TestAction, withRel st rel)
      end
  | MigrateAction =>
      let dryRun := negb (bool_decide (V1.Annotations hr !! MigrateAnnotation = Some "true")) in
      m ← migrate client hr chart dryRun;
      match m with
      | Err e =>
          phase hr V1.HelmReleasePhaseFailed;;
          mret (Leave,
                append (withRel st None)
                  (Errorf "failed to convert helm chart from v2 to v3: %w" [ArgErr e]))
      | Ok rel =>
          mret (Goto (if dryRun then SkipAction else UpgradeAction), withRel st rel)
      end
  | UpgradeAction =>
      u ← upgrade client hr chart values;
      match u with
      | Err e => mret (Goto RollbackAction, append (withRel st None) e)
      | Ok rel => mret (Goto TestAction, withRel st rel)
      end
  | TestAction =>
      let succeed :=
        call (SetStatusPhaseWithRevision (V1.Namespace hr) hr
                V1.HelmReleasePhaseSucceeded (revision chart));;
        mret (Goto AnnotateAction) in
      if V1.TestEnable (V1.Test_ (V1.Spec hr)) then
        err ← test client hr;
        match err with
        | Some e =>
            let st := append st e in
            if negb (V1.GetIgnoreFailures (V1.Test_ (V1.Spec hr))) then
              mret (Goto (match curRel with
                          | None => UninstallAction
                          | Some _ => RollbackAction
                          end), st)
            else t ← succeed; mret (t, st)
        | None => t ← succeed; mret (t, st)
        end
      else t ← succeed; mret (t, st)
  | AnnotateAction =>
      annotate hr (newRel st);;
      mret (Leave, st)
  | RollbackAction =>
      if V1.RollbackEnable (V1.Rollback_ (V1.Spec hr)) then
        g ← call (ClientGet client (V1.GetReleaseName hr) (getOptions hr));
        match g with
        | Err e =>
            mret (Leave,
                  append st (Errorf "unable to determine if rollback should be performed: %w"
                               [ArgErr e]))
        | Ok latestRel =>
            match curRel, latestRel with
            | Some cur, Some latest =>
                if Helm.Version cur <? Helm.Version latest then
                  b ← rollback client hr (revision chart);
                  match b with
                  | Err e => mret (Leave, append (withRel st None) e)
                  | Ok rel => mret (Goto AnnotateAction, withRel st rel)
                  end
                else mret (Leave, st)
            | _, _ => Panic nilDereference
            end
        end
      else mret (Leave, st)
  | UninstallAction =>
      uninstall client hr;;
      match V1.GitChartSource_ (V1.Spec hr) with
      | Some _ => call (GitChartSyncDelete hr);; mret (Leave, st)
      | None => mret (Leave, st)
      end
  | SkipAction => mret (Leave, st)
  end.

(** The label [next]: actions are taken until one leaves the [switch];
    [None] when [n] passes were not enough. *)
Fixpoint loop (n : nat) (r : Release) (client : Client) (hr : V1.HelmRelease)
  (curRel : option Helm.Release) (chart : chart) (values : string)
  (a : action) (st : loopState) : Prog (option loopState) :=
  match n with
  | O => mret None
  | S n' =>
      '(t, st') ← step r client hr curRel chart values a st;
      match t with
      | Goto a' => loop n' r client hr curRel chart values a' st'
      | Leave => mret (Some st')
      end
  end.

(** No path through the actions is longer than five passes. *)
Definition passes : nat := 5.

(** [run(logger, client, action, hr, curRel, chart, values)]: nil when
    no error was collected, and the collection otherwise. *)
Definition run (r : Release) (client : Client) (a : action) (hr : V1.HelmRelease)
  (curRel : option Helm.Release) (chart : chart) (values : string)
  : Prog (option error) :=
  st ← loop passes r client hr curRel chart values a {| newRel := None; errs := [] |};
  match st with
  | Some st =>
      mret (match errs st with
            | [] => None
            | _ :: _ => Some (errCollection (errs st))
            end)
  | None => Panic "unreachable"
  end.

(** *** Sync and Uninstall *)

(** [Sync(hr)], with its deferred calls: the clean-up of the chart, then
    the record of the observed generation. *)
Definition Sync (r : Release) (hr : V1.HelmRelease) : Prog (option error) :=
  match Load (helmClients r) (V1.GetHelmVersion hr (DefaultHelmVersion (config r))) with
  | None =>
      call (SetStatusPhase (V1.GetTargetNamespace hr) hr V1.HelmReleasePhaseFailed);;
      mret (Some (Errorf "no client found for Helm '%s'"
                    [ArgStr (DefaultHelmVersion (config r))]))
  | Some client =>
      '(hr', (chart, cleanup, err)) ← prepareChart r client hr;
      let hr := hr' in
      let observed :=
        call (SetObservedGeneration (V1.Namespace hr) hr (V1.Generation hr)) in
      match err with
      | Some e =>
          deferring
            (phase hr V1.HelmReleasePhaseChartFetchFailed;;
             mret (Some (Errorf "failed to prepare chart for release: %w" [ArgErr e])))
            observed
      | None =>
          let body :=
            (if changed chart then phase hr V1.HelmReleasePhaseChartFetched else mret tt);;
            v ← call (composeValues hr (chartPath chart));
            match v with
            | Err e =>
                call (SetStatusPhase (V1.GetTargetNamespace hr) hr V1.HelmReleasePhaseFailed);;
                mret (Some (Errorf "failed to compose values for release: %w" [ArgErr e]))
            | Ok values =>
                '(a, curRel, err) ← determineSyncAction r client hr chart;
                match err with
                | Some e =>
                    call (SetStatusPhase (V1.GetTargetNamespace hr) hr
                            V1.HelmReleasePhaseFailed);;
                    mret (Some (Errorf "failed to determine sync action for release: %w"
                                  [ArgErr e]))
                | None => run r client a hr curRel chart values
                end
            end in
          deferring
            (match cleanup with
             | Some export => deferring body (call (Clean export);; mret tt)
             | None => body
             end)
            observed
      end
  end.

(** [Uninstall(hr)]. *)
Definition Uninstall (r : Release) (hr : V1.HelmRelease) : Prog (option error) :=
  match Load (helmClients r) (V1.GetHelmVersion hr (DefaultHelmVersion (config r))) with
  | None =>
      mret (Some (Errorf "no client found for Helm '%s'"
                    [ArgStr (DefaultHelmVersion (config r))]))
  | Some client => run r client UninstallAction hr None noChart ""
  end.

End Engine.

(** *** The post-renderer *)

Definition AppIdLabelKey : string := "oam.runtime.app.id".
Definition ComponentIdLabelKey : string := "oam.runtime.component.id".
Definition IstioEnableLabelKey : string := "istio-injection".
Definition IstioEnableLabelValue : string := "enabled".
Definition LogCollectAnnotateKey : string := "logCollect".

Definition statefulsetGroupVersionResource : GroupVersionResource :=
  {| Group := "apps"; GVRVersion := "v1"; Resource := "statefulsets" |}.
Definition deploymentGroupVersionResource : GroupVersionResource :=
  {| Group := "apps"; GVRVersion := "v1"; Resource := "deployments" |}.
Definition matchLabelsPath : list string := ["spec"; "selector"; "matchLabels"].
Definition templateLabelsPath : list string := ["spec"; "template"; "metadata"; "labels"].

(** [strconv.FormatBool]. *)
Definition FormatBool (b : bool) : string := if b then "true" else "false".

(** Splitting a manifest into objects and writing an object as YAML are
    done by code outside the files at hand. *)
Class Manifests : Type := {
  releaseManifestToUnstructured : string -> list Unstructured.t;
  Marshal : Unstructured.t -> string
}.

(** A nil map read from the object is replaced by a fresh one. *)
Definition orEmpty (m : option (gmap string string)) : gmap string string :=
  default ∅ m.

Definition appInfoInject (hr : V1.HelmRelease) (target : Unstructured.t) : Unstructured.t :=
  let matchLabels := orEmpty (Unstructured.NestedStringMap target matchLabelsPath) in
  let matchLabels := <[AppIdLabelKey := V1.AppId (V1.Spec hr)]> matchLabels in
  let matchLabels := <[ComponentIdLabelKey := V1.ComponentId (V1.Spec hr)]> matchLabels in
  let target := Unstructured.SetNestedStringMap target matchLabels matchLabelsPath in
  let templateLabels := orEmpty (Unstructured.NestedStringMap target templateLabelsPath) in
  let templateLabels := <[AppIdLabelKey := V1.AppId (V1.Spec hr)]> templateLabels in
  let templateLabels := <[ComponentIdLabelKey := V1.ComponentId (V1.Spec hr)]> templateLabels in
  Unstructured.SetNestedStringMap target templateLabels templateLabelsPath.

Definition istioInject (hr : V1.HelmRelease) (target : Unstructured.t) : Unstructured.t :=
  let matchLabels := orEmpty (Unstructured.NestedStringMap target matchLabelsPath) in
  let matchLabels := <[IstioEnableLabelKey := IstioEnableLabelValue]> matchLabels in
  let target := Unstructured.SetNestedStringMap target matchLabels matchLabelsPath in
  let templateLabels := orEmpty (Unstructured.NestedStringMap target templateLabelsPath) in
  let templateLabels := <[IstioEnableLabelKey := IstioEnableLabelValue]> templateLabels in
  Unstructured.SetNestedStringMap target templateLabels templateLabelsPath.

(** [deleteOldRes]: delete, then wait (at most ten seconds) for the
    object to be gone. *)
Definition deleteOldRes (resource : GroupVersionResource) (namespace name : string)
  : Prog (option error) :=
  err ← call (DynDelete resource namespace name);
  match err with
  | Some e => mret (Some e)
  | None => call (WaitUntilGone resource namespace name);; mret None
  end.

Definition istioInjectHandle (hr : V1.HelmRelease) (resource : GroupVersionResource)
  (target : Unstructured.t) (inject : bool) : Prog (Unstructured.t * option error) :=
  current ← call (DynGet resource (V1.Namespace hr) (Unstructured.GetName target));
  match current with
  | Err e =>
      if negb (IsNotFound e) then mret (target, Some e)
      else mret (if inject then istioInject hr target else target, None)
  | Ok current =>
      let templateLabels :=
        orEmpty (Unstructured.NestedStringMap current templateLabelsPath) in
      let enabled :=
        bool_decide (templateLabels !! IstioEnableLabelKey = Some IstioEnableLabelValue) in
      if inject then
        if negb enabled then
          err ← deleteOldRes resource (Unstructured.GetNamespace target)
                  (Unstructured.GetName target);
          match err with
          | Some e => mret (target, Some e)
          | None => mret (istioInject hr target, None)
          end
        else mret (istioInject hr target, None)
      else
        if enabled then
          err ← deleteOldRes resource (Unstructured.GetNamespace target)
                  (Unstructured.GetName target);
          match err with
          | Some e => mret (target, Some e)
          | None => mret (target, None)
          end
        else mret (target, None)
  end.

Definition isWorkload (kind : string) : bool :=
  String.eqb kind "StatefulSet" || String.eqb kind "Deployment".

(** The body of the loop over the objects of the manifest. *)
Definition renderObject (hr : V1.HelmRelease) (u : Unstructured.t) : Prog Unstructured.t :=
  let spec := V1.Spec hr in
  let labels := orEmpty (Unstructured.GetLabels u) in
  let labels := <[AppIdLabelKey := V1.AppId spec]> labels in
  let labels := <[ComponentIdLabelKey := V1.ComponentId spec]> labels in
  let u := Unstructured.SetLabels u labels in
  let u :=
    if isWorkload (Unstructured.GetKind u) then
      let annotations := orEmpty (Unstructured.GetAnnotations u) in
      let annotations :=
        <[LogCollectAnnotateKey := FormatBool (V1.LogCollect spec)]> annotations in
      Unstructured.SetAnnotations u annotations
    else u in
  let handle (resource : GroupVersionResource) : Prog Unstructured.t :=
    let u := appInfoInject hr u in
    '(handled, err) ← istioInjectHandle hr resource u (V1.IstioEnabled spec);
    match err with
    | Some e => call (KlogErrorMessage e);; mret handled
    | None => mret handled
    end in
  if String.eqb (Unstructured.GetKind u) "StatefulSet"
  then handle statefulsetGroupVersionResource
  else if String.eqb (Unstructured.GetKind u) "Deployment"
  then handle deploymentGroupVersionResource
  else mret u.

Fixpoint renderObjects (hr : V1.HelmRelease) (us : list Unstructured.t)
  : Prog (list Unstructured.t) :=
  match us with
  | [] => mret []
  | u :: us' =>
      u' ← renderObject hr u;
      rest ← renderObjects hr us';
      mret (u' :: rest)
  end.

(** What is written to [modifiedManifests] for the objects. *)
Fixpoint writeObjects `{Manifests} (us : list Unstructured.t) : string :=
  match us with
  | [] => ""
  | u :: us' => "---" +:+ String "010" (Marshal u +:+ String "010" (writeObjects us'))
  end.

(** The function that [getAppManagerPostRenderer(hr)] returns, on the
    rendered manifests: the objects it wrote, if it got that far, and
    the buffer it returns (its error is always nil). *)
Definition postRender `{Manifests} (hr : V1.HelmRelease) (renderedManifests : string)
  : Prog (option (list Unstructured.t) * string) :=
  err ← call BuildConfigFromFlags;
  match err with
  | Some e => call (KlogErrorMessage e);; mret (None, renderedManifests)
  | None =>
      err ← call DynamicNewForConfig;
      match err with
      | Some e => call (KlogErrorMessage e);; mret (None, renderedManifests)
      | None =>
          us ← renderObjects hr (releaseManifestToUnstructured renderedManifests);
          let modifiedManifests := writeObjects us in
          call (KlogInfo modifiedManifests);;
          mret (Some us, modifiedManifests)
      end
  end.

End Release.

(** ** The operator: the work-queue controller *)

Module Operator.

Definition ReleaseSynced : string := "ReleaseSynced".
Definition FailedReleaseSync : string := "FailedReleaseSync".
Definition EventTypeNormal : string := "Normal".
Definition EventTypeWarning : string := "Warning".

Record Controller : Type := {
  release : Release.Release
}.

(** [strings.Split(s, "/")]: [cur] is the part being read, reversed. *)
Fixpoint splitSlash (s : string) (cur : string) : list string :=
  match s with
  | EmptyString => [cur]
  | String c s' =>
      if Ascii.eqb c "/"%char then cur :: splitSlash s' ""
      else splitSlash s' (cur +:+ String c "")
  end.

(** [cache.SplitMetaNamespaceKey]. *)
Definition SplitMetaNamespaceKey (key : string) : result (string * string) :=
  match splitSlash key "" with
  | [name] => Ok ("", name)
  | [namespace; name] => Ok (namespace, name)
  | _ => Err (Errorf "unexpected key format: %q" [ArgStr key])
  end.

Section Worker.

Context `{V1.Accessors} `{Helm.StatusAPI} `{Chartsync.FilePath}.

(** [syncHandler(key)]. *)
Definition syncHandler (c : Controller) (key : string) : Prog (option error) :=
  match SplitMetaNamespaceKey key with
  | Err _ =>
      call (HandleError (Errorf "key '%s' is invalid" [ArgStr key]));;
      mret None
  | Ok (namespace, name) =>
      let lockName := namespace +:+ "-" +:+ name in
      err ← call (Lock lockName);
      match err with
      | Some _ => mret None
      | None =>
          deferring
            (g ← call (ListerGet namespace name);
             match g with
             | Err e =>
                 if IsNotFound e then
                   call (HandleError
                           (Errorf "HelmRelease '%s' referred to in work queue no longer exists"
                              [ArgStr key]));;
                   mret None
                 else mret (Some e)
             | Ok hr =>
                 err ← Release.Sync (release c) hr;
                 match err with
                 | Some e =>
                     call (RecorderEvent hr EventTypeWarning FailedReleaseSync
                             "synchronization of release '%s' in namespace '%s' failed: %s"
                             [ArgStr (V1.GetReleaseName hr);
                              ArgStr (V1.GetTargetNamespace hr); ArgErr e]);;
                     mret None
                 | None =>
                     call (RecorderEvent hr EventTypeNormal ReleaseSynced
                             "managed release '%s' in namespace '%s' synchronized"
                             [ArgStr (V1.GetReleaseName hr);
                              ArgStr (V1.GetTargetNamespace hr)]);;
                     mret None
                 end
             end)
            (call (Unlock lockName))
      end
  end.

(** The function literal of [processNextWorkItem], with its deferred
    [Done]. *)
Definition processItem (c : Controller) (obj : QueueItem) : Prog (option error) :=
  deferring
    (match obj with
     | ForeignItem rendering =>
         call (QueueForget obj);;
         call (HandleError (Errorf "expected string in workqueue but got %#v"
                              [ArgStr rendering]));;
         mret None
     | KeyItem key =>
         err ← syncHandler c key;
         match err with
         | Some e =>
             mret (Some (Errorf "errored syncing HelmRelease '%s': %s"
                           [ArgStr key; ArgErr e]))
         | None => call (QueueForget obj);; mret None
         end
     end)
    (call (QueueDone obj)).

(** [processNextWorkItem()]: false once the queue is shut down. *)
Definition processNextWorkItem (c : Controller) : Prog bool :=
  n ← call QueueLen;
  call (SetQueueLength n);;
  '(obj, shutdown) ← call QueueGet;
  if (shutdown : bool) then mret false
  else
    err ← processItem c obj;
    match err with
    | Some e => call (HandleError e);; mret true
    | None => mret true
    end.

End Worker.

(** Whether a call is [Forget] of the given item. *)
Definition isForget (c : Call) : bool :=
  match c with
  | called op =>
      match op with
      | QueueForget _ => true
      | _ => false
      end
  end.

Definition isHandleError (c : Call) : bool :=
  match c with
  | called op =>
      match op with
      | HandleError _ => true
      | _ => false
      end
  end.

End Operator.

(** ** pkg/release, mark.go and label.go: labels and annotations set
    with kubectl *)

Module Marks.

(** [namespacedResourceMap] groups the resources of the objects by
    namespace; its code is outside the files at hand. *)
Class Namespaced : Type := {
  namespacedResourceMap : list Unstructured.t -> string -> gmap string (list string)
}.

(** The order in which a [range] statement visits a map is not
    specified: the [i]-th [range] of a function visits the entries in
    some order. *)
Class Range : Type := {
  rangeOver : nat -> gmap string (list string) -> list (string * list string);
  rangeOver_all : forall (i : nat) (m : gmap string (list string)),
    rangeOver i m ≡ₚ map_to_list m
}.

(** [exec.CommandContext(ctx, "kubectl", args...).CombinedOutput()]:
    the world answers the arguments with the output and the error. *)
Definition Kubectl (W : Type) : Type := list string -> W -> (string * option error) * W.

Section Commands.

Context `{Release.Manifests} `{Namespaced} `{Range} {W : Type} (kubectl : Kubectl W).

(** The body of a loop over the commands: a command is run, and its
    output becomes an error when it failed and wrote something.  The
    result is the errors collected, the world, and the commands run, in
    order.  (The log line before each command is left out.) *)
Fixpoint runEach (commands : list (list string)) (w : W)
  : list error * W * list (list string) :=
  match commands with
  | [] => ([], w, [])
  | args :: rest =>
      let '((output, err), w1) := kubectl args w in
      let errs :=
        match err with
        | Some _ => if (0 <? String.length output)%nat then [External output] else []
        | None => []
        end in
      let '(errs', w2, ran) := runEach rest w1 in
      (errs ++ errs', w2, args :: ran)
  end.

Definition targets (i : nat) (rel : Helm.Release) : list (string * list string) :=
  rangeOver i
    (namespacedResourceMap (Release.releaseManifestToUnstructured (Helm.Manifest rel))
       (Helm.Namespace rel)).

Definition asError (errs : list error) : option error :=
  match errs with
  | [] => None
  | _ :: _ => Some (errCollection errs)
  end.

(** *** mark.go *)

Definition labelArguments (hr : V1.HelmRelease) (target : string * list string)
  : list string :=
  let sp := V1.Spec hr in
  ["label"; "--overwrite"; "--namespace"; fst target] ++ snd target
  ++ (if negb (String.eqb (V1.AppId sp) "")
      then [Release.AppIdLabelKey +:+ "=" +:+ V1.AppId sp] else [])
  ++ (if negb (String.eqb (V1.ComponentId sp) "")
      then [Release.ComponentIdLabelKey +:+ "=" +:+ V1.ComponentId sp] else [])
  ++ (if V1.IstioEnabled sp
      then [Release.IstioEnableLabelKey +:+ "=" +:+ Release.IstioEnableLabelValue] else []).

Definition annotateArguments (hr : V1.HelmRelease) (target : string * list string)
  : list string :=
  ["annotate"; "--overwrite"; "--namespace"; fst target] ++ snd target
  ++ (if V1.LogCollect (V1.Spec hr)
      then [Release.LogCollectAnnotateKey +:+ "=" +:+ "true"] else []).

(** [markResources(hr, rel)]: the error, the world, and the commands
    run. *)
Definition markResources (hr : V1.HelmRelease) (rel : Helm.Release) (w : W)
  : option error * W * list (list string) :=
  let sp := V1.Spec hr in
  if String.eqb (V1.AppId sp) "" && String.eqb (V1.ComponentId sp) ""
     && negb (V1.IstioEnabled sp) && negb (V1.LogCollect sp)
  then (None, w, [])
  else
    let '(errs, w1, labelled) := runEach (map (labelArguments hr) (targets 0 rel)) w in
    let '(errs', w2, annotated) := runEach (map (annotateArguments hr) (targets 1 rel)) w1 in
    (asError (errs ++ errs'), w2, labelled ++ annotated).

(** *** label.go *)

(** The key of the application label, as label.go has it. *)
Definition AppIdLabelKey : string := "o.app.id".

Definition labelBoth (hr : V1.HelmRelease) (target : string * list string) : list string :=
  let sp := V1.Spec hr in
  ["label"; "--overwrite"; "--namespace"; fst target] ++ snd target
  ++ [AppIdLabelKey +:+ "=" +:+ V1.AppId sp;
      Release.ComponentIdLabelKey +:+ "=" +:+ V1.ComponentId sp]
  ++ (if V1.IstioEnabled sp then [Release.IstioEnableLabelKey +:+ "=" +:+ "enabled"] else []).

(** [labelResources(hr, rel)]. *)
Definition labelResources (hr : V1.HelmRelease) (rel : Helm.Release) (w : W)
  : option error * W * list (list string) :=
  let sp := V1.Spec hr in
  if String.eqb (V1.AppId sp) "" || String.eqb (V1.ComponentId sp) ""
  then (None, w, [])
  else
    let '(errs, w1, labelled) := runEach (map (labelBoth hr) (targets 0 rel)) w in
    (asError errs, w1, labelled).

End Commands.

End Marks.

(** ** Concrete resources, releases and worlds *)

Module Samples.

Import Release.

(** Accessors that read the fields as they are. *)
Definition plainAccessors : V1.Accessors :=
  {| V1.GetReleaseName := V1.ObjName;
     V1.GetTargetNamespace := V1.Namespace;
     V1.GetHelmVersion := fun hr d =>
       if String.eqb (V1.HelmVersion (V1.Spec hr)) "" then d
       else V1.HelmVersion (V1.Spec hr);
     V1.GetMaxHistory := fun _ => 10;
     V1.GetTimeout := fun _ => 300;
     V1.GetWait := fun _ => false;
     V1.GetReuseValues := fun _ => false;
     V1.ResourceID := fun hr => V1.Namespace hr +:+ ":helmrelease/" +:+ V1.ObjName hr;
     V1.GetIgnoreFailures := fun t => default false (V1.TestIgnoreFailures t);
     V1.GetTestTimeout := fun _ => 300;
     V1.GetCleanup := fun _ => false;
     V1.GetRollbackTimeout := fun _ => 300 |}.

(** Only a deployed release may be upgraded. *)
Definition deployedOnly : Helm.StatusAPI :=
  {| Helm.AllowsUpgrade := fun s => Helm.Status_eqb s Helm.StatusDeployed;
     Helm.StatusString := fun _ => "status";
     Helm.Diff := fun _ _ => "" |}.

Definition slashJoin : Chartsync.FilePath :=
  {| Chartsync.Join := fun a b => a +:+ "/" +:+ b |}.

Definition spec (helmVersion : string) (git : option V1.GitChartSource)
  (repo : option V1.RepoChartSource) (customize : option V1.Customize)
  (oss : option V1.Oss) (rollbackEnable : bool) : V1.HelmReleaseSpec :=
  {| V1.HelmVersion := helmVersion;
     V1.GitChartSource_ := git;
     V1.RepoChartSource_ := repo;
     V1.Customize_ := customize;
     V1.Oss_ := oss;
     V1.ReleaseName := "";
     V1.TargetNamespace := "";
     V1.Timeout := None;
     V1.MaxHistory := None;
     V1.ResetValues := None;
     V1.ForceUpgrade := false;
     V1.SkipCRDs := false;
     V1.Wait := None;
     V1.DisableOpenAPIValidation := false;
     V1.Test_ := {| V1.TestEnable := false; V1.TestIgnoreFailures := None;
                    V1.TestTimeout := None; V1.TestCleanup := None |};
     V1.Rollback_ := {| V1.RollbackEnable := rollbackEnable; V1.RollbackTimeout := None;
                        V1.RollbackWait := false; V1.RollbackDisableHooks := false;
                        V1.RollbackRecreate := false; V1.RollbackForce := false |};
     V1.AppId := "app-1";
     V1.ComponentId := "";
     V1.IstioEnabled := false;
     V1.LogCollect := true |}.

Definition resource (annotations : gmap string string) (generation observed : Z)
  (sp : V1.HelmReleaseSpec) : V1.HelmRelease :=
  {| V1.Namespace := "demo";
     V1.ObjName := "podinfo";
     V1.Generation := generation;
     V1.Annotations := annotations;
     V1.Spec := sp;
     V1.Status :=
       {| V1.ObservedGeneration := observed;
          V1.Phase := None;
          V1.LastAttemptedRevision := "1.0.0";
          V1.ReleaseStatus := "";
          V1.Conditions := [] |} |}.

Definition repoSource : V1.RepoChartSource :=
  {| V1.RepoURL := "https://charts.example.org"; V1.Name := "podinfo"; V1.Version := "1.0.0" |}.
Definition gitSource : V1.GitChartSource :=
  {| V1.GitURL := "git@example.org:charts"; V1.Ref := "master"; V1.Path := "charts/podinfo";
     V1.SkipDepUpdate := false |}.

(** A plain resource with a repository source, in sync or one
    generation behind. *)
Definition plainSpec : V1.HelmReleaseSpec := spec "" None (Some repoSource) None None true.
Definition syncedResource : V1.HelmRelease := resource ∅ 2 2 plainSpec.
Definition staleResource : V1.HelmRelease := resource ∅ 3 2 plainSpec.

(** A v3 resource that asks for migration. *)
Definition migratingResource : V1.HelmRelease :=
  resource {[ MigrateAnnotation := "true" ]} 1 0
    (spec "v3" None (Some repoSource) None None false).

(** A resource with both a git and a repository source. *)
Definition twoSourceResource : V1.HelmRelease :=
  resource ∅ 1 0 (spec "" (Some gitSource) (Some repoSource) None None false).
Definition noSourceResource : V1.HelmRelease :=
  resource ∅ 1 0 (spec "" None None None None false).

Definition deployed (version : Z) : Helm.Release :=
  {| Helm.Name := "podinfo"; Helm.Namespace := "demo"; Helm.Version := version;
     Helm.Info_ := {| Helm.InfoStatus := Helm.StatusDeployed |}; Helm.Manifest := "" |}.

Definition engine : Release :=
  {| helmClients := ["v2"; "v3"];
     config := {| ChartCache := "/tmp"; UpdateDeps := true; LogDiffs := false;
                  DefaultHelmVersion := "v2" |} |}.

Definition sampleChart (changed : bool) : chart :=
  {| chartPath := "/tmp/podinfo-1.0.0.tgz"; revision := "1.0.0"; changed := changed |}.

(** A world in which every call succeeds and finds nothing. *)
Definition quietAnswer {R : Type} (op : Op R) : R :=
  match op in Op T return T with
  | ClientGet _ _ _ => Ok None
  | ClientHistory _ _ _ => Ok []
  | ClientUpgradeFromPath _ _ _ _ _ => Ok None
  | ClientRollback _ _ _ => Ok None
  | ClientTest _ _ _ => None
  | ClientUninstall _ _ _ => None
  | ClientDependencyUpdate _ _ => None
  | ClientGetChartRevision _ _ => Ok "1.0.0"
  | V2ReleaseExists _ => Ok false
  | Convert _ _ => None
  | SetStatusPhase _ _ _ => tt
  | SetStatusPhaseWithRevision _ _ _ _ => tt
  | SetObservedGeneration _ _ _ => tt
  | HasRolledBack _ => false
  | ShouldRetryUpgrade _ => false
  | ObserveReleaseConditions _ => tt
  | managedByHelmRelease _ _ => (true, "", None)
  | annotateResources _ _ => None
  | composeValues _ _ => Ok ""
  | GetMirrorCopy _ => Ok ({| Dir := "/mirror" |}, "4f2a9c1")
  | ChangedFiles _ _ _ => []
  | Clean _ => None
  | GitChartSyncDelete _ => true
  | SyncMirror _ => tt
  | EnsureChartFetched _ _ _ => Ok ("/tmp/podinfo-1.0.0.tgz", false)
  | DownloadFile _ _ _ => Ok "/tmp/a2V5"
  | OsStat _ => None
  | OssNew _ _ _ => None
  | OssBucket _ => None
  | OssGetObjectToFile _ _ => None
  | ObsNew _ _ _ => None
  | ObsDownloadFile _ _ _ => None
  | ObsClose => tt
  | KlogError _ => tt
  | KlogErrorMessage _ => tt
  | KlogInfo _ => tt
  | HandleError _ => tt
  | BuildConfigFromFlags => None
  | DynamicNewForConfig => None
  | DynGet _ _ _ => Err (NotFound "not found")
  | DynDelete _ _ _ => None
  | WaitUntilGone _ _ _ => tt
  | QueueLen => 1
  | QueueGet => (KeyItem "demo/podinfo", false)
  | QueueDone _ => tt
  | QueueForget _ => tt
  | QueueAddRateLimited _ => tt
  | SetQueueLength _ => tt
  | Lock _ => None
  | Unlock _ => tt
  | ListerGet _ _ => Ok syncedResource
  | RecorderEvent _ _ _ _ _ => tt
  end.

Definition quiet : handler unit := fun R op w => (quietAnswer op, w).

(** A world with a deployed release at the given version, owned by the
    resource. *)
Definition withRelease (version : Z) : handler unit := fun R op w =>
  (match op in Op T return T with
   | ClientGet _ _ _ => Ok (Some (deployed version))
   | op' => quietAnswer op'
   end, w).

(** A world without a release, where looking for a v2 release fails. *)
Definition tillerDown : handler unit := fun R op w =>
  (match op in Op T return T with
   | V2ReleaseExists _ => Err (External "tiller unreachable")
   | op' => quietAnswer op'
   end, w).

(** A world without a release and with a v2 release of the same name. *)
Definition withV2Release : handler unit := fun R op w =>
  (match op in Op T return T with
   | V2ReleaseExists _ => Ok true
   | op' => quietAnswer op'
   end, w).

End Samples.

(** ** Running programs: general facts *)

Module ProgFacts.

Lemma exec_bind {W A B : Type} (h : handler W) (m : Prog A) (k : A -> Prog B) (w : W) :
  exec h (bind m k) w =
  match exec h m w with
  | (Returned a, w', calls) =>
      let '(o, w'', calls') := exec h (k a) w' in (o, w'', calls ++ calls')
  | (Panicked v, w', calls) => (Panicked v, w', calls)
  end.
Proof.
  revert w. induction m as [a | R op k' IH | v]; intros w; cbn.
  - destruct (exec h (k a) w) as [[o w'] calls]. reflexivity.
  - destruct (h R op w) as [r w1]. rewrite IH.
    destruct (exec h (k' r) w1) as [[[a | v] w2] c2]; [| reflexivity].
    destruct (exec h (k a) w2) as [[o w3] c3]. reflexivity.
  - reflexivity.
Qed.

Lemma bind_Ret_inv {A B : Type} (m : Prog A) (k : A -> Prog B) (b : B) :
  bind m k = Ret b -> exists a, m = Ret a /\ k a = Ret b.
Proof.
  destruct m as [a | R op k' | v]; cbn; intros Heq; try discriminate.
  exists a. split; [reflexivity | exact Heq].
Qed.

(** A deferred call that always returns: it is made last, whatever the
    body did. *)
Lemma exec_deferring_call {W A : Type} (h : handler W) (m : Prog A) (op : Op unit) :
  forall w : W,
    exec h (deferring m (Vis op Ret)) w =
    let '(o, w', calls) := exec h m w in
    (o, snd (h _ op w'), calls ++ [called op]).
Proof.
  induction m as [a | R' op' k IH | v]; intros w; cbn.
  - destruct (h _ op w) as [r w1]. reflexivity.
  - destruct (h R' op' w) as [r w1]. rewrite IH.
    destruct (exec h (k r) w1) as [[o w2] calls]. reflexivity.
  - destruct (h _ op w) as [r w1]. reflexivity.
Qed.

Lemma exec_call {W R : Type} (h : handler W) (op : Op R) (w : W) :
  exec h (call op) w = (Returned (fst (h R op w)), snd (h R op w), [called op]).
Proof. cbn. destruct (h R op w). reflexivity. Qed.

(** A program whose every run returns: no [Panic] node can be reached. *)
Inductive returns {A : Type} : Prog A -> Prop :=
| returns_Ret (a : A) : returns (Ret a)
| returns_Vis {R : Type} (op : Op R) (k : R -> Prog A) :
    (forall r, returns (k r)) -> returns (Vis op k).

Lemma returns_exec {W A : Type} (h : handler W) (m : Prog A) (w : W) :
  returns m -> exists a, outcomeOf h m w = Returned a.
Proof.
  intros Hr. revert w. induction Hr as [a | R op k _ IH]; intros w.
  - exists a. reflexivity.
  - unfold outcomeOf in *. cbn. destruct (h R op w) as [r w1].
    destruct (IH r w1) as [a Ha]. exists a.
    destruct (exec h (k r) w1) as [[o w2] c]. exact Ha.
Qed.

Lemma returns_bind {A B : Type} (m : Prog A) (k : A -> Prog B) :
  returns m -> (forall a, returns (k a)) -> returns (bind m k).
Proof.
  intros Hm Hk. induction Hm as [a | R op k' _ IH]; cbn.
  - apply Hk.
  - constructor. exact IH.
Qed.

(** Recovering turns every panic into a return of the handler's. *)
Lemma returns_recovering {A : Type} (m : Prog A) (f : string -> Prog A) :
  (forall v, returns (f v)) -> returns (recovering m f).
Proof.
  intros Hf. induction m as [a | R op k IH | v]; cbn.
  - constructor.
  - constructor. exact IH.
  - apply Hf.
Qed.

(** A program whose every run returns, with a value that satisfies [Q]. *)
Inductive returnsWith {A : Type} (Q : A -> Prop) : Prog A -> Prop :=
| returnsWith_Ret (a : A) : Q a -> returnsWith Q (Ret a)
| returnsWith_Vis {R : Type} (op : Op R) (k : R -> Prog A) :
    (forall r, returnsWith Q (k r)) -> returnsWith Q (Vis op k).

Lemma returnsWith_exec {W A : Type} (Q : A -> Prop) (h : handler W) (m : Prog A) (w : W) :
  returnsWith Q m -> exists a, outcomeOf h m w = Returned a /\ Q a.
Proof.
  intros Hr. revert w. induction Hr as [a Ha | R op k _ IH]; intros w.
  - exists a. split; [reflexivity | exact Ha].
  - unfold outcomeOf in *. cbn. destruct (h R op w) as [r w1].
    destruct (IH r w1) as (a & Ha & HQ). exists a.
    destruct (exec h (k r) w1) as [[o w2] c]. split; [exact Ha | exact HQ].
Qed.

Lemma returnsWith_bind {A B : Type} (Q : A -> Prop) (Q' : B -> Prop) (m : Prog A)
  (k : A -> Prog B) :
  returnsWith Q m -> (forall a, Q a -> returnsWith Q' (k a)) -> returnsWith Q' (bind m k).
Proof.
  intros Hm Hk. induction Hm as [a Ha | R op k' _ IH]; cbn.
  - apply Hk, Ha.
  - constructor. exact IH.
Qed.

Lemma returns_returnsWith {A : Type} (m : Prog A) :
  returns m -> returnsWith (fun _ => True) m.
Proof. induction 1; constructor; auto. Qed.

(** A program all of whose calls, in every run, satisfy [P]. *)
Inductive callsSatisfy {A : Type} (P : Call -> Prop) : Prog A -> Prop :=
| callsSatisfy_Ret (a : A) : callsSatisfy P (Ret a)
| callsSatisfy_Panic (v : string) : callsSatisfy P (Panic v)
| callsSatisfy_Vis {R : Type} (op : Op R) (k : R -> Prog A) :
    P (called op) -> (forall r, callsSatisfy P (k r)) -> callsSatisfy P (Vis op k).

Lemma callsSatisfy_exec {W A : Type} (P : Call -> Prop) (h : handler W) (m : Prog A)
  (w : W) :
  callsSatisfy P m -> Forall P (callsOf h m w).
Proof.
  intros Hm. revert w. unfold callsOf.
  induction Hm as [a | v | R op k Hop _ IH]; intros w; cbn.
  - constructor.
  - constructor.
  - destruct (h R op w) as [r w1]. specialize (IH r w1).
    destruct (exec h (k r) w1) as [[o w2] calls]. cbn in *.
    constructor; assumption.
Qed.

Lemma callsSatisfy_bind {A B : Type} (P : Call -> Prop) (m : Prog A) (k : A -> Prog B) :
  callsSatisfy P m -> (forall a, callsSatisfy P (k a)) -> callsSatisfy P (bind m k).
Proof.
  intros Hm Hk. induction Hm as [a | v | R op k' Hop _ IH]; cbn.
  - apply Hk.
  - constructor.
  - constructor; assumption.
Qed.

Lemma callsSatisfy_call {R : Type} (P : Call -> Prop) (op : Op R) :
  P (called op) -> callsSatisfy P (call op).
Proof. intros Hop. constructor; [exact Hop | intros r; constructor]. Qed.

Lemma callsSatisfy_recovering {A : Type} (P : Call -> Prop) (m : Prog A)
  (f : string -> Prog A) :
  callsSatisfy P m -> (forall v, callsSatisfy P (f v)) ->
  callsSatisfy P (recovering m f).
Proof.
  intros Hm Hf. induction Hm as [a | v | R op k Hop _ IH]; cbn.
  - constructor.
  - apply Hf.
  - constructor; assumption.
Qed.

Lemma callsSatisfy_deferring {A : Type} (P : Call -> Prop) (m : Prog A) (d : Prog unit) :
  callsSatisfy P m -> callsSatisfy P d -> callsSatisfy P (deferring m d).
Proof.
  intros Hm Hd. induction Hm as [a | v | R op k Hop _ IH]; cbn.
  - apply callsSatisfy_bind; [exact Hd | intros; constructor].
  - apply callsSatisfy_bind; [exact Hd | intros; constructor].
  - constructor; assumption.
Qed.

Lemma callsSatisfy_lift {A : Type} (P : Call -> Prop) (o : outcome A) :
  callsSatisfy P (lift o).
Proof. destruct o; constructor. Qed.

Lemma callsSatisfy_weaken {A : Type} (P Q : Call -> Prop) (m : Prog A) :
  (forall c, P c -> Q c) -> callsSatisfy P m -> callsSatisfy Q m.
Proof.
  intros HPQ Hm. induction Hm; constructor; auto.
Qed.

End ProgFacts.

(** ** Facts about the base64 decoder *)

Module Base64Facts.

Import Base64.

Lemma afterPadding_error (dbuf rest : list ascii) (si : Z) (out : list ascii) (e : error) :
  afterPadding dbuf rest si = (out, Some e) -> exists n, e = CorruptInputError n.
Proof.
  unfold afterPadding. destruct (skipNewlines rest si) as [rest' si'].
  destruct rest'; intros [= _ <-]. eexists. reflexivity.
Qed.

(** The decoder fails with a [CorruptInputError] only. *)
Lemma decodeFrom_error (enc : Encoding) (len : Z) (src : list ascii) :
  forall (dbuf : list ascii) (si : Z) (out : list ascii) (e : error),
    decodeFrom enc len dbuf src si = (out, Some e) -> exists n, e = CorruptInputError n.
Proof.
  induction src as [| c rest IH]; intros dbuf si out e; cbn.
  - destruct dbuf as [| d0 [| d1 dbuf]]; [discriminate | |].
    + intros [= _ <-]. eexists. reflexivity.
    + destruct (padChar enc); [| discriminate]. intros [= _ <-]. eexists. reflexivity.
  - destruct (decodeMap enc c) as [v |].
    + destruct dbuf as [| d0 [| d1 [| d2 [| d3 dbuf]]]]; try apply IH.
      destruct (decodeFrom enc len [] rest (si + 1)) as [out' err'] eqn:Hrec.
      intros [= _ ->]. apply (IH _ _ _ _ Hrec).
    + destruct (isNewline c); [apply IH |].
      destruct (negb (isPad enc c)); [intros [= _ <-]; eexists; reflexivity |].
      destruct dbuf as [| d0 [| d1 [| d2 dbuf]]].
      * intros [= _ <-]. eexists. reflexivity.
      * intros [= _ <-]. eexists. reflexivity.
      * destruct (skipNewlines rest (si + 1)) as [rest' si'].
        destruct rest' as [| c2 rest2]; [intros [= _ <-]; eexists; reflexivity |].
        destruct (isPad enc c2); [apply afterPadding_error |].
        intros [= _ <-]. eexists. reflexivity.
      * apply afterPadding_error.
Qed.

Lemma DecodeString_error (enc : Encoding) (s : string) (out : list ascii) (e : error) :
  DecodeString enc s = (out, Some e) -> exists n, e = CorruptInputError n.
Proof. apply decodeFrom_error. Qed.

(** Every 6-bit value is read back from the character that encodes it,
    in the URL-safe alphabet. *)
Lemma decodeMap_encodeChar (b0 b1 b2 b3 b4 b5 : bool) :
  decodeMap RawURLEncoding (encodeChar RawURLEncoding (Ascii b0 b1 b2 b3 b4 b5 false false))
  = Some (Ascii b0 b1 b2 b3 b4 b5 false false).
Proof. destruct b0, b1, b2, b3, b4, b5; vm_compute; reflexivity. Qed.

(** Lists, three elements at a time. *)
Lemma list_ind3 {A : Type} (P : list A -> Prop) :
  P [] -> (forall a, P [a]) -> (forall a b, P [a; b]) ->
  (forall a b c l, P l -> P (a :: b :: c :: l)) ->
  forall l, P l.
Proof.
  intros H0 H1 H2 H3.
  fix IH 1. intros [| a [| b [| c l]]].
  - exact H0.
  - apply H1.
  - apply H2.
  - apply H3, IH.
Qed.

(** Decoding what the unpadded URL-safe encoding wrote gives the bytes
    back, without error. *)
Lemma decodeFrom_Encode (src : list ascii) :
  forall (len si : Z),
    decodeFrom RawURLEncoding len [] (Encode RawURLEncoding src) si = (src, None).
Proof.
  induction src as [| a | a b | a b c rest IH] using list_ind3; intros len si.
  - reflexivity.
  - destruct a as [a0 a1 a2 a3 a4 a5 a6 a7].
    cbn [Encode sextet0 sextet1 zero padding padChar RawURLEncoding app repeat decodeFrom].
    repeat (rewrite decodeMap_encodeChar; cbn [app decodeFrom]).
    reflexivity.
  - destruct a as [a0 a1 a2 a3 a4 a5 a6 a7], b as [b0 b1 b2 b3 b4 b5 b6 b7].
    cbn [Encode sextet0 sextet1 sextet2 zero padding padChar RawURLEncoding app repeat
         decodeFrom].
    repeat (rewrite decodeMap_encodeChar; cbn [app decodeFrom]).
    reflexivity.
  - destruct a as [a0 a1 a2 a3 a4 a5 a6 a7], b as [b0 b1 b2 b3 b4 b5 b6 b7],
      c as [c0 c1 c2 c3 c4 c5 c6 c7].
    cbn [Encode sextet0 sextet1 sextet2 sextet3 decodeFrom].
    repeat (rewrite decodeMap_encodeChar; cbn [app decodeFrom]).
    rewrite IH. reflexivity.
Qed.

Lemma DecodeString_EncodeToString (src : list ascii) :
  DecodeString RawURLEncoding (EncodeToString RawURLEncoding src) = (src, None).
Proof.
  unfold DecodeString, EncodeToString.
  rewrite list_ascii_of_string_of_list_ascii. apply decodeFrom_Encode.
Qed.

End Base64Facts.

(** ** The sync decision machine *)

Module SyncDecision.

Import Release ProgFacts.

Section Decision.

Context `{V1.Accessors} `{Helm.StatusAPI}.

(** C1: for a resource whose current Helm release exists, is owned by
    the resource and has a status that allows an upgrade,
    [determineSyncAction] returns [Upgrade] when the observed generation
    is behind the generation; otherwise, when no rollback was observed,
    it returns [Upgrade] if [chart.changed] and [DryRunCompare] if not.
    In each case the current release is returned with a nil error. *)
Theorem determineSyncAction_existing_release {W : Type} (h : handler W) (w w1 w2 : W)
  (r : Release) (client : Client) (hr : V1.HelmRelease) (c : chart)
  (curRel : Helm.Release) (antecedent : string) :
  h _ (ClientGet client (V1.GetReleaseName hr) (getOptions hr)) w = (Ok (Some curRel), w1) ->
  h _ (managedByHelmRelease curRel hr) w1 = ((true, antecedent, None), w2) ->
  Helm.AllowsUpgrade (Helm.InfoStatus (Helm.Info_ curRel)) = true ->
  (V1.ObservedGeneration (V1.Status hr) < V1.Generation hr ->
   outcomeOf h (determineSyncAction r client hr c) w
   = Returned (UpgradeAction, Some curRel, None))
  /\ (V1.Generation hr <= V1.ObservedGeneration (V1.Status hr) ->
      fst (h _ (HasRolledBack hr) w2) = false ->
      outcomeOf h (determineSyncAction r client hr c) w
      = Returned (if changed c then UpgradeAction else DryRunCompareAction,
                  Some curRel, None)).
Proof.
  intros Hget Hown Hallow. unfold outcomeOf, determineSyncAction.
  cbn. rewrite Hget. cbn. rewrite Hown. cbn. rewrite Hallow. cbn.
  unfold HasSynced. split.
  - intros Hlt. apply Z.ltb_lt in Hlt. rewrite Hlt. reflexivity.
  - intros Hge Hrb. apply Z.ltb_ge in Hge. rewrite Hge. cbn.
    destruct (h bool (HasRolledBack hr) w2) as [rb w3]. cbn in Hrb. subst rb.
    destruct (changed c); reflexivity.
Qed.

(** The decision when there is no current release. *)
Definition migratable (r : Release) (hr : V1.HelmRelease) : Prop :=
  is_Some (V1.Annotations hr !! MigrateAnnotation)
  /\ V1.GetHelmVersion hr (DefaultHelmVersion (config r)) = V1.HelmV3.

(** C2, as the code has it: when there is no current release,
    [determineSyncAction] returns [Install] unless the resource carries
    the migrate annotation and its effective Helm version is v3; then
    the converter is asked whether a v2 release of that name exists, and
    the action is [Migrate] if it says yes, [Install] if it says no, and
    [Skip] with an error if the question fails. *)
Theorem determineSyncAction_no_release {W : Type} (h : handler W) (w w1 : W)
  (r : Release) (client : Client) (hr : V1.HelmRelease) (c : chart) :
  h _ (ClientGet client (V1.GetReleaseName hr) (getOptions hr)) w = (Ok None, w1) ->
  (~ migratable r hr ->
   outcomeOf h (determineSyncAction r client hr c) w = Returned (InstallAction, None, None))
  /\ (migratable r hr ->
      outcomeOf h (determineSyncAction r client hr c) w =
      match fst (h _ (V2ReleaseExists (V1.GetReleaseName hr)) w1) with
      | Ok true => Returned (MigrateAction, None, None)
      | Ok false => Returned (InstallAction, None, None)
      | Err e =>
          Returned (SkipAction, None,
                    Some (Errorf "failed to retrieve Helm v2 release while attempting migration: %w"
                            [ArgErr e]))
      end).
Proof.
  intros Hget. unfold outcomeOf, determineSyncAction, migratable. cbn. rewrite Hget. cbn.
  destruct (V1.Annotations hr !! MigrateAnnotation) as [v |] eqn:Hann.
  - destruct (String.eqb_spec (V1.GetHelmVersion hr (DefaultHelmVersion (config r))) V1.HelmV3)
      as [Hv | Hv].
    + split.
      * intros Hn. exfalso. apply Hn. split; [eexists; reflexivity | exact Hv].
      * intros _. cbn.
        destruct (h _ (V2ReleaseExists (V1.GetReleaseName hr)) w1) as [[[] | e] w2];
          reflexivity.
    + split; [reflexivity |]. intros [_ Hv']. contradiction.
  - split; [reflexivity |]. intros [[v Hv] _]. discriminate.
Qed.

End Decision.

(** C1 at two resources, one a generation behind and one in sync, with a
    deployed release at version 4. *)
Lemma determineSyncAction_existing_release_witness :
  outcomeOf (Samples.withRelease 4)
    (@determineSyncAction Samples.plainAccessors Samples.deployedOnly Samples.engine "v2"
       Samples.staleResource (Samples.sampleChart false)) tt
  = Returned (UpgradeAction, Some (Samples.deployed 4), None)
  /\ outcomeOf (Samples.withRelease 4)
       (@determineSyncAction Samples.plainAccessors Samples.deployedOnly Samples.engine "v2"
          Samples.syncedResource (Samples.sampleChart false)) tt
     = Returned (DryRunCompareAction, Some (Samples.deployed 4), None)
  /\ outcomeOf (Samples.withRelease 4)
       (@determineSyncAction Samples.plainAccessors Samples.deployedOnly Samples.engine "v2"
          Samples.syncedResource (Samples.sampleChart true)) tt
     = Returned (UpgradeAction, Some (Samples.deployed 4), None).
Proof.
  split; [| split].
  - apply (@determineSyncAction_existing_release Samples.plainAccessors Samples.deployedOnly
             unit (Samples.withRelease 4) tt tt tt Samples.engine "v2" Samples.staleResource
             (Samples.sampleChart false) (Samples.deployed 4) "");
      [reflexivity | reflexivity | reflexivity | cbn; lia].
  - apply (@determineSyncAction_existing_release Samples.plainAccessors Samples.deployedOnly
             unit (Samples.withRelease 4) tt tt tt Samples.engine "v2" Samples.syncedResource
             (Samples.sampleChart false) (Samples.deployed 4) "");
      [reflexivity | reflexivity | reflexivity | cbn; lia | reflexivity].
  - apply (@determineSyncAction_existing_release Samples.plainAccessors Samples.deployedOnly
             unit (Samples.withRelease 4) tt tt tt Samples.engine "v2" Samples.syncedResource
             (Samples.sampleChart true) (Samples.deployed 4) "");
      [reflexivity | reflexivity | reflexivity | cbn; lia | reflexivity].
Defined.

(** C2, as stated, fails: the resource carries the migrate annotation,
    its Helm version is v3 and no current release exists, yet the action
    is neither [Migrate] nor [Install], because the converter could not
    be asked. *)
Lemma determineSyncAction_lookup_failure_skips :
  fst (Samples.tillerDown _
         (ClientGet "v3" (V1.ObjName Samples.migratingResource)
            (@getOptions Samples.plainAccessors Samples.migratingResource)) tt) = Ok None
  /\ outcomeOf Samples.tillerDown
       (@determineSyncAction Samples.plainAccessors Samples.deployedOnly Samples.engine "v3"
          Samples.migratingResource (Samples.sampleChart false)) tt
     = Returned (SkipAction, None,
                 Some (Errorf "failed to retrieve Helm v2 release while attempting migration: %w"
                         [ArgErr (External "tiller unreachable")]))
  /\ SkipAction <> MigrateAction /\ SkipAction <> InstallAction.
Proof. repeat split; try reflexivity; discriminate. Qed.

(** The amended C2 at three worlds without a current release: a v2
    release exists, none exists, and the lookup fails. *)
Lemma determineSyncAction_no_release_witness :
  outcomeOf Samples.withV2Release
    (@determineSyncAction Samples.plainAccessors Samples.deployedOnly Samples.engine "v3"
       Samples.migratingResource (Samples.sampleChart false)) tt
  = Returned (MigrateAction, None, None)
  /\ outcomeOf Samples.quiet
       (@determineSyncAction Samples.plainAccessors Samples.deployedOnly Samples.engine "v2"
          Samples.staleResource (Samples.sampleChart false)) tt
     = Returned (InstallAction, None, None).
Proof.
  split.
  - apply (@determineSyncAction_no_release Samples.plainAccessors Samples.deployedOnly
             unit Samples.withV2Release tt tt Samples.engine "v3" Samples.migratingResource
             (Samples.sampleChart false)); [reflexivity |].
    split; [eexists; reflexivity | reflexivity].
  - apply (proj1 (@determineSyncAction_no_release Samples.plainAccessors Samples.deployedOnly
             unit Samples.quiet tt tt Samples.engine "v2" Samples.staleResource
             (Samples.sampleChart false) eq_refl)).
    intros [[v Hv] _]. discriminate.
Defined.

End SyncDecision.

(** ** The action loop *)

Module ActionLoop.

Import Release ProgFacts.

(** Whether a call is the Helm rollback. *)
Definition isRollback (c : Call) : bool :=
  match c with
  | called op =>
      match op with
      | ClientRollback _ _ _ => true
      | _ => false
      end
  end.

(** The longest chain of transitions that can start at an action. *)
Definition rank (a : action) : nat :=
  match a with
  | AnnotateAction | UninstallAction | SkipAction => 1
  | RollbackAction => 2
  | TestAction => 3
  | InstallAction | UpgradeAction => 4
  | DryRunCompareAction | MigrateAction => 5
  end.

Ltac answer h :=
  match goal with
  | |- context [h ?R ?op ?w] => destruct (h R op w) as [? ?] eqn:?
  end.

Ltac cases :=
  match goal with
  | |- context [match ?x with _ => _ end] => is_var x; destruct x eqn:?
  | |- context [match ?x with _ => _ end] =>
      lazymatch x with
      | context [exec] => fail
      | _ => destruct x eqn:?
      end
  end.

Ltac explore h := repeat (first [answer h | cases]; cbn).

Section Loop.

Context `{V1.Accessors} `{Helm.StatusAPI}.

Variables (r : Release) (client : Client) (hr : V1.HelmRelease)
  (curRel : option Helm.Release) (c : chart) (values : string).

(** One pass and the rest of the loop. *)
Lemma exec_loop_S {W : Type} (h : handler W) (w : W) (n : nat) (a : action)
  (st : loopState) :
  exec h (loop (S n) r client hr curRel c values a st) w =
  match exec h (step r client hr curRel c values a st) w with
  | (Returned (Goto a', st'), w', calls) =>
      let '(o, w'', calls') := exec h (loop n r client hr curRel c values a' st') w' in
      (o, w'', calls ++ calls')
  | (Returned (Leave, st'), w', calls) => (Returned (Some st'), w', calls)
  | (Panicked v, w', calls) => (Panicked v, w', calls)
  end.
Proof.
  change (loop (S n) r client hr curRel c values a st)
    with (bind (step r client hr curRel c values a st)
            (fun '(t, st') =>
               match t with
               | Goto a' => loop n r client hr curRel c values a' st'
               | Leave => mret (Some st')
               end)).
  rewrite exec_bind.
  destruct (exec h (step r client hr curRel c values a st) w) as [[[[t st'] | v] w'] calls];
    [| reflexivity].
  destruct t as [a' |]; [reflexivity |].
  cbn. rewrite app_nil_r. reflexivity.
Qed.

(** Every transition goes to an action of lower rank. *)
Lemma step_rank {W : Type} (h : handler W) (w : W) (a a' : action) (st st' : loopState) :
  outcomeOf h (step r client hr curRel c values a st) w = Returned (Goto a', st') ->
  (rank a' < rank a)%nat.
Proof.
  unfold outcomeOf.
  destruct a; cbn; explore h; intros Hs; try discriminate;
    injection Hs as <- _; cbn; lia.
Qed.

(** An action panics only on a nil release. *)
Lemma step_panic {W : Type} (h : handler W) (w : W) (a : action) (st : loopState)
  (v : string) :
  outcomeOf h (step r client hr curRel c values a st) w = Panicked v ->
  v = nilDereference.
Proof.
  unfold outcomeOf.
  destruct a; cbn; explore h; intros Hs; try discriminate;
    injection Hs as <-; reflexivity.
Qed.

(** The loop ends: with as many passes as the rank of the action it
    starts at, it never runs out of passes, and it panics only on a nil
    release. *)
Lemma loop_ends {W : Type} (h : handler W) (n : nat) :
  forall (a : action) (st : loopState) (w : W),
    (rank a <= n)%nat ->
    (exists st', outcomeOf h (loop n r client hr curRel c values a st) w = Returned (Some st'))
    \/ outcomeOf h (loop n r client hr curRel c values a st) w = Panicked nilDereference.
Proof.
  induction n as [| n IH]; intros a st w Hr.
  - destruct a; cbn in Hr; lia.
  - unfold outcomeOf. rewrite exec_loop_S.
    pose proof (fun a' st' => step_rank h w a a' st st') as Hstep.
    pose proof (step_panic h w a st) as Hpanic. unfold outcomeOf in Hstep, Hpanic.
    destruct (exec h (step r client hr curRel c values a st) w)
      as [[[[[a' |] st'] | v] w'] calls]; cbn.
    + specialize (Hstep a' st' eq_refl).
      specialize (IH a' st' w' ltac:(lia)). unfold outcomeOf in IH.
      destruct (exec h (loop n r client hr curRel c values a' st') w') as [[o w''] calls'].
      exact IH.
    + left. eexists. reflexivity.
    + right. rewrite (Hpanic v eq_refl). reflexivity.
Qed.

(** [run] returns or panics on a nil release: the passes it is given
    are enough for every action. *)
Lemma run_ends {W : Type} (h : handler W) (w : W) (a : action) :
  (exists err, outcomeOf h (run r client a hr curRel c values) w = Returned err)
  \/ outcomeOf h (run r client a hr curRel c values) w = Panicked nilDereference.
Proof.
  unfold outcomeOf, run.
  change (exec h _ w) with
    (exec h (bind (loop passes r client hr curRel c values a {| newRel := None; errs := [] |})
               (fun st => match st with
                          | Some st =>
                              mret (match errs st with
                                    | [] => None
                                    | _ :: _ => Some (errCollection (errs st))
                                    end)
                          | None => Panic "unreachable"
                          end)) w).
  rewrite exec_bind.
  destruct (loop_ends h passes a {| newRel := None; errs := [] |} w) as [[st' Hl] | Hl];
    [destruct a; cbn; unfold passes; lia | |]; unfold outcomeOf in Hl;
    destruct (exec h (loop passes r client hr curRel c values a _) w) as [[o w'] calls];
    cbn in Hl; subst o; cbn.
  - left. eexists. reflexivity.
  - right. reflexivity.
Qed.

(** The run of the loop that has made the calls [first], stands in the
    world [w'] and goes on with the action [next] in the state [st']:
    the pass that follows is the pass of [next], and the loop goes on
    from there as that pass says. *)
Definition goesOnWith {W : Type} (h : handler W) (n : nat) (first : list Call) (w' : W)
  (next : action) (st' : loopState) : outcome (option loopState) * W * list Call :=
  match exec h (step r client hr curRel c values next st') w' with
  | (Returned (Goto a'', st''), w'', calls) =>
      let '(o, w3, rest) := exec h (loop n r client hr curRel c values a'' st'') w'' in
      (o, w3, first ++ calls ++ rest)
  | (Returned (Leave, st''), w'', calls) => (Returned (Some st''), w'', first ++ calls)
  | (Panicked v, w'', calls) => (Panicked v, w'', first ++ calls)
  end.

(** Two passes of the loop, when the first one goes on. *)
Lemma exec_loop_goesOnWith {W : Type} (h : handler W) (w w' : W) (n : nat) (a next : action)
  (st st' : loopState) (first : list Call) :
  exec h (step r client hr curRel c values a st) w = (Returned (Goto next, st'), w', first) ->
  exec h (loop (S (S n)) r client hr curRel c values a st) w
  = goesOnWith h n first w' next st'.
Proof.
  intros Hstep. unfold goesOnWith. rewrite exec_loop_S, Hstep. cbv zeta.
  rewrite exec_loop_S.
  destruct (exec h (step r client hr curRel c values next st') w')
    as [[[[[a'' |] st''] | v] w''] calls]; try reflexivity.
  destruct (exec h (loop n r client hr curRel c values a'' st'') w'') as [[o w3] rest].
  reflexivity.
Qed.

(** The call that the pass of an action opens with, for the actions
    that follow [Install] and [Upgrade]: [Uninstall] asks Helm to
    uninstall; [Rollback] asks Helm for the latest release when
    rollbacks are enabled, and makes no call otherwise; [Test] reports
    the phase [Testing] when tests are enabled, and the phase
    [Succeeded] with the revision of the chart otherwise. *)
Definition opens (next : action) : option Call :=
  match next with
  | UninstallAction =>
      Some (called (ClientUninstall client (V1.GetReleaseName hr)
                      {| Helm.UninstallNamespace := V1.GetTargetNamespace hr;
                         Helm.KeepHistory := false;
                         Helm.UninstallTimeout := V1.GetTimeout hr |}))
  | RollbackAction =>
      if V1.RollbackEnable (V1.Rollback_ (V1.Spec hr))
      then Some (called (ClientGet client (V1.GetReleaseName hr) (getOptions hr)))
      else None
  | TestAction =>
      Some (if V1.TestEnable (V1.Test_ (V1.Spec hr))
            then called (SetStatusPhase (V1.Namespace hr) hr V1.HelmReleasePhaseTesting)
            else called (SetStatusPhaseWithRevision (V1.Namespace hr) hr
                           V1.HelmReleasePhaseSucceeded (revision c)))
  | _ => None
  end.

Lemma goesOnWith_opens {W : Type} (h : handler W) (n : nat) (c1 c2 c3 : Call) (w' : W)
  (next : action) (st' : loopState) :
  next = UninstallAction \/ next = RollbackAction \/ next = TestAction ->
  snd (goesOnWith h n [c1; c2; c3] w' next st') !! 3%nat = opens next.
Proof.
  unfold goesOnWith, opens.
  intros [-> | [-> | ->]]; cbn;
    repeat (first
              [ answer h
              | match goal with
                | |- context [exec h (loop ?m ?a1 ?a2 ?a3 ?a4 ?a5 ?a6 ?a7 ?a8) ?w0] =>
                    destruct (exec h (loop m a1 a2 a3 a4 a5 a6 a7 a8) w0) as [[? ?] ?]
                end
              | cases ]; cbn);
    reflexivity.
Qed.

(** What the loop does at [Install] or [Upgrade], given the answer of
    the Helm call that the action makes under the options [opts] after
    reporting the phase [p].  On an error the pass reports the phase
    [DeployFailed], the error (wrapped in [msg]) is appended, no release
    is kept, and the loop goes on with [onError]; on success the pass
    reports the phase [Deployed], the new release is kept, no error is
    added, and the loop goes on with [Test].  In both cases the run of
    the loop is the three calls of the pass followed by the pass of the
    next action and what comes after it, so that the fourth call of the
    loop is the one that the next action opens with. *)
Definition helmCallTransitions {W : Type} (h : handler W) (w : W) (st : loopState)
  (n : nat) (a : action) (p : V1.HelmReleasePhase) (opts : Helm.UpgradeOptions)
  (msg : string) (onError : action) : Prop :=
  let reported := SetStatusPhaseWithRevision (V1.Namespace hr) hr p (revision c) in
  let helmCall :=
    ClientUpgradeFromPath client (chartPath c) (V1.GetReleaseName hr) values opts in
  let w1 := snd (h _ reported w) in
  let run := exec h (loop (S (S n)) r client hr curRel c values a st) w in
  match h _ helmCall w1 with
  | (Err e, w2) =>
      let st' := {| newRel := None; errs := errs st ++ [Errorf msg [ArgErr e]] |} in
      let failed := SetStatusPhase (V1.Namespace hr) hr V1.HelmReleasePhaseDeployFailed in
      let w3 := snd (h _ failed w2) in
      let pass := [called reported; called helmCall; called failed] in
      exec h (step r client hr curRel c values a st) w = (Returned (Goto onError, st'), w3, pass)
      /\ run = goesOnWith h n pass w3 onError st'
      /\ snd run !! 3%nat = opens onError
  | (Ok rel, w2) =>
      let st' := {| newRel := rel; errs := errs st |} in
      let deployed := SetStatusPhase (V1.Namespace hr) hr V1.HelmReleasePhaseDeployed in
      let w3 := snd (h _ deployed w2) in
      let pass := [called reported; called helmCall; called deployed] in
      exec h (step r client hr curRel c values a st) w = (Returned (Goto TestAction, st'), w3, pass)
      /\ run = goesOnWith h n pass w3 TestAction st'
      /\ snd run !! 3%nat = opens TestAction
  end.

(** C3: in the action loop, when the Helm call of the [Install] action
    fails, the error is appended and the loop transitions to
    [Uninstall], and on success it transitions to [Test]; when the Helm
    call of the [Upgrade] action fails, the error is appended and the
    loop transitions to [Rollback], and on success it transitions to
    [Test].  The transition is taken: the calls of the loop are those
    of the pass, then those of the pass of the next action, whose first
    call is the fourth of the loop. *)
Theorem install_upgrade_transitions {W : Type} (h : handler W) (w : W) (st : loopState)
  (n : nat) :
  helmCallTransitions h w st n InstallAction V1.HelmReleasePhaseInstalling
    (installOptions hr) "installation failed: %w" UninstallAction
  /\ helmCallTransitions h w st n UpgradeAction V1.HelmReleasePhaseUpgrading
       (upgradeOptions hr) "upgrade failed: %w" RollbackAction.
Proof.
  assert (Hpass : forall a a' st' w' c1 c2 c3,
             a' = UninstallAction \/ a' = RollbackAction \/ a' = TestAction ->
             exec h (step r client hr curRel c values a st) w
             = (Returned (Goto a', st'), w', [c1; c2; c3]) ->
             exec h (step r client hr curRel c values a st) w
             = (Returned (Goto a', st'), w', [c1; c2; c3])
             /\ exec h (loop (S (S n)) r client hr curRel c values a st) w
                = goesOnWith h n [c1; c2; c3] w' a' st'
             /\ snd (exec h (loop (S (S n)) r client hr curRel c values a st) w) !! 3%nat
                = opens a').
  { intros a a' st' w' c1 c2 c3 Hnext Hstep. split; [exact Hstep |].
    rewrite (exec_loop_goesOnWith h w w' n a a' st st' _ Hstep).
    split; [reflexivity | apply goesOnWith_opens, Hnext]. }
  unfold helmCallTransitions. cbv zeta. split.
  - destruct (h _ (SetStatusPhaseWithRevision _ _ _ _) w) as [u w1] eqn:Hreported.
    cbn [snd].
    destruct (h _ (ClientUpgradeFromPath _ _ _ _ _) w1) as [[rel | e] w2] eqn:Hcall.
    + apply Hpass; [tauto |]. cbn. rewrite Hreported. cbn. rewrite Hcall. cbn.
      destruct (h _ (SetStatusPhase _ _ _) w2) as [u' w3]. reflexivity.
    + apply Hpass; [tauto |]. cbn. rewrite Hreported. cbn. rewrite Hcall. cbn.
      destruct (h _ (SetStatusPhase _ _ _) w2) as [u' w3]. reflexivity.
  - destruct (h _ (SetStatusPhaseWithRevision _ _ _ _) w) as [u w1] eqn:Hreported.
    cbn [snd].
    destruct (h _ (ClientUpgradeFromPath _ _ _ _ _) w1) as [[rel | e] w2] eqn:Hcall.
    + apply Hpass; [tauto |]. cbn. rewrite Hreported. cbn. rewrite Hcall. cbn.
      destruct (h _ (SetStatusPhase _ _ _) w2) as [u' w3]. reflexivity.
    + apply Hpass; [tauto |]. cbn. rewrite Hreported. cbn. rewrite Hcall. cbn.
      destruct (h _ (SetStatusPhase _ _ _) w2) as [u' w3]. reflexivity.
Qed.

(** Whether the [Rollback] action may roll back: rollbacks are enabled
    and the latest release, as the client answers in [w], is strictly
    newer than the current one. *)
Definition rollbackDue {W : Type} (h : handler W) (w : W) : Prop :=
  V1.RollbackEnable (V1.Rollback_ (V1.Spec hr)) = true
  /\ exists cur latest : Helm.Release,
       curRel = Some cur
       /\ fst (h _ (ClientGet client (V1.GetReleaseName hr) (getOptions hr)) w)
          = Ok (Some latest)
       /\ Helm.Version cur < Helm.Version latest.

(** The calls of the [Rollback] action when it rolls back, up to the
    Helm call. *)
Definition rollbackCalls : list Call :=
  [called (ClientGet client (V1.GetReleaseName hr) (getOptions hr));
   called (SetStatusPhase (V1.Namespace hr) hr V1.HelmReleasePhaseRollingBack);
   called (ClientRollback client (V1.GetReleaseName hr) (rollbackOptions hr))].

(** The pass through [Rollback]: whether it calls Helm's rollback, and
    what it gives when it does. *)
Lemma rollback_pass {W : Type} (h : handler W) (w : W) (st : loopState) :
  let pass := exec h (step r client hr curRel c values RollbackAction st) w in
  (existsb isRollback (snd pass) = true <-> rollbackDue h w)
  /\ (rollbackDue h w ->
      let w1 := snd (h _ (ClientGet client (V1.GetReleaseName hr) (getOptions hr)) w) in
      let w2 := snd (h _ (SetStatusPhase (V1.Namespace hr) hr V1.HelmReleasePhaseRollingBack) w1) in
      match h _ (ClientRollback client (V1.GetReleaseName hr) (rollbackOptions hr)) w2 with
      | (Ok rel, w3) =>
          let rolledBack :=
            SetStatusPhase (V1.Namespace hr) hr V1.HelmReleasePhaseRolledBack in
          pass = (Returned (Goto AnnotateAction, {| newRel := rel; errs := errs st |}),
                  snd (h _ rolledBack w3), rollbackCalls ++ [called rolledBack])
      | (Err e, w3) =>
          let failed :=
            SetStatusPhase (V1.Namespace hr) hr V1.HelmReleasePhaseRollbackFailed in
          pass = (Returned (Leave,
                            {| newRel := None;
                               errs := errs st ++ [Errorf "rollback failed: %w" [ArgErr e]] |}),
                  snd (h _ failed w3), rollbackCalls ++ [called failed])
      end).
Proof.
  cbn zeta. unfold rollbackDue, rollbackCalls. cbn.
  destruct (V1.RollbackEnable (V1.Rollback_ (V1.Spec hr))) eqn:Hen; cbn.
  2: { split.
       - split; [discriminate | intros [Hf _]; discriminate].
       - intros [Hf _]. discriminate. }
  destruct (h _ (ClientGet client (V1.GetReleaseName hr) (getOptions hr)) w)
    as [[latestRel | e] w1]; cbn.
  2: { split.
       - split; [discriminate | intros [_ (cur & latest & _ & Hg & _)]; discriminate].
       - intros [_ (cur & latest & _ & Hg & _)]. discriminate. }
  destruct curRel as [cur |], latestRel as [latest |]; cbn;
    try (split;
         [split; [discriminate | intros [_ (cur' & latest' & Hc & Hg & _)]; discriminate]
         | intros [_ (cur' & latest' & Hc & Hg & _)]; discriminate]).
  destruct (Z.ltb_spec (Helm.Version cur) (Helm.Version latest)) as [Hlt | Hge]; cbn.
  2: { split.
       - split; [discriminate |].
         intros [_ (cur' & latest' & Hc & Hg & Hlt)].
         injection Hc as <-. injection Hg as <-. lia.
       - intros [_ (cur' & latest' & Hc & Hg & Hlt)].
         injection Hc as <-. injection Hg as <-. lia. }
  destruct (h _ (SetStatusPhase (V1.Namespace hr) hr V1.HelmReleasePhaseRollingBack) w1)
    as [u w2]; cbn.
  destruct (h _ (ClientRollback client (V1.GetReleaseName hr) (rollbackOptions hr)) w2)
    as [[rel | e] w3]; cbn.
  - destruct (h _ (SetStatusPhase (V1.Namespace hr) hr V1.HelmReleasePhaseRolledBack) w3)
      as [u' w4]; cbn.
    split; [| reflexivity].
    split; [| reflexivity].
    intros _. split; [reflexivity |]. exists cur, latest. repeat split; assumption.
  - destruct (h _ (SetStatusPhase (V1.Namespace hr) hr V1.HelmReleasePhaseRollbackFailed) w3)
      as [u' w4]; cbn.
    split; [| reflexivity].
    split; [| reflexivity].
    intros _. split; [reflexivity |]. exists cur, latest. repeat split; assumption.
Qed.

(** The [Rollback] pass goes on to another action only after it has
    called Helm's rollback. *)
Lemma rollback_goes_on {W : Type} (h : handler W) (w : W) (st st' : loopState)
  (a' : action) :
  outcomeOf h (step r client hr curRel c values RollbackAction st) w
  = Returned (Goto a', st') ->
  existsb isRollback (callsOf h (step r client hr curRel c values RollbackAction st) w) = true.
Proof.
  unfold outcomeOf, callsOf. cbn. explore h; intros Hs; try discriminate; reflexivity.
Qed.

(** C7: in the action loop, the [Rollback] action performs a rollback
    only when [spec.rollback.enable] is true and the latest release
    version is strictly greater than [curRel.version] (and then it
    does): this holds of the pass through the action and of the whole
    run of the loop from it.  On a successful rollback the loop
    transitions to [Annotate]: after the phase [RolledBack] it
    annotates the resources of the release that the rollback gave, and
    ends there, no error added.  On a rollback failure it reports the
    phase [RollbackFailed], appends the error, and the loop ends there,
    with no further action and no further call. *)
Theorem rollback_action {W : Type} (h : handler W) (w : W) (st : loopState) (n : nat) :
  (existsb isRollback (callsOf h (step r client hr curRel c values RollbackAction st) w) = true
   <-> rollbackDue h w)
  /\ (existsb isRollback
        (callsOf h (loop (S (S n)) r client hr curRel c values RollbackAction st) w) = true
      <-> rollbackDue h w)
  /\ (rollbackDue h w ->
      let w1 := snd (h _ (ClientGet client (V1.GetReleaseName hr) (getOptions hr)) w) in
      let w2 := snd (h _ (SetStatusPhase (V1.Namespace hr) hr V1.HelmReleasePhaseRollingBack) w1) in
      match h _ (ClientRollback client (V1.GetReleaseName hr) (rollbackOptions hr)) w2 with
      | (Ok rel, w3) =>
          let rolledBack :=
            SetStatusPhase (V1.Namespace hr) hr V1.HelmReleasePhaseRolledBack in
          let marks := annotateResources rel (V1.ResourceID hr) in
          exec h (loop (S (S n)) r client hr curRel c values RollbackAction st) w
          = (Returned (Some {| newRel := rel; errs := errs st |}),
             snd (h _ marks (snd (h _ rolledBack w3))),
             rollbackCalls ++ [called rolledBack; called marks])
      | (Err e, w3) =>
          let failed :=
            SetStatusPhase (V1.Namespace hr) hr V1.HelmReleasePhaseRollbackFailed in
          exec h (loop (S n) r client hr curRel c values RollbackAction st) w
          = (Returned (Some {| newRel := None;
                               errs := errs st ++ [Errorf "rollback failed: %w" [ArgErr e]] |}),
             snd (h _ failed w3), rollbackCalls ++ [called failed])
      end).
Proof.
  destruct (rollback_pass h w st) as [Hiff Hpass]. cbv zeta in Hiff, Hpass.
  split; [exact Hiff |]. split.
  - rewrite <- Hiff.
    pose proof (fun a' st' => rollback_goes_on h w st st' a') as Hgoes.
    unfold callsOf, outcomeOf in *. rewrite exec_loop_S.
    destruct (exec h (step r client hr curRel c values RollbackAction st) w)
      as [[[[[a' |] st'] | v] w'] calls]; cbn [fst snd] in *; [| tauto | tauto].
    specialize (Hgoes a' st' eq_refl).
    destruct (exec h (loop (S n) r client hr curRel c values a' st') w') as [[o w''] rest].
    cbn [snd]. rewrite existsb_app, Hgoes. tauto.
  - intros Hdue. specialize (Hpass Hdue). cbv zeta.
    destruct (h _ (ClientRollback client (V1.GetReleaseName hr) (rollbackOptions hr)) _)
      as [[rel | e] w3].
    + rewrite (exec_loop_goesOnWith h w _ n _ _ st _ _ Hpass).
      unfold goesOnWith. cbn.
      destruct (h _ (annotateResources rel (V1.ResourceID hr)) _) as [[e |] w5];
        reflexivity.
    + rewrite exec_loop_S, Hpass. reflexivity.
Qed.

End Loop.

End ActionLoop.

(** ** The chart source resolver *)

Module ChartSource.

Import Release ProgFacts.

Inductive SourceKind : Type :=
| Git
| Repo
| CustomizeURL
| ObjectStore.

(** The source a call belongs to; [None] for the calls that every
    source may make (reading the chart revision, logging). *)
Definition sourceOf (c : Call) : option SourceKind :=
  match c with
  | called op =>
      match op with
      | GetMirrorCopy _ | ChangedFiles _ _ _ | ClientDependencyUpdate _ _ => Some Git
      | EnsureChartFetched _ _ _ => Some Repo
      | DownloadFile _ _ _ => Some CustomizeURL
      | OsStat _ | OssNew _ _ _ | OssBucket _ | OssGetObjectToFile _ _
      | ObsNew _ _ _ | ObsDownloadFile _ _ _ | ObsClose => Some ObjectStore
      | _ => None
      end
  end.

Definition notNil {A : Type} (o : option A) : bool :=
  match o with
  | Some _ => true
  | None => false
  end.

(** A source kind is set when its pointer is not nil. *)
Definition sourcesSet (hr : V1.HelmRelease) : list SourceKind :=
  let sp := V1.Spec hr in
  (if notNil (V1.GitChartSource_ sp) then [Git] else [])
  ++ (if notNil (V1.RepoChartSource_ sp) then [Repo] else [])
  ++ (if notNil (V1.Customize_ sp) then [CustomizeURL] else [])
  ++ (if notNil (V1.Oss_ sp) then [ObjectStore] else []).

(** A source is usable when it is set and the fields it needs are not
    empty: URL and path for git; URL, name and version for a
    repository; the key for a single URL; nothing more for the object
    store.  The list is in the order git, repository, URL, object
    store. *)
Definition usable (hr : V1.HelmRelease) : list SourceKind :=
  let sp := V1.Spec hr in
  (match V1.GitChartSource_ sp with
   | Some g => if bool_decide (V1.GitURL g <> "" /\ V1.Path g <> "") then [Git] else []
   | None => []
   end)
  ++ (match V1.RepoChartSource_ sp with
      | Some s =>
          if bool_decide (V1.RepoURL s <> "" /\ V1.Name s <> "" /\ V1.Version s <> "")
          then [Repo] else []
      | None => []
      end)
  ++ (match V1.Customize_ sp with
      | Some c => if bool_decide (V1.CustomizeKey c <> "") then [CustomizeURL] else []
      | None => []
      end)
  ++ (if notNil (V1.Oss_ sp) then [ObjectStore] else []).

Definition noValidChartSource : error :=
  Errorf "could not find valid chart source configuration for release" [].

Section Resolver.

Context `{Chartsync.FilePath}.

Lemma eqb_empty (x : string) : negb (String.eqb x "") = bool_decide (x <> "").
Proof.
  destruct (String.eqb_spec x ""); cbn.
  - rewrite bool_decide_eq_false_2; [reflexivity | tauto].
  - rewrite bool_decide_eq_true_2; [reflexivity | assumption].
Qed.

(** The usable sources are those whose guard in the [switch] holds. *)
Lemma usable_guards (hr : V1.HelmRelease) :
  usable hr =
  (if notNil (gitSourceSet hr) then [Git] else [])
  ++ (if notNil (repoSourceSet hr) then [Repo] else [])
  ++ (if notNil (customizeSet hr) then [CustomizeURL] else [])
  ++ (if notNil (V1.Oss_ (V1.Spec hr)) then [ObjectStore] else []).
Proof.
  unfold usable, gitSourceSet, repoSourceSet, customizeSet.
  destruct (V1.GitChartSource_ (V1.Spec hr)) as [g |],
    (V1.RepoChartSource_ (V1.Spec hr)) as [s |],
    (V1.Customize_ (V1.Spec hr)) as [c |]; cbn [notNil];
    rewrite ?eqb_empty;
    repeat match goal with
      | |- context [bool_decide ?P] => destruct (bool_decide_reflect P); cbn
      end;
    try reflexivity; try tauto.
Qed.

Definition common (c : Call) : Prop := sourceOf c = None.
Definition within (k : SourceKind) (c : Call) : Prop :=
  sourceOf c = None \/ sourceOf c = Some k.

Lemma Decrypt_calls (encrypted : string) : callsSatisfy common (Chartsync.Decrypt encrypted).
Proof.
  unfold Chartsync.Decrypt.
  destruct (Base64.DecodeString Base64.StdEncoding encrypted) as [bytes [e |]].
  - apply callsSatisfy_recovering; [constructor |].
    intros v. constructor; [reflexivity | intros; constructor].
  - apply callsSatisfy_recovering.
    + apply callsSatisfy_bind; [apply callsSatisfy_lift | intros; constructor].
    + intros v. constructor; [reflexivity | intros; constructor].
Qed.

Lemma AckDecode_calls (oss : V1.Oss) : callsSatisfy common (Chartsync.AckDecode oss).
Proof.
  unfold Chartsync.AckDecode. destruct (V1.AckEncrypted oss); [| constructor].
  apply callsSatisfy_bind; [apply Decrypt_calls |].
  intros [ackId [e |]]; [constructor |].
  apply callsSatisfy_bind; [apply Decrypt_calls |].
  intros [ackSecret [e |]]; constructor.
Qed.

Lemma fetchObject_calls (p : Chartsync.Provider) (oss : V1.Oss) (cachePath : string) :
  callsSatisfy (within ObjectStore) (Chartsync.fetchObject p oss cachePath).
Proof.
  destruct p; cbn.
  - constructor; [right; reflexivity |]. intros [e |]; [constructor |].
    constructor; [right; reflexivity |]. intros [e |]; [constructor |].
    constructor; [right; reflexivity |]. intros [e |]; constructor.
  - constructor; [right; reflexivity |]. intros [e |]; [constructor |].
    constructor; [right; reflexivity |]. intros [e |]; cbn;
      (constructor; [right; reflexivity | intros; constructor]).
Qed.

Lemma ProviderDownloadFile_calls (p : Chartsync.Provider) (useCache : bool) :
  callsSatisfy (within ObjectStore) (Chartsync.ProviderDownloadFile p useCache).
Proof.
  unfold Chartsync.ProviderDownloadFile.
  apply callsSatisfy_bind.
  - destruct useCache; [| constructor].
    constructor; [left; reflexivity |]. intros _.
    constructor; [right; reflexivity |]. intros; constructor.
  - intros [|]; [constructor |].
    apply callsSatisfy_bind.
    + eapply callsSatisfy_weaken; [| apply AckDecode_calls]. intros c Hc. left. exact Hc.
    + intros [oss' [e |]]; [constructor |].
      apply callsSatisfy_bind; [apply fetchObject_calls | intros; constructor].
Qed.

Lemma revisionOf_calls (k : SourceKind) (client : Client) (hr : V1.HelmRelease)
  (path : string) :
  callsSatisfy (within k) (revisionOf client hr path).
Proof.
  unfold revisionOf. constructor; [left; reflexivity |]. intros [rev | e]; constructor.
Qed.

(** The error of a decoder that returns without a call is the one of
    the base64 decoding. *)
Lemma Decrypt_Ret_error (encrypted x : string) (e : error) :
  Chartsync.Decrypt encrypted = Ret (x, Some e) ->
  exists n, e = CorruptInputError n.
Proof.
  unfold Chartsync.Decrypt.
  destruct (Base64.DecodeString Base64.StdEncoding encrypted) as [bytes [e0 |]] eqn:Hd.
  - cbn. intros [= _ <-]. apply (Base64Facts.DecodeString_error _ _ _ _ Hd).
  - generalize (Chartsync.AESDecrypt bytes Chartsync.k). intros [d | v]; cbn; discriminate.
Qed.

Lemma AckDecode_Ret_error (oss oss' : V1.Oss) (e : error) :
  Chartsync.AckDecode oss = Ret (oss', Some e) ->
  exists n, e = CorruptInputError n.
Proof.
  unfold Chartsync.AckDecode. destruct (V1.AckEncrypted oss); [| discriminate].
  intros Heq. apply bind_Ret_inv in Heq as ([ackId err] & Hd & Hk).
  destruct err as [e1 |].
  - injection Hk as _ <-. apply (Decrypt_Ret_error _ _ _ Hd).
  - apply bind_Ret_inv in Hk as ([ackSecret err] & Hd' & Hk).
    destruct err as [e2 |]; [| discriminate].
    injection Hk as _ <-. apply (Decrypt_Ret_error _ _ _ Hd').
Qed.

Lemma ProviderDownloadFile_no_source_error (p : Chartsync.Provider) (useCache : bool)
  (oss' : V1.Oss) :
  Chartsync.ProviderDownloadFile p useCache <> Ret (oss', Err noValidChartSource).
Proof.
  unfold Chartsync.ProviderDownloadFile. intros Heq.
  apply bind_Ret_inv in Heq as (cached & Hc & Hk).
  destruct cached; [discriminate |].
  apply bind_Ret_inv in Hk as ([oss1 err] & Hack & Hk).
  destruct err as [e |].
  - injection Hk as _ ->. destruct (AckDecode_Ret_error _ _ _ Hack) as [n Hn]. discriminate.
  - apply bind_Ret_inv in Hk as (x & Hf & _).
    destruct p; cbn in Hf; discriminate.
Qed.

(** *** What it is to use a source

    The run of [prepareChart] from each kind of source, in a world [w]
    answering by [h]: the result, the world it leaves and the calls
    made. *)

Definition Run (W : Type) : Type :=
  outcome (V1.HelmRelease * (chart * option Export * option error)) * W * list Call.

(** After a download to [path]: the revision of the chart is read
    there, and the chart has changed when the revision is not the last
    one attempted. *)
Definition readsRevision {W : Type} (h : handler W) (w : W) (client : Client)
  (hr hr' : V1.HelmRelease) (path : string) (calls : list Call) : Run W :=
  let reads := ClientGetChartRevision client path in
  (Returned (hr',
             match fst (h _ reads w) with
             | Ok revision =>
                 ({| chartPath := path; revision := revision;
                     changed := negb (String.eqb (V1.LastAttemptedRevision (V1.Status hr))
                                        revision) |}, None, None)
             | Err e => (noChart, None, Some e)
             end),
   snd (h _ reads w), calls ++ [called reads]).

(** The git mirror: the copy of the mirror, the files changed since the
    last revision attempted, and the update of the dependencies unless
    it is switched off; the export is handed back for the clean-up. *)
Definition gitRun {W : Type} (h : handler W) (w : W) (r : Release) (client : Client)
  (hr : V1.HelmRelease) (g : V1.GitChartSource) : Run W :=
  let mirror := GetMirrorCopy hr in
  match h _ mirror w with
  | (Err e, w1) => (Returned (hr, (noChart, None, Some e)), w1, [called mirror])
  | (Ok (export, revision), w1) =>
      let path := Chartsync.Join (Dir export) (V1.Path g) in
      let files :=
        ChangedFiles export (V1.LastAttemptedRevision (V1.Status hr)) [V1.Path g] in
      let c := {| chartPath := path; revision := revision;
                  changed := (0 <? length (fst (h _ files w1)))%nat |} in
      let w2 := snd (h _ files w1) in
      if UpdateDeps (config r) && negb (V1.SkipDepUpdate g) then
        let update := ClientDependencyUpdate client path in
        (Returned (hr, match fst (h _ update w2) with
                       | Some e => (noChart, None, Some e)
                       | None => (c, Some export, None)
                       end),
         snd (h _ update w2), [called mirror; called files; called update])
      else (Returned (hr, (c, Some export, None)), w2, [called mirror; called files])
  end.

(** The chart repository and the single URL: the fetch, then the
    revision. *)
Definition repoRun {W : Type} (h : handler W) (w : W) (r : Release) (client : Client)
  (hr : V1.HelmRelease) (s : V1.RepoChartSource) : Run W :=
  let fetch := EnsureChartFetched client (ChartCache (config r)) s in
  match h _ fetch w with
  | (Err e, w1) => (Returned (hr, (noChart, None, Some e)), w1, [called fetch])
  | (Ok (path, _), w1) => readsRevision h w1 client hr hr path [called fetch]
  end.

Definition urlRun {W : Type} (h : handler W) (w : W) (r : Release) (client : Client)
  (hr : V1.HelmRelease) (c : V1.Customize) : Run W :=
  let fetch :=
    DownloadFile (V1.CustomizeKey c) (ChartCache (config r)) (V1.CustomizeUseCache c) in
  match h _ fetch w with
  | (Err e, w1) => (Returned (hr, (noChart, None, Some e)), w1, [called fetch])
  | (Ok path, w1) => readsRevision h w1 client hr hr path [called fetch]
  end.

(** The object store: the provider is made from the source (without a
    call; an unknown cloud provider is the error of the run), its
    [DownloadFile] runs, and the revision of the chart is read at the
    path it gives.  The resource is left with the source as the
    download left it. *)
Definition objectStoreRun {W : Type} (h : handler W) (w : W) (r : Release) (client : Client)
  (hr : V1.HelmRelease) (oss : V1.Oss) : Run W :=
  match Chartsync.NewProvider oss (ChartCache (config r)) with
  | Err e => (Returned (hr, (noChart, None, Some e)), w, [])
  | Ok provider =>
      match exec h (Chartsync.ProviderDownloadFile provider (V1.UseCache oss)) w with
      | (Returned (oss', Ok path), w1, calls) =>
          readsRevision h w1 client hr (setOss hr oss') path calls
      | (Returned (oss', Err e), w1, calls) =>
          (Returned (setOss hr oss', (noChart, None, Some e)), w1, calls)
      | (Panicked v, w1, calls) => (Panicked v, w1, calls)
      end
  end.

(** The run from the source of kind [k] of the resource, if it has
    one. *)
Definition sourceRun {W : Type} (h : handler W) (w : W) (r : Release) (client : Client)
  (hr : V1.HelmRelease) (k : SourceKind) : option (Run W) :=
  let sp := V1.Spec hr in
  match k with
  | Git => gitRun h w r client hr <$> V1.GitChartSource_ sp
  | Repo => repoRun h w r client hr <$> V1.RepoChartSource_ sp
  | CustomizeURL => urlRun h w r client hr <$> V1.Customize_ sp
  | ObjectStore => objectStoreRun h w r client hr <$> V1.Oss_ sp
  end.

(** [prepareChart] uses the source [k] when its run is the run from
    that source. *)
Definition uses {W : Type} (h : handler W) (w : W) (r : Release) (client : Client)
  (hr : V1.HelmRelease) (k : SourceKind) : Prop :=
  sourceRun h w r client hr k = Some (exec h (prepareChart r client hr) w).

(** C4, as the code has it: [prepareChart] returns the error that no
    valid chart source was found, without any call, exactly when no
    source is usable (none is set, or those set lack a field they
    need).  Several usable sources are not an error: the first in the
    order git, repository, URL, object store is used, and so is the
    only one when exactly one is usable: the run of [prepareChart] is
    then the run from that source (result, world and calls), and every
    fetch of it belongs to that source. *)
Theorem prepareChart_source_selection (r : Release) (client : Client)
  (hr : V1.HelmRelease) :
  (prepareChart r client hr = mret (hr, (noChart, None, Some noValidChartSource))
   <-> usable hr = [])
  /\ (forall k : SourceKind,
        head (usable hr) = Some k ->
        forall (W : Type) (h : handler W) (w : W),
          Forall (within k) (callsOf h (prepareChart r client hr) w)
          /\ uses h w r client hr k).
Proof.
  unfold uses, sourceRun. rewrite usable_guards. unfold prepareChart.
  destruct (gitSourceSet hr) as [g |] eqn:Hgit; cbn [notNil app].
  { split; [split; discriminate |].
    intros k [= <-] W h w. split.
    - apply callsSatisfy_exec.
      constructor; [right; reflexivity |].
      intros [[export revision] | e]; [| constructor].
      constructor; [right; reflexivity |]. intros i.
      apply callsSatisfy_bind.
      + destruct (UpdateDeps (config r) && negb (V1.SkipDepUpdate g)); [| constructor].
        apply callsSatisfy_call. right. reflexivity.
      + intros [e |]; constructor.
    - unfold gitSourceSet in Hgit.
      destruct (V1.GitChartSource_ (V1.Spec hr)) as [g' |]; [| discriminate].
      destruct (_ && _) in Hgit; [| discriminate]. injection Hgit as ->.
      cbn [fmap option_fmap option_map]. f_equal. unfold gitRun. cbn.
      destruct (h _ (GetMirrorCopy hr) w) as [[[export revision] | e] w1];
        [| reflexivity].
      cbn. destruct (h _ (ChangedFiles _ _ _) w1) as [i w2]. cbn.
      destruct (UpdateDeps (config r) && negb (V1.SkipDepUpdate g)); [| reflexivity].
      cbn. destruct (h _ (ClientDependencyUpdate _ _) w2) as [[e |] w3]; reflexivity. }
  destruct (repoSourceSet hr) as [s |] eqn:Hrepo; cbn [notNil app].
  { split; [split; discriminate |].
    intros k [= <-] W h w. split.
    - apply callsSatisfy_exec.
      constructor; [right; reflexivity |].
      intros [[path fetched] | e]; [| constructor].
      apply callsSatisfy_bind; [apply revisionOf_calls | intros; constructor].
    - unfold repoSourceSet in Hrepo.
      destruct (V1.RepoChartSource_ (V1.Spec hr)) as [s' |]; [| discriminate].
      destruct (_ && _) in Hrepo; [| discriminate]. injection Hrepo as ->.
      cbn [fmap option_fmap option_map]. f_equal. unfold repoRun, readsRevision. cbn.
      destruct (h _ (EnsureChartFetched _ _ _) w) as [[[path fetched] | e] w1];
        [| reflexivity].
      cbn. destruct (h _ (ClientGetChartRevision client path) w1) as [[revision | e] w2];
        reflexivity. }
  destruct (customizeSet hr) as [c |] eqn:Hcust; cbn [notNil app].
  { split; [split; discriminate |].
    intros k [= <-] W h w. split.
    - apply callsSatisfy_exec.
      constructor; [right; reflexivity |].
      intros [path | e]; [| constructor].
      apply callsSatisfy_bind; [apply revisionOf_calls | intros; constructor].
    - unfold customizeSet in Hcust.
      destruct (V1.Customize_ (V1.Spec hr)) as [c' |]; [| discriminate].
      destruct (negb _) in Hcust; [| discriminate]. injection Hcust as ->.
      cbn [fmap option_fmap option_map]. f_equal. unfold urlRun, readsRevision. cbn.
      destruct (h _ (DownloadFile _ _ _) w) as [[path | e] w1]; [| reflexivity].
      cbn. destruct (h _ (ClientGetChartRevision client path) w1) as [[revision | e] w2];
        reflexivity. }
  destruct (V1.Oss_ (V1.Spec hr)) as [oss |] eqn:Hoss; cbn [notNil app].
  { split.
    - split; [| discriminate].
      intros Heq. exfalso.
      destruct (Chartsync.NewProvider oss (ChartCache (config r))) as [p | e] eqn:Hp.
      + apply bind_Ret_inv in Heq as ([oss' f] & Hdl & Hk).
        destruct f as [path | e].
        * apply bind_Ret_inv in Hk as (x & Hrev & _).
          unfold revisionOf in Hrev. discriminate.
        * injection Hk as _ ->.
          apply (ProviderDownloadFile_no_source_error p (V1.UseCache oss) oss' Hdl).
      + unfold Chartsync.NewProvider in Hp.
        destruct (String.eqb _ Chartsync.Ali); [discriminate |].
        destruct (String.eqb _ Chartsync.Huawei); [discriminate |].
        injection Hp as <-. discriminate.
    - intros k [= <-] W h w. split.
      + apply callsSatisfy_exec.
        destruct (Chartsync.NewProvider oss (ChartCache (config r))) as [p | e];
          [| constructor].
        apply callsSatisfy_bind; [apply ProviderDownloadFile_calls |].
        intros [oss' [path | e]]; [| constructor].
        apply callsSatisfy_bind; [apply revisionOf_calls | intros; constructor].
      + cbn [fmap option_fmap option_map]. f_equal. unfold objectStoreRun, readsRevision.
        destruct (Chartsync.NewProvider oss (ChartCache (config r))) as [p | e];
          [| reflexivity].
        unfold mbind, Prog_bind. rewrite exec_bind.
        destruct (exec h (Chartsync.ProviderDownloadFile p (V1.UseCache oss)) w)
          as [[[[oss' [path | e]] | v] w1] calls];
          [| cbn; rewrite app_nil_r; reflexivity | reflexivity].
        unfold revisionOf. cbn.
        destruct (h _ (ClientGetChartRevision client path) w1) as [[revision | e] w2];
          cbn; rewrite ?app_nil_r; reflexivity. }
  split; [split; reflexivity |]. intros k Hk. discriminate.
Qed.

End Resolver.

(** C4, as stated, fails for an ambiguous source: with a git and a
    repository source both set, [prepareChart] returns no error, and it
    fetches (from the git mirror). *)
Lemma prepareChart_two_sources_is_no_error :
  sourcesSet Samples.twoSourceResource = [Git; Repo]
  /\ exec Samples.quiet
       (@prepareChart Samples.slashJoin Samples.engine "v2" Samples.twoSourceResource) tt
     = (Returned (Samples.twoSourceResource,
                  ({| chartPath := "/mirror/charts/podinfo"; revision := "4f2a9c1";
                      changed := false |}, Some {| Dir := "/mirror" |}, None)),
        tt,
        [called (GetMirrorCopy Samples.twoSourceResource);
         called (ChangedFiles {| Dir := "/mirror" |} "1.0.0" ["charts/podinfo"]);
         called (ClientDependencyUpdate "v2" "/mirror/charts/podinfo")]).
Proof. split; reflexivity. Qed.

(** A resource without any source: the error, and no call. *)
Example prepareChart_no_source :
  exec Samples.quiet
    (@prepareChart Samples.slashJoin Samples.engine "v2" Samples.noSourceResource) tt
  = (Returned (Samples.noSourceResource, (noChart, None, Some noValidChartSource)), tt, []).
Proof. reflexivity. Qed.

End ChartSource.

(** ** The work-queue worker *)

Module WorkQueue.

Import Release ProgFacts Operator.

(** A call that is not [Forget]. *)
Definition kept (c : Call) : Prop := isForget c = false.

Ltac calls_auto :=
  repeat first
    [ apply callsSatisfy_Ret
    | apply callsSatisfy_Panic
    | apply callsSatisfy_lift
    | apply callsSatisfy_Vis; [reflexivity | intros ?]
    | apply callsSatisfy_bind; [| intros ?]
    | apply callsSatisfy_deferring
    | apply callsSatisfy_recovering; [| intros ?]
    | match goal with
      | |- callsSatisfy _ (match ?x with _ => _ end) => destruct x
      | |- callsSatisfy _ (let (_, _) := ?x in _) => destruct x
      end
    | progress cbn [mbind mret Prog_bind Prog_ret call]
    | progress unfold phase ].

(** A controller whose engine has no Helm client loaded: every [Sync]
    fails. *)
Definition noClients : Controller :=
  {| release := {| helmClients := []; config := config Samples.engine |} |}.

Section Worker.

Context `{V1.Accessors} `{Helm.StatusAPI} `{Chartsync.FilePath}.

Lemma prepareChart_kept (r : Release) (client : Client) (hr : V1.HelmRelease) :
  callsSatisfy kept (prepareChart r client hr).
Proof.
  unfold prepareChart, revisionOf, Chartsync.ProviderDownloadFile, Chartsync.AckDecode,
    Chartsync.Decrypt, Chartsync.fetchObject.
  calls_auto.
Qed.

Lemma determineSyncAction_kept (r : Release) (client : Client) (hr : V1.HelmRelease)
  (c : chart) :
  callsSatisfy kept (determineSyncAction r client hr c).
Proof. unfold determineSyncAction. calls_auto. Qed.

Lemma step_kept (r : Release) (client : Client) (hr : V1.HelmRelease)
  (curRel : option Helm.Release) (c : chart) (values : string) (a : action)
  (st : loopState) :
  callsSatisfy kept (step r client hr curRel c values a st).
Proof.
  unfold step, dryRunCompare, install, upgrade, migrate, rollback, test, annotate, uninstall.
  destruct a; calls_auto.
Qed.

Lemma loop_kept (r : Release) (client : Client) (hr : V1.HelmRelease)
  (curRel : option Helm.Release) (c : chart) (values : string) (n : nat) :
  forall (a : action) (st : loopState),
    callsSatisfy kept (loop n r client hr curRel c values a st).
Proof.
  induction n as [| n IH]; intros a st; cbn [loop].
  - constructor.
  - apply callsSatisfy_bind; [apply step_kept |].
    intros [[a' |] st']; [apply IH | constructor].
Qed.

Lemma run_kept (r : Release) (client : Client) (a : action) (hr : V1.HelmRelease)
  (curRel : option Helm.Release) (c : chart) (values : string) :
  callsSatisfy kept (run r client a hr curRel c values).
Proof.
  unfold run. apply callsSatisfy_bind; [apply loop_kept |].
  intros [st |]; constructor.
Qed.

(** [Sync] does not touch the queue. *)
Lemma Sync_kept (r : Release) (hr : V1.HelmRelease) : callsSatisfy kept (Sync r hr).
Proof.
  unfold Sync. destruct (Load _ _) as [client |]; [| calls_auto].
  apply callsSatisfy_bind; [apply prepareChart_kept |].
  intros [hr' [[c cleanup] [e |]]]; [calls_auto |].
  assert (Hbody : forall body : Prog (option error),
             callsSatisfy kept body ->
             callsSatisfy kept
               (deferring
                  match cleanup with
                  | Some export => deferring body (call (Clean export);; mret tt)
                  | None => body
                  end
                  (call (SetObservedGeneration (V1.Namespace hr') hr' (V1.Generation hr'))))).
  { intros body Hb. apply callsSatisfy_deferring; [| calls_auto].
    destruct cleanup; [apply callsSatisfy_deferring; [exact Hb | calls_auto] | exact Hb]. }
  apply Hbody.
  apply callsSatisfy_bind; [destruct (changed c); calls_auto |]. intros _.
  apply callsSatisfy_bind; [calls_auto |]. intros [values | e]; [| calls_auto].
  apply callsSatisfy_bind; [apply determineSyncAction_kept |].
  intros [[a curRel] [e |]]; [calls_auto | apply run_kept].
Qed.

Lemma syncHandler_kept (c : Controller) (key : string) :
  callsSatisfy kept (syncHandler c key).
Proof.
  unfold syncHandler. destruct (SplitMetaNamespaceKey key) as [[namespace name] | e];
    [| calls_auto].
  apply callsSatisfy_bind; [calls_auto |]. intros [e |]; [constructor |].
  apply callsSatisfy_deferring; [| calls_auto].
  apply callsSatisfy_bind; [calls_auto |]. intros [hr | e]; [| calls_auto].
  apply callsSatisfy_bind; [apply Sync_kept |]. intros [e |]; calls_auto.
Qed.

Lemma kept_existsb (calls : list Call) : Forall kept calls -> existsb isForget calls = false.
Proof.
  induction 1 as [| c calls Hc _ IH]; [reflexivity |].
  cbn. rewrite Hc, IH. reflexivity.
Qed.

(** The function literal around a handler [m] of a key. *)
Definition around (m : Prog (option error)) (key : string) : Prog (option error) :=
  deferring
    (err ← m;
     match err with
     | Some e =>
         mret (Some (Errorf "errored syncing HelmRelease '%s': %s" [ArgStr key; ArgErr e]))
     | None => call (QueueForget (KeyItem key));; mret None
     end)
    (call (QueueDone (KeyItem key))).

Lemma around_error {W : Type} (h : handler W) (key : string) (e : error)
  (m : Prog (option error)) :
  forall w : W,
    outcomeOf h m w = Returned (Some e) ->
    Forall kept (callsOf h m w) ->
    existsb isForget (callsOf h (around m key) w) = false
    /\ outcomeOf h (around m key) w
       = Returned (Some (Errorf "errored syncing HelmRelease '%s': %s"
                           [ArgStr key; ArgErr e])).
Proof.
  unfold callsOf, outcomeOf, around.
  induction m as [a | R op k IH | v]; intros w Hm Hkept; cbn in *.
  - injection Hm as Ha. subst a. cbn. destruct (h _ (QueueDone _) w) as [u w1]. cbn.
    split; reflexivity.
  - destruct (h R op w) as [r0 w1]. specialize (IH r0 w1).
    destruct (exec h (k r0) w1) as [[o w2] cs] eqn:Hk. cbn in *.
    apply Forall_cons in Hkept as [Hop Hcs].
    specialize (IH Hm Hcs).
    destruct (exec h (deferring _ _) w1) as [[o' w2'] cs']. cbn in *.
    destruct IH as [IH1 IH2]. unfold kept in Hop. cbn in Hop. rewrite Hop, IH1.
    split; [reflexivity | exact IH2].
  - discriminate.
Qed.

Lemma around_success {W : Type} (h : handler W) (key : string)
  (m : Prog (option error)) :
  forall w : W,
    outcomeOf h m w = Returned None ->
    callsOf h (around m key) w
    = callsOf h m w ++ [called (QueueForget (KeyItem key)); called (QueueDone (KeyItem key))]
    /\ outcomeOf h (around m key) w = Returned None.
Proof.
  unfold callsOf, outcomeOf, around.
  induction m as [a | R op k IH | v]; intros w Hm; cbn in *.
  - injection Hm as Ha. subst a. cbn. destruct (h _ (QueueForget _) w) as [u w1]. cbn.
    destruct (h _ (QueueDone _) w1) as [u1 w2]. cbn. split; reflexivity.
  - destruct (h R op w) as [r0 w1]. specialize (IH r0 w1).
    destruct (exec h (k r0) w1) as [[o w2] cs] eqn:Hk. cbn in *.
    specialize (IH Hm).
    destruct (exec h (deferring _ _) w1) as [[o' w2'] cs']. cbn in *.
    destruct IH as [IH1 IH2]. rewrite IH1. split; [reflexivity | exact IH2].
  - discriminate.
Qed.

(** What [processItem] does with an item, by what [syncHandler] says:
    an error keeps the item (no [Forget]); no error forgets it; an item
    that is not a string is forgotten and reported.  [Done] is the last
    call in each case. *)
Lemma processItem_cases {W : Type} (h : handler W) (w : W) (c : Controller) :
  (forall rendering,
      callsOf h (processItem c (ForeignItem rendering)) w
      = [called (QueueForget (ForeignItem rendering));
         called (HandleError (Errorf "expected string in workqueue but got %#v"
                                [ArgStr rendering]));
         called (QueueDone (ForeignItem rendering))]
      /\ outcomeOf h (processItem c (ForeignItem rendering)) w = Returned None)
  /\ (forall key e,
         outcomeOf h (syncHandler c key) w = Returned (Some e) ->
         existsb isForget (callsOf h (processItem c (KeyItem key)) w) = false
         /\ outcomeOf h (processItem c (KeyItem key)) w
            = Returned (Some (Errorf "errored syncing HelmRelease '%s': %s"
                                [ArgStr key; ArgErr e])))
  /\ (forall key,
         outcomeOf h (syncHandler c key) w = Returned None ->
         callsOf h (processItem c (KeyItem key)) w
         = callsOf h (syncHandler c key) w
           ++ [called (QueueForget (KeyItem key)); called (QueueDone (KeyItem key))]
         /\ outcomeOf h (processItem c (KeyItem key)) w = Returned None).
Proof.
  split; [| split].
  - intros rendering. unfold callsOf, outcomeOf. cbn.
    destruct (h _ (QueueForget _) w) as [u w1]. cbn.
    destruct (h _ (HandleError _) w1) as [u1 w2]. cbn.
    destruct (h _ (QueueDone _) w2) as [u2 w3]. cbn. split; reflexivity.
  - intros key e Hm. apply (around_error h key e (syncHandler c key) w Hm).
    apply callsSatisfy_exec, syncHandler_kept.
  - intros key Hm. apply (around_success h key (syncHandler c key) w Hm).
Qed.

(** Once the resource is found, [syncHandler] returns nil whatever
    [Sync] returned. *)
Lemma syncHandler_returns_nil {W : Type} (h : handler W) (w w1 w2 : W) (c : Controller)
  (key namespace name : string) (hr : V1.HelmRelease) (err : option error) :
  SplitMetaNamespaceKey key = Ok (namespace, name) ->
  h _ (Lock (namespace +:+ "-" +:+ name)) w = (None, w1) ->
  h _ (ListerGet namespace name) w1 = (Ok hr, w2) ->
  outcomeOf h (Sync (release c) hr) w2 = Returned err ->
  outcomeOf h (syncHandler c key) w = Returned None.
Proof.
  intros Hsplit Hlock Hget Hsync.
  unfold outcomeOf, syncHandler in *. rewrite Hsplit.
  cbn -[Sync]. rewrite Hlock. cbn -[Sync]. rewrite Hget.
  remember (Sync (release c) hr) as m eqn:Hm. clear Hm.
  unfold call. rewrite exec_deferring_call.
  change (mbind ?k m) with (bind m k). rewrite exec_bind.
  destruct (exec h m w2) as [[o w3] cs]. cbn in Hsync. subst o.
  destruct err as [e |]; cbn;
    destruct (h _ (RecorderEvent _ _ _ _ _) w3) as [u w4]; reflexivity.
Qed.

(** C5, at the point where the code departs from it: an item whose
    resource is found and whose [Sync] fails is forgotten, not retried,
    because [syncHandler] records the failure as an event and returns
    nil. *)
Theorem failed_sync_is_forgotten {W : Type} (h : handler W) (w w1 w2 w3 w4 w5 : W)
  (c : Controller) (n : Z) (key namespace name : string) (hr : V1.HelmRelease)
  (e : error) :
  h _ QueueLen w = (n, w1) ->
  h _ (SetQueueLength n) w1 = (tt, w2) ->
  h _ QueueGet w2 = ((KeyItem key, false), w3) ->
  SplitMetaNamespaceKey key = Ok (namespace, name) ->
  h _ (Lock (namespace +:+ "-" +:+ name)) w3 = (None, w4) ->
  h _ (ListerGet namespace name) w4 = (Ok hr, w5) ->
  outcomeOf h (Sync (release c) hr) w5 = Returned (Some e) ->
  existsb isForget (callsOf h (processNextWorkItem c) w) = true
  /\ outcomeOf h (processNextWorkItem c) w = Returned true.
Proof.
  intros Hlen Hset Hget Hsplit Hlock Hlist Hsync.
  pose proof (syncHandler_returns_nil h w3 w4 w5 c key namespace name hr (Some e)
                Hsplit Hlock Hlist Hsync) as Hnil.
  destruct (around_success h key (syncHandler c key) w3 Hnil) as [Hcalls Hout].
  unfold callsOf, outcomeOf, processNextWorkItem in *.
  cbn -[processItem]. rewrite Hlen. cbn -[processItem]. rewrite Hset.
  cbn -[processItem]. rewrite Hget. cbn -[processItem].
  change (processItem c (KeyItem key)) with (around (syncHandler c key) key).
  change (mbind ?k (around ?m ?x)) with (bind (around m x) k). rewrite exec_bind.
  destruct (exec h (around (syncHandler c key) key) w3) as [[o w6] cs].
  cbn in Hcalls, Hout. subst o cs. cbn.
  split; [| reflexivity].
  rewrite app_nil_r, existsb_app. cbn. apply orb_true_r.
Qed.

End Worker.

End WorkQueue.

(** The worker on concrete worlds. *)

Module WorkQueueRuns.

Import Release Operator WorkQueue.

(** C5 at a concrete item: the key is well formed and its resource is
    found, the engine has no Helm client so that [Sync] fails, and the
    worker forgets the item. *)
Lemma failed_sync_is_forgotten_witness :
  outcomeOf Samples.quiet
    (@Sync Samples.plainAccessors Samples.deployedOnly Samples.slashJoin
       (release noClients) Samples.syncedResource) tt
  = Returned (Some (Errorf "no client found for Helm '%s'" [ArgStr "v2"]))
  /\ existsb isForget
       (callsOf Samples.quiet
          (@processNextWorkItem Samples.plainAccessors Samples.deployedOnly
             Samples.slashJoin noClients) tt) = true
  /\ outcomeOf Samples.quiet
       (@processNextWorkItem Samples.plainAccessors Samples.deployedOnly
          Samples.slashJoin noClients) tt = Returned true.
Proof.
  split; [reflexivity |].
  apply (@failed_sync_is_forgotten Samples.plainAccessors Samples.deployedOnly
           Samples.slashJoin unit Samples.quiet tt tt tt tt tt tt noClients 1
           "demo/podinfo" "demo" "podinfo" Samples.syncedResource
           (Errorf "no client found for Helm '%s'" [ArgStr "v2"]));
    reflexivity.
Defined.

(** The calls of that run, in order: the item is forgotten and done. *)
Example failed_sync_calls :
  callsOf Samples.quiet
    (@processNextWorkItem Samples.plainAccessors Samples.deployedOnly
       Samples.slashJoin noClients) tt
  = [called QueueLen; called (SetQueueLength 1); called QueueGet;
     called (Lock "demo-podinfo"); called (ListerGet "demo" "podinfo");
     called (SetStatusPhase "demo" Samples.syncedResource V1.HelmReleasePhaseFailed);
     called (RecorderEvent Samples.syncedResource EventTypeWarning FailedReleaseSync
               "synchronization of release '%s' in namespace '%s' failed: %s"
               [ArgStr "podinfo"; ArgStr "demo";
                ArgErr (Errorf "no client found for Helm '%s'" [ArgStr "v2"])]);
     called (Unlock "demo-podinfo");
     called (QueueForget (KeyItem "demo/podinfo"));
     called (QueueDone (KeyItem "demo/podinfo"))].
Proof. reflexivity. Qed.

End WorkQueueRuns.

(** ** The block cipher inverts itself *)

Module AESFacts.

Import AES.

Definition bytes (l : list nat) : list ascii := map ascii_of_nat l.

(** The example vectors of FIPS-197, appendix C: the plaintext
    [00 11 22 .. ff] under the keys [00 01 02 ..] of 16, 24 and 32
    bytes. *)
Definition fipsPlaintext : list ascii := bytes (map (fun i => 17 * i)%nat (seq 0 16)).

Example fips197_aes128 :
  NewCipher (bytes (seq 0 16)) = Ok {| roundKeys := KeyExpansion (bytes (seq 0 16)) |}
  /\ encryptBlock {| roundKeys := KeyExpansion (bytes (seq 0 16)) |} fipsPlaintext
     = bytes [105; 196; 224; 216; 106; 123; 4; 48; 216; 205; 183; 128; 112; 180; 197; 90]%nat.
Proof. split; vm_compute; reflexivity. Qed.

Example fips197_aes192 :
  encryptBlock {| roundKeys := KeyExpansion (bytes (seq 0 24)) |} fipsPlaintext
  = bytes [221; 169; 124; 164; 134; 76; 223; 224; 110; 175; 112; 160; 236; 13; 113; 145]%nat.
Proof. vm_compute. reflexivity. Qed.

Example fips197_aes256 :
  encryptBlock {| roundKeys := KeyExpansion (bytes (seq 0 32)) |} fipsPlaintext
  = bytes [142; 162; 183; 202; 81; 103; 69; 191; 234; 252; 73; 144; 75; 73; 96; 137]%nat.
Proof. vm_compute. reflexivity. Qed.

Lemma axor_cancel (a b : ascii) : axor (axor a b) b = a.
Proof. destruct a, b; cbn; f_equal; btauto. Qed.

Lemma axor_comm (a b : ascii) : axor a b = axor b a.
Proof. destruct a, b; cbn; f_equal; btauto. Qed.

Lemma length_xorBytes (x y : list ascii) :
  length x = length y -> length (xorBytes x y) = length x.
Proof.
  revert y. induction x as [| a x IH]; intros [| b y] Hl; cbn in *; try congruence.
  f_equal. apply IH. congruence.
Qed.

Lemma xorBytes_cancel (x y : list ascii) :
  length x = length y -> xorBytes (xorBytes x y) y = x.
Proof.
  revert y. induction x as [| a x IH]; intros [| b y] Hl; cbn in *; try congruence.
  rewrite axor_cancel. f_equal. apply IH. congruence.
Qed.

Lemma invSubByte_subByte (b : ascii) : invSubByte (subByte b) = b.
Proof. destruct b as [[] [] [] [] [] [] [] []]; vm_compute; reflexivity. Qed.

Lemma InvSubBytes_SubBytes (s : list ascii) : InvSubBytes (SubBytes s) = s.
Proof.
  unfold InvSubBytes, SubBytes. induction s as [| b s IH]; cbn [map]; [reflexivity |].
  rewrite invSubByte_subByte, IH. reflexivity.
Qed.

Lemma length_SubBytes (s : list ascii) : length (SubBytes s) = length s.
Proof. apply length_map. Qed.

(** A block, element by element. *)
Ltac block s Hs :=
  do 16 (destruct s as [| ? s]; [discriminate Hs |]);
  destruct s; [| discriminate Hs]; clear Hs.

Lemma InvShiftRows_ShiftRows (s : list ascii) :
  length s = 16%nat -> InvShiftRows (ShiftRows s) = s.
Proof. intros Hs. block s Hs. reflexivity. Qed.

Lemma length_ShiftRows (s : list ascii) : length (ShiftRows s) = length s.
Proof.
  do 17 (destruct s as [| ? s]; [reflexivity |]). reflexivity.
Qed.

Lemma invMixColumn_mixColumn (a0 a1 a2 a3 : ascii) :
  invMixColumn
    (axor (axor (axor (mul2 a0) (mul3 a1)) a2) a3)
    (axor (axor (axor a0 (mul2 a1)) (mul3 a2)) a3)
    (axor (axor (axor a0 a1) (mul2 a2)) (mul3 a3))
    (axor (axor (axor (mul3 a0) a1) a2) (mul2 a3))
  = [a0; a1; a2; a3].
Proof.
  destruct a0, a1, a2, a3.
  cbv [invMixColumn mul2 mul3 mul9 mul11 mul13 mul14 xtime axor].
  repeat (f_equal; try btauto).
Qed.

Lemma InvMixColumns_MixColumns (s : list ascii) :
  length s = 16%nat -> InvMixColumns (MixColumns s) = s.
Proof.
  intros Hs. block s Hs.
  cbn [MixColumns mixColumn app InvMixColumns].
  rewrite !invMixColumn_mixColumn. reflexivity.
Qed.

Lemma length_MixColumns (s : list ascii) :
  length s = 16%nat -> length (MixColumns s) = 16%nat.
Proof. intros Hs. block s Hs. reflexivity. Qed.

Lemma AddRoundKey_cancel (s rk : list ascii) :
  length s = 16%nat -> length rk = 16%nat -> AddRoundKey (AddRoundKey s rk) rk = s.
Proof. intros Hs Hk. apply xorBytes_cancel. congruence. Qed.

Lemma length_AddRoundKey (s rk : list ascii) :
  length s = 16%nat -> length rk = 16%nat -> length (AddRoundKey s rk) = 16%nat.
Proof. intros Hs Hk. unfold AddRoundKey. rewrite length_xorBytes; congruence. Qed.

(** Round keys as a cipher needs them: blocks, and at least two. *)
Definition wellKeyed (c : aesCipher) : Prop :=
  Forall (fun rk => length rk = 16%nat) (roundKeys c) /\ (2 <= length (roundKeys c))%nat.

(** The rounds undone, last to first: what is left is the first part of
    a round on the state. *)
Lemma decryptRounds_encryptRounds (ms : list (list ascii)) :
  forall (s last : list ascii) (acc : list (list ascii)),
    length s = 16%nat ->
    length last = 16%nat ->
    Forall (fun rk => length rk = 16%nat) ms ->
    acc <> [] ->
    decryptRounds (AddRoundKey (encryptRounds s (ms ++ [last])) last) (rev ms ++ acc)
    = decryptRounds (ShiftRows (SubBytes s)) acc.
Proof.
  induction ms as [| m ms IH]; intros s last acc Hs Hlast Hms Hacc.
  - cbn. rewrite AddRoundKey_cancel; [reflexivity | | exact Hlast].
    rewrite length_ShiftRows, length_SubBytes. exact Hs.
  - apply Forall_cons in Hms as [Hm Hms].
    assert (Hround : length (AddRoundKey (MixColumns (ShiftRows (SubBytes s))) m) = 16%nat).
    { apply length_AddRoundKey; [| exact Hm]. apply length_MixColumns.
      rewrite length_ShiftRows, length_SubBytes. exact Hs. }
    change (encryptRounds s ((m :: ms) ++ [last]))
      with (match ms ++ [last] with
            | [] => AddRoundKey (ShiftRows (SubBytes s)) m
            | _ :: _ =>
                encryptRounds (AddRoundKey (MixColumns (ShiftRows (SubBytes s))) m)
                  (ms ++ [last])
            end).
    destruct (ms ++ [last]) as [| x xs] eqn:Hx; [destruct ms; discriminate |].
    rewrite <- Hx. cbn [rev]. rewrite <- app_assoc. cbn [app].
    rewrite (IH _ last (m :: acc) Hround Hlast Hms ltac:(discriminate)).
    destruct acc as [| a acc]; [contradiction |].
    cbn [decryptRounds].
    rewrite InvShiftRows_ShiftRows by (rewrite length_SubBytes; exact Hround).
    rewrite InvSubBytes_SubBytes.
    rewrite AddRoundKey_cancel;
      [| apply length_MixColumns; rewrite length_ShiftRows, length_SubBytes; exact Hs
       | exact Hm].
    rewrite InvMixColumns_MixColumns
      by (rewrite length_ShiftRows, length_SubBytes; exact Hs).
    reflexivity.
Qed.

(** The inverse cipher undoes the cipher on a block. *)
Lemma decryptBlock_encryptBlock (c : aesCipher) (b : list ascii) :
  wellKeyed c -> length b = 16%nat -> decryptBlock c (encryptBlock c b) = b.
Proof.
  intros [Hkeys Hn] Hb. unfold decryptBlock, encryptBlock.
  destruct (roundKeys c) as [| rk0 rks]; [cbn in Hn; lia |].
  apply Forall_cons in Hkeys as [Hk0 Hkeys].
  destruct (exists_last (l := rks)) as (ms & last & ->); [destruct rks; cbn in Hn; [lia | discriminate] |].
  apply Forall_app in Hkeys as [Hms Hlast]. apply Forall_cons in Hlast as [Hlast _].
  change (rev (rk0 :: ms ++ [last])) with (rev (ms ++ [last]) ++ [rk0]).
  rewrite rev_app_distr. cbn [rev app].
  rewrite decryptRounds_encryptRounds;
    [| apply length_AddRoundKey; assumption | exact Hlast | exact Hms | discriminate].
  cbn [decryptRounds].
  rewrite InvShiftRows_ShiftRows
    by (rewrite length_SubBytes; apply length_AddRoundKey; assumption).
  rewrite InvSubBytes_SubBytes. apply AddRoundKey_cancel; assumption.
Qed.

Lemma length_encryptRounds (rks : list (list ascii)) :
  forall s : list ascii,
    length s = 16%nat -> Forall (fun rk => length rk = 16%nat) rks ->
    length (encryptRounds s rks) = 16%nat.
Proof.
  induction rks as [| rk rks IH]; intros s Hs Hk; [exact Hs |].
  apply Forall_cons in Hk as [Hrk Hk].
  destruct rks as [| rk' rks'].
  - cbn. apply length_AddRoundKey; [| exact Hrk].
    rewrite length_ShiftRows, length_SubBytes. exact Hs.
  - change (encryptRounds s (rk :: rk' :: rks'))
      with (encryptRounds (AddRoundKey (MixColumns (ShiftRows (SubBytes s))) rk) (rk' :: rks')).
    apply IH; [| exact Hk].
    apply length_AddRoundKey; [| exact Hrk]. apply length_MixColumns.
    rewrite length_ShiftRows, length_SubBytes. exact Hs.
Qed.

Lemma length_encryptBlock (c : aesCipher) (b : list ascii) :
  wellKeyed c -> length b = 16%nat -> length (encryptBlock c b) = 16%nat.
Proof.
  intros [Hkeys Hn] Hb. unfold encryptBlock.
  destruct (roundKeys c) as [| rk0 rks]; [exact Hb |].
  apply Forall_cons in Hkeys as [Hk0 Hkeys].
  apply length_encryptRounds; [apply length_AddRoundKey; assumption | exact Hkeys].
Qed.

End AESFacts.

(** ** Credentials: the two decoders *)

Module Credentials.

Import Base64 AES Chartsync ProgFacts AESFacts Base64Facts.

(** The cipher both decoders build from the fixed key. *)
Definition fixedCipher : aesCipher := {| roundKeys := KeyExpansion k |}.

Lemma NewCipher_k : NewCipher k = Ok fixedCipher.
Proof. reflexivity. Qed.

Lemma fixedCipher_wellKeyed : wellKeyed fixedCipher.
Proof. split; [vm_compute; repeat constructor | vm_compute; lia]. Qed.

Lemma length_iv : length (firstn BlockSize k) = 16%nat.
Proof. reflexivity. Qed.

(** *** CBC *)

Section CBC.

Variable c : aesCipher.
Hypothesis keyed : wellKeyed c.

Ltac block s Hs :=
  do 16 (destruct s as [| ? s]; [discriminate Hs |]);
  destruct s; [| discriminate Hs]; clear Hs.

Lemma cbcEncryptBlocks_app (iv blk rest : list ascii) :
  length blk = 16%nat ->
  cbcEncryptBlocks c iv (blk ++ rest)
  = encryptBlock c (xorBytes blk iv)
    ++ cbcEncryptBlocks c (encryptBlock c (xorBytes blk iv)) rest.
Proof using Type. intros Hb. block blk Hb. reflexivity. Qed.

Lemma cbcDecryptBlocks_app (iv blk rest : list ascii) :
  length blk = 16%nat ->
  cbcDecryptBlocks c iv (blk ++ rest)
  = xorBytes (decryptBlock c blk) iv ++ cbcDecryptBlocks c blk rest.
Proof using Type. intros Hb. block blk Hb. reflexivity. Qed.

(** A slice of [n] whole blocks is a block and [n - 1] whole blocks. *)
Lemma split_block (p : list ascii) (n : nat) :
  length p = (16 * S n)%nat ->
  exists blk rest, p = blk ++ rest /\ length blk = 16%nat /\ length rest = (16 * n)%nat.
Proof using Type.
  intros Hp. exists (firstn 16 p), (skipn 16 p).
  rewrite firstn_skipn, length_firstn, length_skipn. repeat split; lia.
Qed.

Lemma cbc_roundtrip (n : nat) :
  forall (iv p : list ascii),
    length iv = 16%nat -> length p = (16 * n)%nat ->
    cbcDecryptBlocks c iv (cbcEncryptBlocks c iv p) = p
    /\ length (cbcEncryptBlocks c iv p) = length p.
Proof using keyed.
  induction n as [| n IH]; intros iv p Hiv Hp.
  - destruct p; [split; reflexivity | discriminate].
  - destruct (split_block p n Hp) as (blk & rest & -> & Hblk & Hrest).
    assert (Hx : length (xorBytes blk iv) = 16%nat)
      by (rewrite length_xorBytes; congruence).
    pose proof (length_encryptBlock c _ keyed Hx) as He.
    rewrite cbcEncryptBlocks_app by exact Hblk.
    rewrite cbcDecryptBlocks_app by exact He.
    rewrite decryptBlock_encryptBlock by assumption.
    rewrite xorBytes_cancel by congruence.
    destruct (IH (encryptBlock c (xorBytes blk iv)) rest He Hrest) as [IH1 IH2].
    rewrite IH1, !length_app, IH2, He, Hblk. split; reflexivity.
Qed.

End CBC.

(** *** PKCS#7 *)

Lemma PKCS7Padding_length (data : list ascii) :
  exists n, length (PKCS7Padding data BlockSize) = (16 * n)%nat.
Proof.
  unfold PKCS7Padding, BlockSize. rewrite length_app, repeat_length.
  exists (S (length data / 16)).
  pose proof (Nat.div_mod_eq (length data) 16) as Hd.
  pose proof (Nat.mod_upper_bound (length data) 16 ltac:(lia)) as Hm. lia.
Qed.

Lemma PKCS7UnPadding_PKCS7Padding (data : list ascii) :
  PKCS7UnPadding (PKCS7Padding data BlockSize) = Returned data.
Proof.
  unfold PKCS7UnPadding, PKCS7Padding, BlockSize.
  pose proof (Nat.mod_upper_bound (length data) 16 ltac:(lia)) as Hm.
  set (padding := (16 - length data mod 16)%nat).
  assert (Hpad : (1 <= padding <= 16)%nat) by (unfold padding; lia).
  assert (Hlast : last (data ++ repeat (ascii_of_nat padding) padding)
                  = Some (ascii_of_nat padding)).
  { destruct padding as [| q]; [lia |].
    change (repeat (ascii_of_nat (S q)) (S q))
      with (ascii_of_nat (S q) :: repeat (ascii_of_nat (S q)) q).
    rewrite repeat_cons, app_assoc. apply last_snoc. }
  rewrite Hlast, nat_ascii_embedding by lia.
  rewrite length_app, repeat_length.
  destruct (Nat.ltb_spec (length data + padding) padding) as [Hlt | _]; [lia |].
  replace (length data + padding - padding)%nat with (length data) by lia.
  rewrite firstn_app, firstn_all, Nat.sub_diag. cbn. rewrite app_nil_r. reflexivity.
Qed.

(** *** The older decoder reads what the encoder writes *)

(** C6 for the decoder written in the mode of the envelope: for every
    plaintext [p], [AesDecrypt] gives [p] back from the envelope
    [AesEncrypt p] (AES-CBC under the fixed key, IV the key, PKCS#7
    padding, unpadded URL-safe base64), without panic. *)
Theorem AesDecrypt_AesEncrypt (p : string) : AesDecrypt (AesEncrypt p) = Returned p.
Proof.
  unfold AesDecrypt, AesEncrypt. rewrite NewCipher_k.
  rewrite DecodeString_EncodeToString.
  destruct (PKCS7Padding_length (list_ascii_of_string p)) as [n Hn].
  destruct (cbc_roundtrip fixedCipher fixedCipher_wellKeyed n (firstn BlockSize k)
              (PKCS7Padding (list_ascii_of_string p) BlockSize) length_iv Hn)
    as [Hrt Hlen].
  unfold CBCDecrypt. rewrite length_iv, Hlen, Hn.
  change (16 =? BlockSize)%nat with true.
  replace ((16 * n) mod BlockSize =? 0)%nat with true
    by (symmetry; apply Nat.eqb_eq; unfold BlockSize; rewrite Nat.mul_comm;
        apply Nat.Div0.mod_mul).
  cbn [negb obind]. rewrite Hrt, PKCS7UnPadding_PKCS7Padding. cbn [obind].
  rewrite string_of_list_ascii_of_string. reflexivity.
Qed.

(** *** The decoder of oss.go recovers; the older one does not *)

(** No panic leaves [Decrypt]: its deferred function recovers. *)
Lemma Decrypt_returns (encrypted : string) : returns (Decrypt encrypted).
Proof.
  unfold Decrypt. apply returns_recovering.
  intros v. constructor. intros _. constructor.
Qed.

(** A panic inside [Decrypt] is logged, and the results are the zero
    values. *)
Example Decrypt_recovers_and_logs :
  exec Samples.quiet (Decrypt "AAAA") tt
  = (Returned ("", None), tt,
     [called (KlogError "runtime error: slice bounds out of range")]).
Proof. vm_compute. reflexivity. Qed.

(** C8, where the code departs from it: [Decrypt] returns on every
    input, but nothing recovers a panic of the older decoder.
    [AesDecrypt] panics on the empty string (the last byte of an empty
    slice is indexed), on input that is not whole blocks, and
    [AckDecodeLegacy] hands the panic on to its caller. *)
Theorem AesDecrypt_panic_escapes :
  (forall (W : Type) (h : handler W) (w : W) (encrypted : string),
      exists r, outcomeOf h (Decrypt encrypted) w = Returned r)
  /\ AesDecrypt "" = Panicked "runtime error: index out of range [-1]"
  /\ AesDecrypt "LTAI4FoLmvQ9urWXgSRpDvh1" = Panicked "crypto/cipher: input not full blocks"
  /\ AckDecodeLegacy
       {| V1.CloudProvider := Ali; V1.RegionId := "oss-cn-hangzhou"; V1.Bucket := "charts";
          V1.Key := "podinfo-1.0.0.tgz"; V1.AckId := ""; V1.AckSecret := "";
          V1.AckEncrypted := true; V1.UseCache := false |}
     = Panicked "runtime error: index out of range [-1]".
Proof.
  split; [| repeat split; vm_compute; reflexivity].
  intros W h w encrypted. apply returns_exec, Decrypt_returns.
Qed.

(** *** The decoder of oss.go does not read the envelope *)

Definition thirtyThree : string :=
  "aaaaaaaaaaaaaaaaaaaaaaaaaaaaaaaaa".

(** C6, as stated of the decoder that [AckDecode] uses, fails.  The
    envelope of ["a"] is 22 characters of unpadded base64, which the
    standard encoding rejects; the envelope of 33 letters is accepted,
    and decrypted block by block without the chaining, to a string that
    is not the plaintext, with a nil error. *)
Lemma Decrypt_does_not_read_envelope :
  Decrypt (AesEncrypt "a") = Ret ("", Some (CorruptInputError 20))
  /\ (exists garbled,
        Decrypt (AesEncrypt thirtyThree) = Ret (garbled, None)
        /\ garbled <> thirtyThree
        /\ String.length garbled = 34%nat)
  /\ AesDecrypt (AesEncrypt "a") = Returned "a"
  /\ AesDecrypt (AesEncrypt thirtyThree) = Returned thirtyThree.
Proof.
  split; [vm_compute; reflexivity |].
  split; [| split; vm_compute; reflexivity].
  eexists. split; [vm_compute; reflexivity |].
  split; [discriminate | reflexivity].
Qed.

(** *** AckDecode touches the credentials only *)

(** The fields of the source other than [AckId] and [AckSecret]. *)
Definition sameElsewhere (oss oss' : V1.Oss) : Prop :=
  V1.CloudProvider oss' = V1.CloudProvider oss
  /\ V1.RegionId oss' = V1.RegionId oss
  /\ V1.Bucket oss' = V1.Bucket oss
  /\ V1.Key oss' = V1.Key oss
  /\ V1.AckEncrypted oss' = V1.AckEncrypted oss
  /\ V1.UseCache oss' = V1.UseCache oss.

Lemma sameElsewhere_refl (oss : V1.Oss) : sameElsewhere oss oss.
Proof. repeat split. Qed.

Lemma sameElsewhere_setAck (oss : V1.Oss) (ackId ackSecret : string) :
  sameElsewhere oss (setAck oss ackId ackSecret).
Proof. repeat split. Qed.

(** What [AckDecode] may leave behind. *)
Definition decoded (oss : V1.Oss) (res : V1.Oss * option error) : Prop :=
  let (oss', err) := res in
  sameElsewhere oss oss'
  /\ (V1.AckEncrypted oss = false -> oss' = oss /\ err = None)
  /\ (err <> None -> oss' = oss).

Lemma AckDecode_decoded (oss : V1.Oss) : returnsWith (decoded oss) (AckDecode oss).
Proof.
  unfold AckDecode. destruct (V1.AckEncrypted oss) eqn:Henc.
  - apply (returnsWith_bind (fun _ => True));
      [apply returns_returnsWith, Decrypt_returns |].
    intros [ackId [e |]] _.
    + constructor. split; [apply sameElsewhere_refl |].
      split; [intros Hf; congruence | intros _; reflexivity].
    + apply (returnsWith_bind (fun _ => True));
        [apply returns_returnsWith, Decrypt_returns |].
      intros [ackSecret [e |]] _; constructor.
      * split; [apply sameElsewhere_refl |].
        split; [intros Hf; congruence | intros _; reflexivity].
      * split; [apply sameElsewhere_setAck |].
        split; [intros Hf; congruence | intros Hne; congruence].
  - constructor. split; [apply sameElsewhere_refl |].
    split; [intros _; split; reflexivity | intros _; reflexivity].
Qed.

(** The run of [AckDecode] on encrypted credentials, by the runs of
    [Decrypt] on the two fields. *)
Lemma exec_AckDecode {W : Type} (h : handler W) (w : W) (oss : V1.Oss) :
  V1.AckEncrypted oss = true ->
  exec h (AckDecode oss) w
  = match exec h (Decrypt (V1.AckId oss)) w with
    | (Returned (ackId, None), w1, calls) =>
        match exec h (Decrypt (V1.AckSecret oss)) w1 with
        | (Returned (ackSecret, None), w2, calls') =>
            (Returned (setAck oss ackId ackSecret, None), w2, calls ++ calls')
        | (Returned (_, Some e), w2, calls') => (Returned (oss, Some e), w2, calls ++ calls')
        | (Panicked v, w2, calls') => (Panicked v, w2, calls ++ calls')
        end
    | (Returned (_, Some e), w1, calls) => (Returned (oss, Some e), w1, calls)
    | (Panicked v, w1, calls) => (Panicked v, w1, calls)
    end.
Proof.
  intros Henc. unfold AckDecode. rewrite Henc.
  unfold mbind, Prog_bind. rewrite exec_bind.
  destruct (exec h (Decrypt (V1.AckId oss)) w) as [[[[ackId [e |]] | v] w1] calls];
    [cbn; rewrite app_nil_r; reflexivity | | reflexivity].
  rewrite exec_bind.
  destruct (exec h (Decrypt (V1.AckSecret oss)) w1) as [[[[ackSecret [e |]] | v] w2] calls'];
    [| | reflexivity]; cbn; rewrite app_nil_r; reflexivity.
Qed.

(** C10: for every Oss source, [AckDecode] returns; with
    [AckEncrypted = false] the source is entirely unchanged (and no
    call is made); with [AckEncrypted = true] every field other than
    [AckId] and [AckSecret] is unchanged, whether or not the two
    decryptions succeed; when both succeed, [AckId] and [AckSecret] are
    what [Decrypt] gave for them, and on an error nothing is changed at
    all. *)
Theorem AckDecode_frame {W : Type} (h : handler W) (w : W) (oss : V1.Oss) :
  exists (oss' : V1.Oss) (err : option error),
    outcomeOf h (AckDecode oss) w = Returned (oss', err)
    /\ sameElsewhere oss oss'
    /\ (V1.AckEncrypted oss = false ->
        oss' = oss /\ err = None /\ callsOf h (AckDecode oss) w = [])
    /\ (V1.AckEncrypted oss = true ->
        forall ackId ackSecret : string,
          outcomeOf h (Decrypt (V1.AckId oss)) w = Returned (ackId, None) ->
          outcomeOf h (Decrypt (V1.AckSecret oss)) (worldOf h (Decrypt (V1.AckId oss)) w)
          = Returned (ackSecret, None) ->
          err = None /\ V1.AckId oss' = ackId /\ V1.AckSecret oss' = ackSecret)
    /\ (err <> None -> oss' = oss).
Proof.
  destruct (returnsWith_exec (decoded oss) h (AckDecode oss) w (AckDecode_decoded oss))
    as ([oss' err] & Hout & Hsame & Hplain & Herr).
  exists oss', err. split; [exact Hout |]. split; [exact Hsame |].
  split; [| split; [| exact Herr]].
  - intros Henc. destruct (Hplain Henc) as [-> ->]. repeat split.
    unfold callsOf, AckDecode. rewrite Henc. reflexivity.
  - intros Henc ackId ackSecret Hid Hsecret.
    unfold outcomeOf, worldOf in *. rewrite (exec_AckDecode h w oss Henc) in Hout.
    destruct (exec h (Decrypt (V1.AckId oss)) w) as [[o w1] calls].
    cbn in Hid, Hsecret. subst o.
    destruct (exec h (Decrypt (V1.AckSecret oss)) w1) as [[o w2] calls'].
    cbn in Hsecret. subst o. cbn in Hout. injection Hout as <- <-.
    repeat split.
Qed.

(** [AckDecode] on a source with encrypted credentials in the form its
    decoder reads (AES-ECB, standard base64): both are decoded, the rest
    is as it was. *)
Example AckDecode_encrypted :
  outcomeOf Samples.quiet
    (AckDecode {| V1.CloudProvider := Ali; V1.RegionId := "oss-cn-hangzhou";
                  V1.Bucket := "charts"; V1.Key := "podinfo-1.0.0.tgz";
                  V1.AckId := "8p9OT/eLlcpwBYjV9aueUw==";
                  V1.AckSecret := "8p9OT/eLlcpwBYjV9aueUw==";
                  V1.AckEncrypted := true; V1.UseCache := false |}) tt
  = Returned ({| V1.CloudProvider := Ali; V1.RegionId := "oss-cn-hangzhou";
                 V1.Bucket := "charts"; V1.Key := "podinfo-1.0.0.tgz";
                 V1.AckId := "a"; V1.AckSecret := "a";
                 V1.AckEncrypted := true; V1.UseCache := false |}, None).
Proof. vm_compute. reflexivity. Qed.

End Credentials.

(** ** Nested fields of unstructured objects *)

Module UnstructuredFacts.

Import Unstructured.

(** The levels above the last field of a path are maps where they
    exist: the condition under which a nested field can be set. *)
Fixpoint levelsOk (obj : t) (fields : list string) : bool :=
  match fields with
  | [] => false
  | [f] => true
  | f :: fields' =>
      match obj !! f with
      | Some (Object m) => levelsOk m fields'
      | Some _ => false
      | None => true
      end
  end.

(** Two paths part ways at some field, before either ends. *)
Fixpoint diverge (p q : list string) : bool :=
  match p, q with
  | a :: p', b :: q' => if String.eqb a b then diverge p' q' else true
  | _, _ => false
  end.

(** The string map at a path holds [v] under [k]. *)
Definition labelled (obj : t) (path : list string) (k v : string) : Prop :=
  exists m, NestedStringMap obj path = Some m /\ m !! k = Some v.

Lemma toStringMap_fmap (m : gmap string string) : toStringMap (Str <$> m) = Some m.
Proof.
  unfold toStringMap. rewrite decide_True.
  - f_equal. apply map_eq. intros i. rewrite lookup_omap, lookup_fmap.
    destruct (m !! i); reflexivity.
  - intros i v Hv. rewrite lookup_fmap in Hv.
    destruct (m !! i); [| discriminate]. injection Hv as <-. eexists. reflexivity.
Qed.

Lemma setNestedField_unfold (obj : t) (val : value) (f g : string) (fields : list string) :
  setNestedField obj val (f :: g :: fields) =
  match obj !! f with
  | Some (Object m) =>
      match setNestedField m val (g :: fields) with
      | Some m' => Some (<[f := Object m']> obj)
      | None => None
      end
  | Some _ => None
  | None =>
      match setNestedField ∅ val (g :: fields) with
      | Some m' => Some (<[f := Object m']> obj)
      | None => None
      end
  end.
Proof. reflexivity. Qed.

Lemma setNestedField_empty (val : value) (fields : list string) :
  fields <> [] -> is_Some (setNestedField ∅ val fields).
Proof.
  induction fields as [| f [| g fields] IH]; intros Hne;
    [contradiction | eexists; reflexivity |].
  rewrite setNestedField_unfold, lookup_empty.
  destruct IH as [m' ->]; [discriminate |]. eexists. reflexivity.
Qed.

Lemma levelsOk_unfold (obj : t) (f g : string) (fields : list string) :
  levelsOk obj (f :: g :: fields) =
  match obj !! f with
  | Some (Object m) => levelsOk m (g :: fields)
  | Some _ => false
  | None => true
  end.
Proof. reflexivity. Qed.

(** A field can be set exactly when the levels above it allow it. *)
Lemma setNestedField_levelsOk (val : value) (fields : list string) :
  forall obj : t, levelsOk obj fields = true <-> is_Some (setNestedField obj val fields).
Proof.
  induction fields as [| f [| g fields] IH]; intros obj.
  - cbn. split; [discriminate | intros [x Hx]; discriminate].
  - cbn. split; [eexists; reflexivity | reflexivity].
  - rewrite setNestedField_unfold, levelsOk_unfold.
    destruct (obj !! f) as [[| b | n | s | l | m] |];
      try (split; [discriminate | intros [x Hx]; discriminate]).
    + rewrite IH. destruct (setNestedField m val (g :: fields));
        split; intros [x Hx]; try discriminate; eexists; reflexivity.
    + split; [| reflexivity]. intros _.
      destruct (setNestedField_empty val (g :: fields)) as [m' ->]; [discriminate |].
      eexists. reflexivity.
Qed.

(** What was set is read back. *)
Lemma get_set (val : value) (fields : list string) :
  forall obj obj' : t,
    setNestedField obj val fields = Some obj' ->
    NestedFieldNoCopy (Object obj') fields = Some val.
Proof.
  induction fields as [| f [| g fields] IH]; intros obj obj'.
  - discriminate.
  - cbn. intros [= <-]. rewrite lookup_insert_eq. reflexivity.
  - rewrite setNestedField_unfold. intros Hset.
    assert (Hsub : exists m m', setNestedField m val (g :: fields) = Some m'
                               /\ obj' = <[f := Object m']> obj).
    { destruct (obj !! f) as [[| b | n | s | l | m] |]; try discriminate.
      - destruct (setNestedField m val (g :: fields)) as [m' |] eqn:Hm; [| discriminate].
        injection Hset as <-. eauto.
      - destruct (setNestedField ∅ val (g :: fields)) as [m' |] eqn:Hm; [| discriminate].
        injection Hset as <-. eauto. }
    destruct Hsub as (m & m' & Hm & ->).
    change (NestedFieldNoCopy (Object (<[f := Object m']> obj)) (f :: g :: fields))
      with (match <[f := Object m']> obj !! f with
            | Some v' => NestedFieldNoCopy v' (g :: fields)
            | None => None
            end).
    rewrite lookup_insert_eq. apply (IH m m' Hm).
Qed.

(** A path that parts ways with the one set reads what it read before,
    and can be set if it could before. *)
Lemma frame_set (val : value) (p : list string) :
  forall (q : list string) (obj obj' : t),
    setNestedField obj val p = Some obj' ->
    diverge p q = true ->
    NestedFieldNoCopy (Object obj') q = NestedFieldNoCopy (Object obj) q
    /\ levelsOk obj' q = levelsOk obj q.
Proof.
  induction p as [| f [| g p] IH]; intros q obj obj' Hset Hdiv.
  - discriminate.
  - destruct q as [| b q]; [discriminate |]. cbn in Hdiv, Hset.
    destruct (String.eqb_spec f b) as [-> | Hne]; [discriminate |].
    injection Hset as <-.
    split.
    + cbn. rewrite lookup_insert_ne by exact Hne. reflexivity.
    + destruct q as [| c q]; [reflexivity |].
      rewrite !levelsOk_unfold, lookup_insert_ne by exact Hne. reflexivity.
  - destruct q as [| b q]; [discriminate |].
    rewrite setNestedField_unfold in Hset.
    cbn [diverge] in Hdiv.
    destruct (String.eqb_spec f b) as [<- | Hne].
    + destruct (obj !! f) as [[| b' | n | s | l | m] |] eqn:Hf; try discriminate.
      * destruct (setNestedField m val (g :: p)) as [m' |] eqn:Hm; [| discriminate].
        injection Hset as <-.
        destruct (IH q m m' Hm Hdiv) as [Hget Hok].
        split.
        -- cbn [NestedFieldNoCopy]. destruct q as [| c q]; [discriminate |].
           change (match <[f := Object m']> obj !! f with
                   | Some v' => NestedFieldNoCopy v' (c :: q)
                   | None => None
                   end
                   = match obj !! f with
                     | Some v' => NestedFieldNoCopy v' (c :: q)
                     | None => None
                     end).
           rewrite lookup_insert_eq, Hf. exact Hget.
        -- destruct q as [| c q]; [discriminate |].
           rewrite !levelsOk_unfold, lookup_insert_eq, Hf. exact Hok.
      * destruct (setNestedField ∅ val (g :: p)) as [m' |] eqn:Hm; [| discriminate].
        injection Hset as <-.
        destruct (IH q ∅ m' Hm Hdiv) as [Hget Hok].
        destruct q as [| c q]; [discriminate |].
        split.
        -- change (match <[f := Object m']> obj !! f with
                   | Some v' => NestedFieldNoCopy v' (c :: q)
                   | None => None
                   end
                   = match obj !! f with
                     | Some v' => NestedFieldNoCopy v' (c :: q)
                     | None => None
                     end).
           rewrite lookup_insert_eq, Hf. rewrite Hget. cbn. rewrite lookup_empty.
           reflexivity.
        -- rewrite !levelsOk_unfold, lookup_insert_eq, Hf. rewrite Hok.
           destruct q as [| d q]; [reflexivity |].
           rewrite levelsOk_unfold, lookup_empty. reflexivity.
    + assert (Hobj : exists m', obj' = <[f := Object m']> obj).
      { destruct (obj !! f) as [[| b' | n | s | l | m] |]; try discriminate.
        - destruct (setNestedField m val (g :: p)) as [m' |]; [| discriminate].
          injection Hset as <-. eauto.
        - destruct (setNestedField ∅ val (g :: p)) as [m' |]; [| discriminate].
          injection Hset as <-. eauto. }
      destruct Hobj as [m' ->].
      split.
      * cbn. rewrite lookup_insert_ne by exact Hne. reflexivity.
      * destruct q as [| c q]; [reflexivity |].
        rewrite !levelsOk_unfold, lookup_insert_ne by exact Hne. reflexivity.
Qed.

(** After a field was set, it can be set again. *)
Lemma levelsOk_set (val : value) (p : list string) :
  forall obj obj' : t, setNestedField obj val p = Some obj' -> levelsOk obj' p = true.
Proof.
  induction p as [| f [| g p] IH]; intros obj obj' Hset.
  - discriminate.
  - reflexivity.
  - rewrite setNestedField_unfold in Hset. rewrite levelsOk_unfold.
    destruct (obj !! f) as [[| b' | n | s | l | m] |]; try discriminate.
    + destruct (setNestedField m val (g :: p)) as [m' |] eqn:Hm; [| discriminate].
      injection Hset as <-. rewrite lookup_insert_eq. apply (IH m m' Hm).
    + destruct (setNestedField ∅ val (g :: p)) as [m' |] eqn:Hm; [| discriminate].
      injection Hset as <-. rewrite lookup_insert_eq. apply (IH ∅ m' Hm).
Qed.

(** Setting a string map where the levels allow it: it is read back. *)
Lemma NestedStringMap_set (obj : t) (m : gmap string string) (path : list string) :
  levelsOk obj path = true ->
  NestedStringMap (SetNestedStringMap obj m path) path = Some m
  /\ levelsOk (SetNestedStringMap obj m path) path = true.
Proof.
  intros Hok. unfold SetNestedStringMap, NestedStringMap.
  apply (setNestedField_levelsOk (Object (Str <$> m))) in Hok as [obj' Hset].
  rewrite Hset, (get_set _ _ _ _ Hset), toStringMap_fmap.
  split; [reflexivity | apply (levelsOk_set _ _ _ _ Hset)].
Qed.

(** Setting a string map elsewhere changes neither what a path reads
    nor whether it can be set. *)
Lemma SetNestedStringMap_frame (obj : t) (m : gmap string string) (p q : list string) :
  diverge p q = true ->
  NestedFieldNoCopy (Object (SetNestedStringMap obj m p)) q = NestedFieldNoCopy (Object obj) q
  /\ levelsOk (SetNestedStringMap obj m p) q = levelsOk obj q.
Proof.
  intros Hdiv. unfold SetNestedStringMap.
  destruct (setNestedField obj (Object (Str <$> m)) p) as [obj' |] eqn:Hset;
    [| split; reflexivity].
  apply (frame_set _ _ _ _ _ Hset Hdiv).
Qed.

Lemma labelled_frame (obj : t) (m : gmap string string) (p q : list string) (k v : string) :
  diverge p q = true -> labelled obj q k v -> labelled (SetNestedStringMap obj m p) q k v.
Proof.
  intros Hdiv (m' & Hm' & Hk). exists m'. split; [| exact Hk].
  unfold NestedStringMap in *.
  rewrite (proj1 (SetNestedStringMap_frame obj m p q Hdiv)). exact Hm'.
Qed.

(** A path that reads a string map can be set. *)
Lemma NestedFieldNoCopy_levelsOk (fields : list string) :
  forall (obj : t) (v : value),
    fields <> [] -> NestedFieldNoCopy (Object obj) fields = Some v ->
    levelsOk obj fields = true.
Proof.
  induction fields as [| f [| g fields] IH]; intros obj v Hne Hget;
    [contradiction | reflexivity |].
  rewrite levelsOk_unfold.
  change (match obj !! f with
          | Some v' => NestedFieldNoCopy v' (g :: fields)
          | None => None
          end = Some v) in Hget.
  destruct (obj !! f) as [[| b' | n | s | l | m] |]; try discriminate.
  apply (IH m v); [discriminate | exact Hget].
Qed.


End UnstructuredFacts.

(** ** The post-render transformer *)

Module PostRender.

Import Release Unstructured UnstructuredFacts ProgFacts.

Definition metadataLabels : list string := ["metadata"; "labels"].

(** The properties of a rendered object. *)
Definition identified (hr : V1.HelmRelease) (path : list string) (u : t) : Prop :=
  labelled u path AppIdLabelKey (V1.AppId (V1.Spec hr))
  /\ labelled u path ComponentIdLabelKey (V1.ComponentId (V1.Spec hr)).



(** The steps of the loop body, without the cluster. *)
Definition withLabels (hr : V1.HelmRelease) (u : t) : t :=
  SetLabels u (<[ComponentIdLabelKey := V1.ComponentId (V1.Spec hr)]>
                 (<[AppIdLabelKey := V1.AppId (V1.Spec hr)]> (orEmpty (GetLabels u)))).




Definition deployment : t :=
  {[ "kind" := Str "Deployment";
     "metadata" := Object {[ "name" := Str "podinfo" ]} ]}.

(** An object whose metadata is not a map. *)
Definition oddObject : t :=
  {[ "kind" := Str "ConfigMap"; "metadata" := Str "podinfo" ]}.

(** A splitter that knows two manifests. *)
Definition twoManifests : Manifests :=
  {| releaseManifestToUnstructured := fun s =>
       if String.eqb s "deployment.yaml" then [deployment]
       else if String.eqb s "odd.yaml" then [oddObject]
       else [];
     Marshal := fun u => GetKind u |}.


Section Transformer.

Variable hr : V1.HelmRelease.


Lemma identified_frame (u : t) (m : gmap string string) (p q : list string) :
  diverge p q = true -> identified hr q u -> identified hr q (SetNestedStringMap u m p).
Proof. intros Hd [Ha Hc]. split; apply labelled_frame; assumption. Qed.

Lemma GetKind_frame (u : t) (m : gmap string string) (p : list string) :
  diverge p ["kind"] = true -> GetKind (SetNestedStringMap u m p) = GetKind u.
Proof.
  intros Hd. unfold GetKind, getNestedString.
  rewrite (proj1 (SetNestedStringMap_frame u m p ["kind"] Hd)). reflexivity.
Qed.


Lemma GetKind_withLabels (u : t) : GetKind (withLabels hr u) = GetKind u.
Proof. apply GetKind_frame. reflexivity. Qed.









End Transformer.



(** The labels and the annotation of that Deployment, looked up. *)
Example postRender_deployment :
  match outcomeOf Samples.quiet
          (@postRender twoManifests Samples.syncedResource "deployment.yaml") tt with
  | Returned (Some [u'], out) =>
      out = @writeObjects twoManifests [u']
      /\ map (fun path => NestedStringMap u' path ≫= (.!! AppIdLabelKey))
           [metadataLabels; matchLabelsPath; templateLabelsPath]
         = [Some "app-1"; Some "app-1"; Some "app-1"]
      /\ map (fun path => NestedStringMap u' path ≫= (.!! ComponentIdLabelKey))
           [metadataLabels; matchLabelsPath; templateLabelsPath]
         = [Some ""; Some ""; Some ""]
      /\ GetAnnotations u' ≫= (.!! LogCollectAnnotateKey) = Some "true"
  | _ => False
  end.
Proof. vm_compute. repeat apply conj; reflexivity. Qed.


End PostRender.

(** ** Sync and Uninstall: what is deferred, and what a failure stops *)

Module SyncRun.

Import Release ProgFacts.

(** The resource as [prepareChart] may leave it: as it was, or, when
    the chart comes from the object store (no other source is usable)
    and the credentials of that source are marked as encrypted, with
    [AckId] and [AckSecret] of the source replaced and nothing else
    changed. *)
Definition resourceAfter (hr hr' : V1.HelmRelease) : Prop :=
  hr' = hr
  \/ exists (oss : V1.Oss) (ackId ackSecret : string),
       gitSourceSet hr = None /\ repoSourceSet hr = None /\ customizeSet hr = None
       /\ V1.Oss_ (V1.Spec hr) = Some oss
       /\ V1.AckEncrypted oss = true
       /\ hr' = setOss hr (Chartsync.setAck oss ackId ackSecret).

(** What [prepareChart] hands back. *)
Definition preparedFrom (hr : V1.HelmRelease)
  (res : V1.HelmRelease * (chart * option Export * option error)) : Prop :=
  let '(hr', (c, cleanup, err)) := res in
  resourceAfter hr hr'
  /\ (err <> None -> c = noChart /\ cleanup = None)
  /\ (cleanup <> None <-> (gitSourceSet hr <> None /\ err = None)).

(** The source as the decoding of its credentials may leave it. *)
Definition credentialsDecoded (oss oss' : V1.Oss) : Prop :=
  oss' = oss
  \/ (V1.AckEncrypted oss = true
      /\ exists ackId ackSecret : string, oss' = Chartsync.setAck oss ackId ackSecret).

(** Writing back the source that a resource has changes nothing. *)
Lemma setOss_same (hr : V1.HelmRelease) (oss : V1.Oss) :
  V1.Oss_ (V1.Spec hr) = Some oss -> setOss hr oss = hr.
Proof.
  destruct hr as [ns name generation annotations sp st]. destruct sp. cbn.
  intros ->. reflexivity.
Qed.

Lemma NewProvider_source (oss : V1.Oss) (base : string) (p : Chartsync.Provider) :
  Chartsync.NewProvider oss base = Ok p -> Chartsync.providerOss p = oss.
Proof.
  unfold Chartsync.NewProvider.
  destruct (String.eqb _ Chartsync.Ali); [intros [= <-]; reflexivity |].
  destruct (String.eqb _ Chartsync.Huawei); [intros [= <-]; reflexivity | discriminate].
Qed.

Section Run.

Context `{V1.Accessors} `{Helm.StatusAPI} `{Chartsync.FilePath}.

Lemma revisionOf_prepared (client : Client) (hr : V1.HelmRelease) (path : string) :
  returnsWith (fun '(c, cleanup, err) =>
                 (err <> None -> c = noChart /\ cleanup = None) /\ cleanup = None)
    (revisionOf client hr path).
Proof.
  unfold revisionOf. constructor. intros [rev | e]; constructor.
  - split; [intros Hf; congruence | reflexivity].
  - split; [intros _; split; reflexivity | reflexivity].
Qed.

Lemma AckDecode_credentials (oss : V1.Oss) :
  returnsWith (fun res => credentialsDecoded oss (fst res)) (Chartsync.AckDecode oss).
Proof.
  unfold Chartsync.AckDecode. destruct (V1.AckEncrypted oss) eqn:Henc;
    [| constructor; left; reflexivity].
  apply (returnsWith_bind (fun _ => True));
    [apply returns_returnsWith, Credentials.Decrypt_returns |].
  intros [ackId [e |]] _; [constructor; left; reflexivity |].
  apply (returnsWith_bind (fun _ => True));
    [apply returns_returnsWith, Credentials.Decrypt_returns |].
  intros [ackSecret [e |]] _; constructor; [left; reflexivity |].
  right. split; [exact Henc |]. exists ackId, ackSecret. reflexivity.
Qed.

Lemma fetchObject_returns (p : Chartsync.Provider) (oss : V1.Oss) (cachePath : string) :
  returns (Chartsync.fetchObject p oss cachePath).
Proof.
  destruct p; cbn.
  - constructor. intros [e |]; [constructor |].
    constructor. intros [e |]; [constructor |].
    constructor. intros [e |]; constructor.
  - constructor. intros [e |]; [constructor |].
    constructor. intros [e |]; cbn; constructor; intros; constructor.
Qed.

(** [DownloadFile] of a provider changes its source by decoding the
    credentials, and in no other way. *)
Lemma ProviderDownloadFile_credentials (p : Chartsync.Provider) (useCache : bool) :
  returnsWith (fun res => credentialsDecoded (Chartsync.providerOss p) (fst res))
    (Chartsync.ProviderDownloadFile p useCache).
Proof.
  unfold Chartsync.ProviderDownloadFile.
  apply (returnsWith_bind (fun _ => True)).
  - destruct useCache; [| constructor; exact I].
    constructor. intros _. constructor. intros e. constructor. exact I.
  - intros [|] _; [constructor; left; reflexivity |].
    apply (returnsWith_bind _ _ _ _ (AckDecode_credentials _)).
    intros [oss' [e |]] Hdecoded; [constructor; exact Hdecoded |].
    apply (returnsWith_bind (fun _ => True));
      [apply returns_returnsWith, fetchObject_returns |].
    intros r _. constructor. exact Hdecoded.
Qed.

Lemma ProviderDownloadFile_returns (p : Chartsync.Provider) (useCache : bool) :
  returns (Chartsync.ProviderDownloadFile p useCache).
Proof.
  pose proof (ProviderDownloadFile_credentials p useCache) as Hr.
  induction Hr; constructor; auto.
Qed.

Lemma prepareChart_prepared (r : Release) (client : Client) (hr : V1.HelmRelease) :
  returnsWith (preparedFrom hr) (prepareChart r client hr).
Proof.
  unfold prepareChart, preparedFrom.
  destruct (gitSourceSet hr) as [g |] eqn:Hgit.
  { constructor. intros [[export revision] | e].
    - constructor. intros i.
      apply (returnsWith_bind (fun _ => True)).
      + destruct (_ && _); [constructor; intros; constructor; exact I | constructor; exact I].
      + intros [e |] _; constructor.
        * split; [left; reflexivity |]. split; [intros _; split; reflexivity |].
          split; [intros Hf; congruence | intros [_ Hf]; congruence].
        * split; [left; reflexivity |]. split; [intros Hf; congruence |].
          split; [intros _; split; congruence | intros _; congruence].
    - constructor. split; [left; reflexivity |]. split; [intros _; split; reflexivity |].
      split; [intros Hf; congruence | intros [_ Hf]; congruence]. }
  assert (Hrev : forall (hr0 hr' : V1.HelmRelease) (path : string),
             resourceAfter hr hr' ->
             returnsWith
               (fun '(hr', (c, cleanup, err)) =>
                  resourceAfter hr hr'
                  /\ (err <> None -> c = noChart /\ cleanup = None)
                  /\ (cleanup <> None <-> (None <> None :> option V1.GitChartSource) /\ err = None))
               (c ← revisionOf client hr0 path; mret (hr', c))).
  { intros hr0 hr' path Hafter.
    apply (returnsWith_bind _ _ _ _ (revisionOf_prepared client hr0 path)).
    intros [[c cleanup] err] [Herr ->]. constructor.
    split; [exact Hafter |]. split; [exact Herr |].
    split; [intros Hf; congruence | intros [Hf _]; congruence]. }
  assert (Hfail : forall (hr' : V1.HelmRelease) (e : error),
             resourceAfter hr hr' ->
             resourceAfter hr hr'
             /\ (Some e <> None -> noChart = noChart /\ (None : option Export) = None)
             /\ ((None : option Export) <> None
                 <-> (None <> None :> option V1.GitChartSource) /\ Some e = None)).
  { intros hr' e Hafter. split; [exact Hafter |]. split; [intros _; split; reflexivity |].
    split; [intros Hf; congruence | intros [Hf _]; congruence]. }
  destruct (repoSourceSet hr) as [s |] eqn:Hrepo.
  { constructor. intros [[path fetched] | e].
    - apply Hrev. left. reflexivity.
    - constructor. apply Hfail. left. reflexivity. }
  destruct (customizeSet hr) as [c |] eqn:Hcust.
  { constructor. intros [path | e].
    - apply Hrev. left. reflexivity.
    - constructor. apply Hfail. left. reflexivity. }
  destruct (V1.Oss_ (V1.Spec hr)) as [oss |] eqn:Hoss.
  { destruct (Chartsync.NewProvider oss (ChartCache (config r))) as [p | e] eqn:Hp.
    - assert (Hafter : forall oss', credentialsDecoded (Chartsync.providerOss p) oss' ->
                                    resourceAfter hr (setOss hr oss')).
      { intros oss'. rewrite (NewProvider_source _ _ _ Hp).
        intros [-> | [Henc (ackId & ackSecret & ->)]].
        - left. apply setOss_same, Hoss.
        - right. exists oss, ackId, ackSecret. repeat split; assumption. }
      apply (returnsWith_bind _ _ _ _ (ProviderDownloadFile_credentials p (V1.UseCache oss))).
      intros [oss' [path | e]] Hdecoded.
      + apply Hrev, Hafter, Hdecoded.
      + constructor. apply Hfail, Hafter, Hdecoded.
    - constructor. apply Hfail. left. reflexivity. }
  constructor. apply Hfail. left. reflexivity.
Qed.

(** X1: [prepareChart] always returns.  On an error the chart is the zero
    chart and there is nothing to clean up; a clean-up is handed back
    exactly when the chart came from the git mirror without error; and
    the resource is as it was, unless the chart comes from the object
    store and the credentials of that source are marked as encrypted:
    then only [AckId] and [AckSecret] of the source may have changed,
    decoded in place by [DownloadFile]. *)
Theorem prepareChart_result {W : Type} (h : handler W) (w : W) (r : Release)
  (client : Client) (hr : V1.HelmRelease) :
  exists (hr' : V1.HelmRelease) (c : chart) (cleanup : option Export) (err : option error),
    outcomeOf h (prepareChart r client hr) w = Returned (hr', (c, cleanup, err))
    /\ resourceAfter hr hr'
    /\ (err <> None -> c = noChart /\ cleanup = None)
    /\ (cleanup <> None <-> (gitSourceSet hr <> None /\ err = None)).
Proof.
  destruct (returnsWith_exec _ h _ w (prepareChart_prepared r client hr))
    as ([hr' [[c cleanup] err]] & Hout & Hprep).
  exists hr', c, cleanup, err. split; [exact Hout | exact Hprep].
Qed.

(** The call that [Sync] defers first. *)
Definition observed (hr hr' : V1.HelmRelease) : Call :=
  called (SetObservedGeneration (V1.Namespace hr) hr' (V1.Generation hr)).

Lemma resourceAfter_observed (hr hr' : V1.HelmRelease) :
  resourceAfter hr hr' ->
  called (SetObservedGeneration (V1.Namespace hr') hr' (V1.Generation hr')) = observed hr hr'.
Proof. intros [-> | (oss & ackId & ackSecret & _ & _ & _ & _ & _ & ->)]; reflexivity. Qed.

(** The body of [Sync] once the chart is there: the phase when the
    chart changed, the values, the decision, and the loop. *)
Definition afterChart (r : Release) (client : Client) (hr : V1.HelmRelease) (c : chart)
  : Prog (option error) :=
  (if changed c then phase hr V1.HelmReleasePhaseChartFetched else mret tt);;
  v ← call (composeValues hr (chartPath c));
  match v with
  | Err e =>
      call (SetStatusPhase (V1.GetTargetNamespace hr) hr V1.HelmReleasePhaseFailed);;
      mret (Some (Errorf "failed to compose values for release: %w" [ArgErr e]))
  | Ok values =>
      '(a, curRel, err) ← determineSyncAction r client hr c;
      match err with
      | Some e =>
          call (SetStatusPhase (V1.GetTargetNamespace hr) hr V1.HelmReleasePhaseFailed);;
          mret (Some (Errorf "failed to determine sync action for release: %w" [ArgErr e]))
      | None => run r client a hr curRel c values
      end
  end.

(** What [Sync] does once [prepareChart] has returned. *)
Lemma exec_Sync {W : Type} (h : handler W) (w : W) (r : Release) (hr : V1.HelmRelease)
  (client : Client) :
  Load (helmClients r) (V1.GetHelmVersion hr (DefaultHelmVersion (config r))) = Some client ->
  exists k : V1.HelmRelease * (chart * option Export * option error) -> Prog (option error),
    Sync r hr = bind (prepareChart r client hr) k
    /\ forall hr' c cleanup err,
         exists body : Prog (option error),
           k (hr', (c, cleanup, err))
           = deferring body
               (call (SetObservedGeneration (V1.Namespace hr') hr' (V1.Generation hr')))
           /\ (forall e, err = Some e ->
                  body = (phase hr' V1.HelmReleasePhaseChartFetchFailed;;
                          mret (Some (Errorf "failed to prepare chart for release: %w"
                                        [ArgErr e]))))
           /\ (forall export, err = None -> cleanup = Some export ->
                  body = deferring (afterChart r client hr' c)
                           (Vis (Clean export) (fun _ : option error => Ret tt)))
           /\ (err = None -> cleanup = None -> body = afterChart r client hr' c).
Proof.
  intros Hload. unfold Sync. rewrite Hload.
  eexists. split; [reflexivity |].
  intros hr' c cleanup [e |].
  - eexists. split; [reflexivity |]. split; [| split].
    + intros e' [= <-]. reflexivity.
    + intros export Hf. discriminate.
    + intros Hf. discriminate.
  - eexists. split; [reflexivity |]. split; [| split].
    + intros e Hf. discriminate.
    + intros export _ ->. reflexivity.
    + intros _ ->. reflexivity.
Qed.

(** A deferred clean-up is called last, whatever the body did. *)
Lemma exec_deferring_Clean {W : Type} (h : handler W) (export : Export)
  (m : Prog (option error)) :
  forall w : W,
    exec h (deferring m (Vis (Clean export) (fun _ : option error => Ret tt))) w
    = let '(o, w', calls) := exec h m w in
      (o, snd (h _ (Clean export) w'), calls ++ [called (Clean export)]).
Proof.
  induction m as [a | R op k IH | v]; intros w; cbn.
  - destruct (h _ (Clean export) w) as [x w']. reflexivity.
  - destruct (h R op w) as [x w']. rewrite IH.
    destruct (exec h (k x) w') as [[o w''] calls]. reflexivity.
  - destruct (h _ (Clean export) w) as [x w']. reflexivity.
Qed.

(** X2: Whatever a run of [Sync] does once a Helm client is found (the
    chart cannot be fetched, an action fails, the loop panics), the
    last call it makes is the deferred record of the observed
    generation.  Without a client for the Helm version, it only reports
    the phase [Failed] and returns an error.  (The duration that [Sync]
    observes for its metrics, in the function deferred first, is not
    among the calls of the model.) *)
Theorem Sync_observes_generation_last {W : Type} (h : handler W) (w : W) (r : Release)
  (hr : V1.HelmRelease) :
  match Load (helmClients r) (V1.GetHelmVersion hr (DefaultHelmVersion (config r))) with
  | Some client =>
      exists (hr' : V1.HelmRelease) (before : list Call),
        resourceAfter hr hr'
        /\ callsOf h (Sync r hr) w = before ++ [observed hr hr']
  | None =>
      outcomeOf h (Sync r hr) w
      = Returned (Some (Errorf "no client found for Helm '%s'"
                          [ArgStr (DefaultHelmVersion (config r))]))
      /\ callsOf h (Sync r hr) w
         = [called (SetStatusPhase (V1.GetTargetNamespace hr) hr V1.HelmReleasePhaseFailed)]
  end.
Proof.
  destruct (Load _ _) as [client |] eqn:Hload.
  - destruct (exec_Sync h w r hr client Hload) as (k & -> & Hk).
    destruct (returnsWith_exec _ h _ w (prepareChart_prepared r client hr))
      as ([hr' [[c cleanup] err]] & Hout & Hafter & _).
    exists hr'. unfold callsOf, outcomeOf in *. rewrite exec_bind.
    destruct (exec h (prepareChart r client hr) w) as [[o w1] cs]. cbn in Hout. subst o.
    destruct (Hk hr' c cleanup err) as (body & -> & _).
    unfold call. rewrite exec_deferring_call.
    destruct (exec h body w1) as [[o w2] cs']. cbn.
    exists (cs ++ cs'). split; [exact Hafter |].
    rewrite (resourceAfter_observed hr hr' Hafter), app_assoc. reflexivity.
  - unfold outcomeOf, callsOf, Sync. rewrite Hload. cbn.
    destruct (h _ (SetStatusPhase _ _ _) w) as [u w1]. split; reflexivity.
Qed.

(** X3: When the chart cannot be prepared, [Sync] stops there: after the
    calls of [prepareChart] it reports the phase [ChartFetchFailed],
    records the observed generation, and returns the error, wrapped.
    No Helm release is looked up, installed or upgraded. *)
Theorem Sync_stops_on_chart_failure {W : Type} (h : handler W) (w w1 : W) (r : Release)
  (hr hr' : V1.HelmRelease) (client : Client) (c : chart) (cleanup : option Export)
  (e : error) (fetches : list Call) :
  Load (helmClients r) (V1.GetHelmVersion hr (DefaultHelmVersion (config r))) = Some client ->
  exec h (prepareChart r client hr) w = (Returned (hr', (c, cleanup, Some e)), w1, fetches) ->
  outcomeOf h (Sync r hr) w
  = Returned (Some (Errorf "failed to prepare chart for release: %w" [ArgErr e]))
  /\ callsOf h (Sync r hr) w
     = fetches
       ++ [called (SetStatusPhase (V1.Namespace hr') hr' V1.HelmReleasePhaseChartFetchFailed);
           called (SetObservedGeneration (V1.Namespace hr') hr' (V1.Generation hr'))].
Proof.
  intros Hload Hprep.
  destruct (exec_Sync h w r hr client Hload) as (k & -> & Hk).
  unfold callsOf, outcomeOf. rewrite exec_bind, Hprep.
  destruct (Hk hr' c cleanup (Some e)) as (body & -> & Hbody & _).
  rewrite (Hbody e eq_refl). unfold call. rewrite exec_deferring_call. cbn.
  destruct (h _ (SetStatusPhase _ _ _) w1) as [u w2]. cbn. split; reflexivity.
Qed.

(** X4: When the chart was exported from the git mirror, the export is
    cleaned whatever the rest of [Sync] does: the last two calls of the
    run are [Clean] of that export and the record of the observed
    generation. *)
Theorem Sync_cleans_export {W : Type} (h : handler W) (w w1 : W) (r : Release)
  (hr hr' : V1.HelmRelease) (client : Client) (c : chart) (export : Export)
  (fetches : list Call) :
  Load (helmClients r) (V1.GetHelmVersion hr (DefaultHelmVersion (config r))) = Some client ->
  exec h (prepareChart r client hr) w = (Returned (hr', (c, Some export, None)), w1, fetches) ->
  exists actions : list Call,
    callsOf h (Sync r hr) w
    = fetches ++ actions
      ++ [called (Clean export);
          called (SetObservedGeneration (V1.Namespace hr') hr' (V1.Generation hr'))].
Proof.
  intros Hload Hprep.
  destruct (exec_Sync h w r hr client Hload) as (k & -> & Hk).
  unfold callsOf. rewrite exec_bind, Hprep.
  destruct (Hk hr' c (Some export) None) as (body & -> & _ & Hbody & _).
  rewrite (Hbody export eq_refl eq_refl).
  unfold call. rewrite exec_deferring_call, exec_deferring_Clean.
  destruct (exec h (afterChart r client hr' c) w1) as [[o w2] actions]. cbn.
  exists actions. rewrite <- !app_assoc. reflexivity.
Qed.

(** X5: When the action cannot be determined ([determineSyncAction] returns
    an error: Helm cannot be reached, the release is managed by another
    resource, its status does not allow an upgrade), [Sync] runs no
    action: after the decision it reports the phase [Failed], cleans
    the export if there is one, records the observed generation, and
    returns the error, wrapped. *)
Theorem Sync_stops_on_decision_error {W : Type} (h : handler W) (w w1 w2 w3 w4 : W)
  (r : Release) (hr hr' : V1.HelmRelease) (client : Client) (c : chart)
  (cleanup : option Export) (values : string) (a : action) (curRel : option Helm.Release)
  (e : error) (fetches deciding : list Call) :
  Load (helmClients r) (V1.GetHelmVersion hr (DefaultHelmVersion (config r))) = Some client ->
  exec h (prepareChart r client hr) w = (Returned (hr', (c, cleanup, None)), w1, fetches) ->
  (if changed c
   then snd (h _ (SetStatusPhase (V1.Namespace hr') hr' V1.HelmReleasePhaseChartFetched) w1)
   else w1) = w2 ->
  h _ (composeValues hr' (chartPath c)) w2 = (Ok values, w3) ->
  exec h (determineSyncAction r client hr' c) w3
  = (Returned (a, curRel, Some e), w4, deciding) ->
  outcomeOf h (Sync r hr) w
  = Returned (Some (Errorf "failed to determine sync action for release: %w" [ArgErr e]))
  /\ callsOf h (Sync r hr) w
     = fetches
       ++ (if changed c
           then [called (SetStatusPhase (V1.Namespace hr') hr'
                           V1.HelmReleasePhaseChartFetched)]
           else [])
       ++ [called (composeValues hr' (chartPath c))]
       ++ deciding
       ++ [called (SetStatusPhase (V1.GetTargetNamespace hr') hr' V1.HelmReleasePhaseFailed)]
       ++ match cleanup with
          | Some export => [called (Clean export)]
          | None => []
          end
       ++ [called (SetObservedGeneration (V1.Namespace hr') hr' (V1.Generation hr'))].
Proof.
  intros Hload Hprep Hphase Hvalues Hdecide.
  destruct (exec_Sync h w r hr client Hload) as (k & -> & Hk).
  unfold callsOf, outcomeOf. rewrite exec_bind, Hprep.
  destruct (Hk hr' c cleanup None) as (body & -> & _ & Hclean & Hplain).
  assert (Hbody : exec h (afterChart r client hr' c) w1
                  = (Returned (Some (Errorf "failed to determine sync action for release: %w"
                                       [ArgErr e])),
                     snd (h _ (SetStatusPhase (V1.GetTargetNamespace hr') hr'
                                 V1.HelmReleasePhaseFailed) w4),
                     (if changed c
                      then [called (SetStatusPhase (V1.Namespace hr') hr'
                                      V1.HelmReleasePhaseChartFetched)]
                      else [])
                     ++ [called (composeValues hr' (chartPath c))]
                     ++ deciding
                     ++ [called (SetStatusPhase (V1.GetTargetNamespace hr') hr'
                                   V1.HelmReleasePhaseFailed)])).
  { unfold afterChart.
    unfold mbind, Prog_bind.
    rewrite exec_bind.
    assert (Hfirst : exec h (if changed c then phase hr' V1.HelmReleasePhaseChartFetched
                             else mret tt) w1
                     = (Returned tt, w2,
                        if changed c
                        then [called (SetStatusPhase (V1.Namespace hr') hr'
                                        V1.HelmReleasePhaseChartFetched)]
                        else [])).
    { destruct (changed c); cbn.
      - destruct (h _ (SetStatusPhase _ _ _) w1) as [[] w']. cbn in Hphase.
        subst w'. reflexivity.
      - subst w2. reflexivity. }
    rewrite Hfirst. rewrite exec_bind, exec_call, Hvalues. cbn [fst snd].
    rewrite exec_bind, Hdecide. cbn.
    destruct (h _ (SetStatusPhase _ _ V1.HelmReleasePhaseFailed) w4) as [u w5]. cbn.
    rewrite <- ?app_assoc. reflexivity. }
  destruct cleanup as [export |].
  - rewrite (Hclean export eq_refl eq_refl).
    unfold call. rewrite exec_deferring_call, exec_deferring_Clean, Hbody.
    split; [reflexivity |].
    cbn. repeat first [rewrite <- app_assoc | progress cbn [app]]. reflexivity.
  - rewrite (Hplain eq_refl eq_refl).
    unfold call. rewrite exec_deferring_call, Hbody.
    split; [reflexivity |].
    cbn. repeat first [rewrite <- app_assoc | progress cbn [app]]. reflexivity.
Qed.

(** X6: [Uninstall] never reports a failure of Helm: with a client for the
    Helm version it asks Helm to uninstall the release (history not
    kept), deletes the git mirror of the chart when the resource has a
    git source, and returns nil, also when Helm answered with an error.
    Without a client it returns an error and calls nothing. *)
Theorem Uninstall_reports_nothing {W : Type} (h : handler W) (w : W) (r : Release)
  (hr : V1.HelmRelease) :
  match Load (helmClients r) (V1.GetHelmVersion hr (DefaultHelmVersion (config r))) with
  | Some client =>
      outcomeOf h (Uninstall r hr) w = Returned None
      /\ callsOf h (Uninstall r hr) w
         = called (ClientUninstall client (V1.GetReleaseName hr)
                     {| Helm.UninstallNamespace := V1.GetTargetNamespace hr;
                        Helm.KeepHistory := false;
                        Helm.UninstallTimeout := V1.GetTimeout hr |})
           :: match V1.GitChartSource_ (V1.Spec hr) with
              | Some _ => [called (GitChartSyncDelete hr)]
              | None => []
              end
  | None =>
      exec h (Uninstall r hr) w
      = (Returned (Some (Errorf "no client found for Helm '%s'"
                           [ArgStr (DefaultHelmVersion (config r))])), w, [])
  end.
Proof.
  unfold Uninstall, outcomeOf, callsOf.
  destruct (Load _ _) as [client |]; [| reflexivity].
  cbn. destruct (h _ (ClientUninstall _ _ _) w) as [[e |] w1]; cbn;
    destruct (V1.GitChartSource_ (V1.Spec hr)) as [g |]; cbn;
    try destruct (h _ (GitChartSyncDelete hr) w1) as [b w2]; split; reflexivity.
Qed.

End Run.

(** *** The theorems on concrete runs *)

(** A resource without a chart source: [Sync] reports the failed fetch
    and the generation, and nothing else. *)
Lemma Sync_stops_on_chart_failure_witness :
  outcomeOf Samples.quiet
    (@Sync Samples.plainAccessors Samples.deployedOnly Samples.slashJoin
       Samples.engine Samples.noSourceResource) tt
  = Returned (Some (Errorf "failed to prepare chart for release: %w"
                      [ArgErr (Errorf "could not find valid chart source configuration for release" [])]))
  /\ callsOf Samples.quiet
       (@Sync Samples.plainAccessors Samples.deployedOnly Samples.slashJoin
          Samples.engine Samples.noSourceResource) tt
     = [] ++ [called (SetStatusPhase "demo" Samples.noSourceResource
                        V1.HelmReleasePhaseChartFetchFailed);
              called (SetObservedGeneration "demo" Samples.noSourceResource 1)].
Proof.
  apply (@Sync_stops_on_chart_failure Samples.plainAccessors Samples.deployedOnly
           Samples.slashJoin unit Samples.quiet tt tt Samples.engine
           Samples.noSourceResource Samples.noSourceResource "v2" noChart None);
    reflexivity.
Defined.

(** A resource with a git source, installed for the first time: the
    export is cleaned and the generation recorded at the end. *)
Lemma Sync_cleans_export_witness :
  exists actions : list Call,
    callsOf Samples.quiet
      (@Sync Samples.plainAccessors Samples.deployedOnly Samples.slashJoin
         Samples.engine Samples.twoSourceResource) tt
    = [called (GetMirrorCopy Samples.twoSourceResource);
       called (ChangedFiles {| Dir := "/mirror" |} "1.0.0" ["charts/podinfo"]);
       called (ClientDependencyUpdate "v2" "/mirror/charts/podinfo")]
      ++ actions
      ++ [called (Clean {| Dir := "/mirror" |});
          called (SetObservedGeneration "demo" Samples.twoSourceResource 1)].
Proof.
  apply (@Sync_cleans_export Samples.plainAccessors Samples.deployedOnly
           Samples.slashJoin unit Samples.quiet tt tt Samples.engine
           Samples.twoSourceResource Samples.twoSourceResource "v2"
           {| chartPath := "/mirror/charts/podinfo"; revision := "4f2a9c1";
              changed := false |});
    reflexivity.
Defined.

(** A world in which the release belongs to another resource. *)
Definition ownedByOther : handler unit := fun R op w =>
  (match op in Op T return T with
   | ClientGet _ _ _ => Ok (Some (Samples.deployed 1))
   | managedByHelmRelease _ _ => (false, "demo:helmrelease/other", None)
   | op' => Samples.quietAnswer op'
   end, w).

(** The release of the resource is owned by another resource: [Sync]
    decides to skip, and no action is run. *)
Lemma Sync_stops_on_decision_error_witness :
  outcomeOf ownedByOther
    (@Sync Samples.plainAccessors Samples.deployedOnly Samples.slashJoin
       Samples.engine Samples.staleResource) tt
  = Returned (Some (Errorf "failed to determine sync action for release: %w"
                      [ArgErr (Errorf "release appears to be managed by '%s'"
                                 [ArgStr "demo:helmrelease/other"])]))
  /\ callsOf ownedByOther
       (@Sync Samples.plainAccessors Samples.deployedOnly Samples.slashJoin
          Samples.engine Samples.staleResource) tt
     = [called (EnsureChartFetched "v2" "/tmp" Samples.repoSource);
        called (ClientGetChartRevision "v2" "/tmp/podinfo-1.0.0.tgz")]
       ++ []
       ++ [called (composeValues Samples.staleResource "/tmp/podinfo-1.0.0.tgz")]
       ++ [called (ClientGet "v2" "podinfo"
                     (@getOptions Samples.plainAccessors Samples.staleResource));
           called (managedByHelmRelease (Samples.deployed 1) Samples.staleResource)]
       ++ [called (SetStatusPhase "demo" Samples.staleResource V1.HelmReleasePhaseFailed)]
       ++ []
       ++ [called (SetObservedGeneration "demo" Samples.staleResource 3)].
Proof.
  apply (@Sync_stops_on_decision_error Samples.plainAccessors Samples.deployedOnly
           Samples.slashJoin unit ownedByOther tt tt tt tt tt Samples.engine
           Samples.staleResource Samples.staleResource "v2"
           {| chartPath := "/tmp/podinfo-1.0.0.tgz"; revision := "1.0.0"; changed := false |}
           None "" SkipAction None
           (Errorf "release appears to be managed by '%s'" [ArgStr "demo:helmrelease/other"]));
    reflexivity.
Defined.

End SyncRun.

(** ** The action loop: what no run does *)

Module LoopInvariants.

Import Release ProgFacts.

(** A program all of whose calls satisfy [P] and all of whose results
    satisfy [Q], in every run; it may panic. *)
Inductive always {A : Type} (P : Call -> Prop) (Q : A -> Prop) : Prog A -> Prop :=
| always_Ret (a : A) : Q a -> always P Q (Ret a)
| always_Panic (v : string) : always P Q (Panic v)
| always_Vis {R : Type} (op : Op R) (k : R -> Prog A) :
    P (called op) -> (forall r, always P Q (k r)) -> always P Q (Vis op k).

Lemma always_bind {A B : Type} (P : Call -> Prop) (Q : A -> Prop) (Q' : B -> Prop)
  (m : Prog A) (k : A -> Prog B) :
  always P Q m -> (forall a, Q a -> always P Q' (k a)) -> always P Q' (bind m k).
Proof.
  intros Hm Hk. induction Hm as [a Ha | v | R op k' Hop _ IH]; cbn.
  - apply Hk, Ha.
  - constructor.
  - constructor; assumption.
Qed.

Lemma always_calls {A : Type} (P : Call -> Prop) (Q : A -> Prop) (m : Prog A) :
  always P Q m -> callsSatisfy P m.
Proof. induction 1; constructor; assumption. Qed.

Definition isUninstall (c : Call) : bool :=
  match c with
  | called op =>
      match op with
      | ClientUninstall _ _ _ | GitChartSyncDelete _ => true
      | _ => false
      end
  end.

Definition isRollbackCall (c : Call) : bool :=
  match c with
  | called op =>
      match op with
      | ClientRollback _ _ _ => true
      | _ => false
      end
  end.

(** The actions that a run reaches from [Upgrade] or [DryRunCompare]
    when there is a current release, and those it reaches from
    [Install] when there is none. *)
Definition upgrading (a : action) : bool :=
  match a with
  | InstallAction | UninstallAction => false
  | _ => true
  end.

Definition installing (a : action) : bool :=
  match a with
  | InstallAction | TestAction | UninstallAction | AnnotateAction | SkipAction => true
  | _ => false
  end.

(** What a Helm upgrade call may ask for in a run for the resource
    [hr]. *)
Definition consistent (hr : V1.HelmRelease) (c : Call) : Prop :=
  match c with
  | called op =>
      match op with
      | ClientUpgradeFromPath _ _ _ _ opts =>
          Helm.ReuseValues opts && Helm.ResetValues opts = false
          /\ (Helm.DryRun opts = true ->
              Helm.Install opts = false /\ Helm.PostRenderer opts = None)
          /\ (Helm.DryRun opts = false -> Helm.PostRenderer opts = Some hr)
      | _ => True
      end
  end.

Ltac step_auto :=
  repeat first
    [ progress unfold mbind, mret, Prog_bind, Prog_ret, call, phase
    | match goal with
      | |- always _ _ (bind (Vis ?op ?k) ?k') =>
          change (bind (Vis op k) k') with (Vis op (fun r => bind (k r) k')); cbv beta
      | |- always _ _ (bind (Ret ?a) ?k) => change (bind (Ret a) k) with (k a); cbv beta
      | |- always _ _ (bind (Panic ?v) ?k) => change (bind (Panic v) k) with (Panic v)
      | |- always _ _ (bind (bind ?m ?k) ?k') =>
          change (bind (bind m k) k') with (bind m (fun x => bind (k x) k')); cbv beta
      | |- always _ _ (bind (match ?x with _ => _ end) _) => destruct x
      | |- always _ _ (match ?x with _ => _ end) => destruct x
      end
    | apply always_Ret
    | apply always_Panic
    | apply always_Vis; [try reflexivity | intros ?] ].

Section Loop.

Context `{V1.Accessors} `{Helm.StatusAPI}.

Variables (r : Release) (client : Client) (hr : V1.HelmRelease) (c : chart)
  (values : string).

Lemma step_upgrading (cur : Helm.Release) (a : action) (st : loopState) :
  upgrading a = true ->
  always (fun call => isUninstall call = false)
    (fun '(t, _) => match t with Goto a' => upgrading a' = true | Leave => True end)
    (step r client hr (Some cur) c values a st).
Proof using Type.
  intros Ha.
  unfold step, dryRunCompare, install, upgrade, migrate, rollback, test, annotate, uninstall.
  destruct a; try discriminate Ha; step_auto; try exact I;
    try match goal with |- context [if ?b then _ else _] => destruct b end; reflexivity.
Qed.

Lemma loop_upgrading (cur : Helm.Release) (n : nat) :
  forall (a : action) (st : loopState),
    upgrading a = true ->
    always (fun call => isUninstall call = false) (fun _ => True)
      (loop n r client hr (Some cur) c values a st).
Proof using Type.
  induction n as [| n IH]; intros a st Ha; cbn [loop].
  - constructor. exact I.
  - apply (always_bind _ _ _ _ _ (step_upgrading cur a st Ha)).
    intros [[a' |] st'] Ht; [apply IH, Ht | constructor; exact I].
Qed.

Lemma step_installing (a : action) (st : loopState) :
  installing a = true ->
  always (fun call => isRollbackCall call = false)
    (fun '(t, _) => match t with Goto a' => installing a' = true | Leave => True end)
    (step r client hr None c values a st).
Proof using Type.
  intros Ha.
  unfold step, dryRunCompare, install, upgrade, migrate, rollback, test, annotate, uninstall.
  destruct a; try discriminate Ha; step_auto; try exact I;
    try match goal with |- context [if ?b then _ else _] => destruct b end; reflexivity.
Qed.

Lemma loop_installing (n : nat) :
  forall (a : action) (st : loopState),
    installing a = true ->
    always (fun call => isRollbackCall call = false) (fun _ => True)
      (loop n r client hr None c values a st).
Proof using Type.
  induction n as [| n IH]; intros a st Ha; cbn [loop].
  - constructor. exact I.
  - apply (always_bind _ _ _ _ _ (step_installing a st Ha)).
    intros [[a' |] st'] Ht; [apply IH, Ht | constructor; exact I].
Qed.

(** X7: A release that exists is never uninstalled by a sync: started at
    [Upgrade] or at [DryRunCompare] with a current release (the two
    actions that [determineSyncAction] gives with one), no run of the
    loop asks Helm to uninstall or deletes the git mirror of the chart,
    whatever fails on the way. *)
Theorem existing_release_is_never_uninstalled {W : Type} (h : handler W) (w : W)
  (cur : Helm.Release) :
  existsb isUninstall (callsOf h (run r client UpgradeAction hr (Some cur) c values) w)
  = false
  /\ existsb isUninstall
       (callsOf h (run r client DryRunCompareAction hr (Some cur) c values) w)
     = false.
Proof using Type.
  assert (Hrun : forall a, upgrading a = true ->
            existsb isUninstall (callsOf h (run r client a hr (Some cur) c values) w)
            = false).
  { intros a Ha.
    assert (Hall : Forall (fun call => isUninstall call = false)
                     (callsOf h (run r client a hr (Some cur) c values) w)).
    { apply callsSatisfy_exec. unfold run.
      apply callsSatisfy_bind.
      - apply (always_calls _ (fun _ => True)), loop_upgrading, Ha.
      - intros [st |]; constructor. }
    induction Hall as [| x l Hx _ IH]; [reflexivity |].
    cbn. rewrite Hx, IH. reflexivity. }
  split; apply Hrun; reflexivity.
Qed.

(** X8: A first installation is never rolled back: started at [Install]
    without a current release, no run of the loop asks Helm for a
    rollback; a failed installation or a failed test goes on with
    [Uninstall]. *)
Theorem first_install_is_never_rolled_back {W : Type} (h : handler W) (w : W) :
  existsb isRollbackCall (callsOf h (run r client InstallAction hr None c values) w)
  = false.
Proof using Type.
  assert (Hall : Forall (fun call => isRollbackCall call = false)
                   (callsOf h (run r client InstallAction hr None c values) w)).
  { apply callsSatisfy_exec. unfold run.
    apply callsSatisfy_bind.
    - apply (always_calls _ (fun _ => True)), loop_installing. reflexivity.
    - intros [st |]; constructor. }
  induction Hall as [| x l Hx _ IH]; [reflexivity |].
  cbn. rewrite Hx, IH. reflexivity.
Qed.

Lemma step_consistent (curRel : option Helm.Release) (a : action) (st : loopState) :
  callsSatisfy (consistent hr) (step r client hr curRel c values a st).
Proof using Type.
  assert (Hopts : forall b : bool, b && negb b = false) by (intros []; reflexivity).
  unfold step, dryRunCompare, install, upgrade, migrate, rollback, test, annotate, uninstall.
  destruct a;
    repeat first
      [ progress unfold mbind, mret, Prog_bind, Prog_ret, call, phase
      | match goal with
        | |- callsSatisfy _ (bind (Vis ?op ?k) ?k') =>
            change (bind (Vis op k) k') with (Vis op (fun r => bind (k r) k')); cbv beta
        | |- callsSatisfy _ (bind (Ret ?a) ?k) => change (bind (Ret a) k) with (k a); cbv beta
        | |- callsSatisfy _ (bind (Panic ?v) ?k) => change (bind (Panic v) k) with (Panic v)
        | |- callsSatisfy _ (bind (bind ?m ?k) ?k') =>
            change (bind (bind m k) k') with (bind m (fun x => bind (k x) k')); cbv beta
        | |- callsSatisfy _ (bind (match ?x with _ => _ end) _) => destruct x
        | |- callsSatisfy _ (match ?x with _ => _ end) => destruct x
        end
      | apply callsSatisfy_Ret
      | apply callsSatisfy_Panic
      | apply callsSatisfy_Vis;
        [first [ exact I
               | cbn; rewrite ?Hopts;
                 repeat split; first [reflexivity | discriminate | intros; reflexivity] ]
        | intros ?] ].
Qed.

(** X9: Every upgrade that a run asks of Helm is consistent: [ReuseValues]
    and [ResetValues] are never both set; a dry run never installs and
    carries no post-renderer; a call that is not a dry run always
    carries the post-renderer made for the resource of the run. *)
Theorem helm_upgrades_are_consistent {W : Type} (h : handler W) (w : W)
  (curRel : option Helm.Release) (a : action) :
  Forall (consistent hr) (callsOf h (run r client a hr curRel c values) w).
Proof using Type.
  apply callsSatisfy_exec. unfold run. apply callsSatisfy_bind.
  - generalize {| newRel := None; errs := [] |}. revert a. generalize passes.
    induction n as [| n IH]; intros a st; cbn [loop].
    + constructor.
    + apply callsSatisfy_bind; [apply step_consistent |].
      intros [[a' |] st']; [apply IH | constructor].
  - intros [st |]; constructor.
Qed.

End Loop.

End LoopInvariants.

(** ** The action loop: how long it runs, and the paths not told above *)

Module ActionPaths.

Import Release ProgFacts ActionLoop.

(** What [determineSyncAction] may hand to the loop. *)
Definition decided (res : action * option Helm.Release * option error) : Prop :=
  let '(a, curRel, err) := res in
  match a with
  | InstallAction | MigrateAction => curRel = None /\ err = None
  | UpgradeAction | DryRunCompareAction => curRel <> None /\ err = None
  | SkipAction => curRel = None /\ err <> None
  | RollbackAction | UninstallAction | AnnotateAction | TestAction => False
  end.

Section Paths.

Context `{V1.Accessors} `{Helm.StatusAPI}.

Variables (r : Release) (client : Client) (hr : V1.HelmRelease) (c : chart)
  (values : string).

Lemma determineSyncAction_decided : returnsWith decided (determineSyncAction r client hr c).
Proof using Type.
  unfold determineSyncAction, decided.
  constructor. intros [[curRel |] | e].
  - constructor. intros [[managedBy antecedent] [e |]].
    + constructor. split; [reflexivity | discriminate].
    + destruct managedBy; cbn [negb].
      2: { constructor. split; [reflexivity | discriminate]. }
      destruct (Helm.AllowsUpgrade _); cbn [negb].
      2: { constructor. split; [reflexivity | discriminate]. }
      destruct (HasSynced hr); cbn [negb].
      2: { constructor. split; [discriminate | reflexivity]. }
      constructor. intros [|].
      * apply (returnsWith_bind (fun _ => True)).
        { destruct (changed c); [constructor; exact I |].
          constructor. intros b. constructor. exact I. }
        intros [|] _.
        { constructor. split; [discriminate | reflexivity]. }
        constructor. intros [hist | e]; constructor.
        -- split; [discriminate | reflexivity].
        -- split; [reflexivity | discriminate].
      * destruct (changed c); constructor; (split; [discriminate | reflexivity]).
  - destruct (V1.Annotations hr !! MigrateAnnotation).
    + destruct (String.eqb _ _).
      * constructor. intros [[|] | e]; constructor;
          try (split; reflexivity). split; [reflexivity | discriminate].
      * constructor. split; reflexivity.
    + constructor. split; reflexivity.
  - constructor. split; [reflexivity | discriminate].
Qed.

(** X10: [determineSyncAction] always returns, and only in these shapes: an
    action to start from ([Install] or [Migrate] without a release,
    [Upgrade] or [DryRunCompare] with the release to compare with) and
    no error, or [Skip] with an error and no release.  It never starts
    the loop at [Rollback], [Uninstall], [Test] or [Annotate]. *)
Theorem determineSyncAction_result_shape {W : Type} (h : handler W) (w : W) :
  exists (a : action) (curRel : option Helm.Release) (err : option error),
    outcomeOf h (determineSyncAction r client hr c) w = Returned (a, curRel, err)
    /\ match a with
       | InstallAction | MigrateAction => curRel = None /\ err = None
       | UpgradeAction | DryRunCompareAction => curRel <> None /\ err = None
       | SkipAction => curRel = None /\ err <> None
       | RollbackAction | UninstallAction | AnnotateAction | TestAction => False
       end.
Proof using Type.
  destruct (returnsWith_exec _ h _ w determineSyncAction_decided)
    as ([[a curRel] err] & Hout & Hshape).
  exists a, curRel, err. split; [exact Hout | exact Hshape].
Qed.

(** X11: A release is handed to the loop only when it is safe to touch:
    whenever [determineSyncAction] returns a release (the start is
    [Upgrade] or [DryRunCompare]), Helm found a release, the ownership
    check answered that the resource manages it, without an error, and
    the status of that release allows an upgrade.  A start at
    [Upgrade] hands over the release that Helm found. *)
Theorem release_is_handed_over_when_owned {W : Type} (h : handler W) (w : W) (a : action)
  (rel : Helm.Release) (err : option error) :
  outcomeOf h (determineSyncAction r client hr c) w = Returned (a, Some rel, err) ->
  exists (curRel : Helm.Release) (w1 : W) (antecedent : string),
    h _ (ClientGet client (V1.GetReleaseName hr) (getOptions hr)) w = (Ok (Some curRel), w1)
    /\ fst (h _ (managedByHelmRelease curRel hr) w1) = (true, antecedent, None)
    /\ Helm.AllowsUpgrade (Helm.InfoStatus (Helm.Info_ curRel)) = true
    /\ (a = UpgradeAction -> rel = curRel).
Proof using Type.
  unfold outcomeOf, determineSyncAction, mbind, mret, Prog_bind, Prog_ret.
  rewrite exec_bind, exec_call.
  destruct (h _ (ClientGet _ _ _) w) as [[[curRel |] | e] w1] eqn:Hget; cbn [fst snd].
  - rewrite exec_bind, exec_call.
    destruct (h _ (managedByHelmRelease curRel hr) w1)
      as [[[managedBy antecedent] [e |]] w2] eqn:Hown; cbn [fst snd].
    + cbn. discriminate.
    + destruct managedBy; cbn [negb]; [| cbn; discriminate].
      destruct (Helm.AllowsUpgrade _) eqn:Hallows; cbn [negb]; [| cbn; discriminate].
      intros Hout. exists curRel, w1, antecedent.
      split; [reflexivity |]. split; [rewrite Hown; reflexivity |].
      split; [exact Hallows |].
      intros ->. revert Hout.
      destruct (HasSynced hr); cbn [negb].
      * rewrite exec_bind, exec_call.
        destruct (h _ (HasRolledBack hr) w2) as [[|] w3]; cbn [fst snd].
        -- destruct (changed c).
           ++ cbn. congruence.
           ++ unfold bind at 1. rewrite exec_bind, exec_call.
              destruct (h _ (ShouldRetryUpgrade hr) w3) as [[|] w4]; cbn [fst snd].
              ** cbn. congruence.
              ** cbn. destruct (h _ (ClientHistory _ _ _) w4) as [[hist | e] w5]; cbn;
                   discriminate.
        -- destruct (changed c); cbn; congruence.
      * cbn. congruence.
  - destruct (V1.Annotations hr !! MigrateAnnotation); [| cbn; discriminate].
    destruct (String.eqb _ _); [| cbn; discriminate].
    cbn. destruct (h _ (V2ReleaseExists _) w1) as [[[|] | e] w2]; cbn; discriminate.
  - cbn. discriminate.
Qed.

(** More passes than the rank of the action change nothing. *)
Lemma loop_fuel {W : Type} (h : handler W) (curRel : option Helm.Release) (n : nat) :
  forall (m : nat) (a : action) (st : loopState) (w : W),
    (rank a <= n)%nat -> (rank a <= m)%nat ->
    exec h (loop n r client hr curRel c values a st) w
    = exec h (loop m r client hr curRel c values a st) w.
Proof using Type.
  induction n as [| n IH]; intros m a st w Hn Hm.
  - destruct a; cbn in Hn; lia.
  - destruct m as [| m]; [destruct a; cbn in Hm; lia |].
    rewrite !exec_loop_S.
    pose proof (fun a' st' => step_rank r client hr curRel c values h w a a' st st') as Hstep.
    unfold outcomeOf in Hstep.
    destruct (exec h (step r client hr curRel c values a st) w)
      as [[[[[a' |] st'] | v] w'] calls]; [| reflexivity | reflexivity].
    specialize (Hstep a' st' eq_refl).
    rewrite (IH m a' st' w') by lia. reflexivity.
Qed.

(** X12: The [goto] loop of [run] ends: no chain of actions is longer than
    five.  Whatever the world answers and whatever action the loop
    starts at, the five passes of the model and any greater number of
    passes give the same run, and [run] returns or panics on a nil
    release. *)
Theorem run_stops_within_five_actions {W : Type} (h : handler W) (w : W)
  (curRel : option Helm.Release) (a : action) (st : loopState) (n : nat) :
  exec h (loop (passes + n) r client hr curRel c values a st) w
  = exec h (loop passes r client hr curRel c values a st) w
  /\ ((exists err, outcomeOf h (run r client a hr curRel c values) w = Returned err)
      \/ outcomeOf h (run r client a hr curRel c values) w = Panicked nilDereference).
Proof using Type.
  split.
  - apply loop_fuel; destruct a; unfold passes; cbn; lia.
  - apply run_ends.
Qed.

(** *** Test *)

(** The calls of a failed test. *)
Definition failedTest (client : Client) (hr : V1.HelmRelease) : list Call :=
  [called (SetStatusPhase (V1.Namespace hr) hr V1.HelmReleasePhaseTesting);
   called (ClientTest client (V1.GetReleaseName hr)
             {| Helm.TestNamespace := V1.GetTargetNamespace hr;
                Helm.TestTimeout := V1.GetTestTimeout (V1.Test_ (V1.Spec hr));
                Helm.TestCleanup := V1.GetCleanup (V1.Test_ (V1.Spec hr)) |});
   called (SetStatusPhase (V1.Namespace hr) hr V1.HelmReleasePhaseTestFailed)].

(** X13: A failed test that is ignored is still an error of the run.  When
    the loop comes to [Test] (after an installation or an upgrade, in
    the state [st]), the test fails and failures are ignored, the phase
    [Succeeded] is recorded with the revision and the resources are
    annotated, as after a test that passed; but the loop ends with the
    error of the test added to the errors collected, so that [run]
    returns an error. *)
Theorem ignored_test_failure_is_reported {W : Type} (h : handler W) (w w1 w2 : W)
  (curRel : option Helm.Release) (st : loopState) (e : error) (n : nat) :
  V1.TestEnable (V1.Test_ (V1.Spec hr)) = true ->
  V1.GetIgnoreFailures (V1.Test_ (V1.Spec hr)) = true ->
  h _ (SetStatusPhase (V1.Namespace hr) hr V1.HelmReleasePhaseTesting) w = (tt, w1) ->
  h _ (ClientTest client (V1.GetReleaseName hr)
         {| Helm.TestNamespace := V1.GetTargetNamespace hr;
            Helm.TestTimeout := V1.GetTestTimeout (V1.Test_ (V1.Spec hr));
            Helm.TestCleanup := V1.GetCleanup (V1.Test_ (V1.Spec hr)) |}) w1
  = (Some e, w2) ->
  outcomeOf h (loop (2 + n) r client hr curRel c values TestAction st) w
  = Returned (Some {| newRel := newRel st;
                      errs := errs st ++ [Errorf "test failed: %w" [ArgErr e]] |})
  /\ callsOf h (loop (2 + n) r client hr curRel c values TestAction st) w
     = failedTest client hr
       ++ [called (SetStatusPhaseWithRevision (V1.Namespace hr) hr
                     V1.HelmReleasePhaseSucceeded (revision c));
           called (annotateResources (newRel st) (V1.ResourceID hr))].
Proof using Type.
  intros Hen Hign Hphase Htest.
  unfold outcomeOf, callsOf, failedTest. cbn.
  rewrite Hen. cbn. rewrite Hphase. cbn. rewrite Htest. cbn.
  destruct (h _ (SetStatusPhase _ _ V1.HelmReleasePhaseTestFailed) w2) as [u w3]. cbn.
  rewrite Hign. cbn.
  destruct (h _ (SetStatusPhaseWithRevision _ _ _ _) w3) as [u' w4]. cbn.
  destruct (h _ (annotateResources _ _) w4) as [[e' |] w5]; cbn; split; reflexivity.
Qed.

(** X14: A first installation whose test fails is uninstalled.  When the
    loop comes to [Test] without a current release, the test fails and
    failures are not ignored, it goes on with [Uninstall]: the phase
    [Succeeded] is not recorded, Helm is asked to uninstall the release
    (and the git mirror of the chart is deleted, if the resource has a
    git source), and the loop ends with the error of the test added to
    the errors collected; a failure of the uninstall is not added. *)
Theorem failed_test_of_first_install_uninstalls {W : Type} (h : handler W) (w w1 w2 : W)
  (st : loopState) (e : error) (n : nat) :
  V1.TestEnable (V1.Test_ (V1.Spec hr)) = true ->
  V1.GetIgnoreFailures (V1.Test_ (V1.Spec hr)) = false ->
  h _ (SetStatusPhase (V1.Namespace hr) hr V1.HelmReleasePhaseTesting) w = (tt, w1) ->
  h _ (ClientTest client (V1.GetReleaseName hr)
         {| Helm.TestNamespace := V1.GetTargetNamespace hr;
            Helm.TestTimeout := V1.GetTestTimeout (V1.Test_ (V1.Spec hr));
            Helm.TestCleanup := V1.GetCleanup (V1.Test_ (V1.Spec hr)) |}) w1
  = (Some e, w2) ->
  outcomeOf h (loop (2 + n) r client hr None c values TestAction st) w
  = Returned (Some {| newRel := newRel st;
                      errs := errs st ++ [Errorf "test failed: %w" [ArgErr e]] |})
  /\ callsOf h (loop (2 + n) r client hr None c values TestAction st) w
     = failedTest client hr
       ++ [called (ClientUninstall client (V1.GetReleaseName hr)
                     {| Helm.UninstallNamespace := V1.GetTargetNamespace hr;
                        Helm.KeepHistory := false;
                        Helm.UninstallTimeout := V1.GetTimeout hr |})]
       ++ match V1.GitChartSource_ (V1.Spec hr) with
          | Some _ => [called (GitChartSyncDelete hr)]
          | None => []
          end.
Proof using Type.
  intros Hen Hign Hphase Htest.
  unfold outcomeOf, callsOf, failedTest. cbn.
  rewrite Hen. cbn. rewrite Hphase. cbn. rewrite Htest. cbn.
  destruct (h _ (SetStatusPhase _ _ V1.HelmReleasePhaseTestFailed) w2) as [u w3]. cbn.
  rewrite Hign. cbn.
  destruct (h _ (ClientUninstall _ _ _) w3) as [[e' |] w4]; cbn;
    destruct (V1.GitChartSource_ (V1.Spec hr)) as [g |]; cbn;
    try destruct (h _ (GitChartSyncDelete hr) w4) as [b w5]; split; reflexivity.
Qed.

(** *** DryRunCompare *)

(** X15: A comparison that finds no difference changes nothing: the only
    Helm call of the run is the dry-run upgrade, the phase [Succeeded]
    is reported unless the release had been rolled back, and [run]
    returns nil. *)
Theorem dry_run_without_diff_changes_nothing {W : Type} (h : handler W) (w w1 w2 : W)
  (cur : Helm.Release) (dryRel : option Helm.Release) (rolledBack : bool) :
  h _ (ClientUpgradeFromPath client (chartPath c) (V1.GetReleaseName hr) values
         (dryRunOptions hr)) w = (Ok dryRel, w1) ->
  Helm.Diff (Some cur) dryRel = "" ->
  h _ (HasRolledBack hr) w1 = (rolledBack, w2) ->
  outcomeOf h (run r client DryRunCompareAction hr (Some cur) c values) w = Returned None
  /\ callsOf h (run r client DryRunCompareAction hr (Some cur) c values) w
     = [called (ClientUpgradeFromPath client (chartPath c) (V1.GetReleaseName hr) values
                  (dryRunOptions hr));
        called (HasRolledBack hr)]
       ++ (if rolledBack then []
           else [called (SetStatusPhase (V1.Namespace hr) hr V1.HelmReleasePhaseSucceeded)])
  /\ Helm.DryRun (dryRunOptions hr) = true.
Proof using Type.
  intros Hdry Hdiff Hrb.
  unfold outcomeOf, callsOf, run, passes. cbn.
  rewrite Hdry. cbn. rewrite Hdiff. cbn. rewrite Hrb.
  destruct rolledBack; cbn.
  - repeat split.
  - destruct (h _ (SetStatusPhase _ _ _) w2) as [u w3]. cbn. repeat split.
Qed.

(** *** Migrate *)

(** X16: The conversion of a Helm 2 release is a dry run unless the migrate
    annotation reads exactly [true]: the converter is asked for a dry
    run, and when it succeeds the run ends there, with the phase
    [Succeeded] reported and no upgrade. *)
Theorem migrate_is_dry_run_by_default {W : Type} (h : handler W) (w w1 w2 : W)
  (curRel : option Helm.Release) :
  V1.Annotations hr !! MigrateAnnotation <> Some "true" ->
  h _ (SetStatusPhaseWithRevision (V1.Namespace hr) hr V1.HelmReleasePhaseMigrating
         (revision c)) w = (tt, w1) ->
  h _ (Convert (V1.GetReleaseName hr) true) w1 = (None, w2) ->
  outcomeOf h (run r client MigrateAction hr curRel c values) w = Returned None
  /\ callsOf h (run r client MigrateAction hr curRel c values) w
     = [called (SetStatusPhaseWithRevision (V1.Namespace hr) hr
                  V1.HelmReleasePhaseMigrating (revision c));
        called (Convert (V1.GetReleaseName hr) true);
        called (SetStatusPhase (V1.Namespace hr) hr V1.HelmReleasePhaseSucceeded)].
Proof using Type.
  intros Hann Hphase Hconv.
  unfold outcomeOf, callsOf, run, passes. cbn.
  rewrite bool_decide_eq_false_2 by exact Hann. cbn.
  rewrite Hphase. cbn. rewrite Hconv. cbn.
  destruct (h _ (SetStatusPhase _ _ _) w2) as [u w3]. cbn. split; reflexivity.
Qed.

(** X17: After a migration the loop upgrades without a current release.  If
    that upgrade fails and rollbacks are enabled, the [Rollback] action
    reads the version of the nil release: [run] panics, after it has
    asked Helm for the latest release. *)
Theorem failed_upgrade_after_migration_panics {W : Type} (h : handler W)
  (w w1 w2 w3 w4 w5 w6 w7 : W) (e : error) (latest : option Helm.Release) :
  V1.Annotations hr !! MigrateAnnotation = Some "true" ->
  V1.RollbackEnable (V1.Rollback_ (V1.Spec hr)) = true ->
  h _ (SetStatusPhaseWithRevision (V1.Namespace hr) hr V1.HelmReleasePhaseMigrating
         (revision c)) w = (tt, w1) ->
  h _ (Convert (V1.GetReleaseName hr) false) w1 = (None, w2) ->
  h _ (SetStatusPhase (V1.Namespace hr) hr V1.HelmReleasePhaseSucceeded) w2 = (tt, w3) ->
  h _ (SetStatusPhaseWithRevision (V1.Namespace hr) hr V1.HelmReleasePhaseUpgrading
         (revision c)) w3 = (tt, w4) ->
  h _ (ClientUpgradeFromPath client (chartPath c) (V1.GetReleaseName hr) values
         (upgradeOptions hr)) w4 = (Err e, w5) ->
  h _ (SetStatusPhase (V1.Namespace hr) hr V1.HelmReleasePhaseDeployFailed) w5 = (tt, w6) ->
  h _ (ClientGet client (V1.GetReleaseName hr) (getOptions hr)) w6 = (Ok latest, w7) ->
  outcomeOf h (run r client MigrateAction hr None c values) w = Panicked nilDereference
  /\ last (callsOf h (run r client MigrateAction hr None c values) w)
     = Some (called (ClientGet client (V1.GetReleaseName hr) (getOptions hr))).
Proof using Type.
  intros Hann Hrb H1 H2 H3 H4 H5 H6 H7.
  unfold outcomeOf, callsOf, run, passes. cbn.
  rewrite bool_decide_eq_true_2 by exact Hann. cbn.
  rewrite H1. cbn. rewrite H2. cbn. rewrite H3. cbn. rewrite H4. cbn. rewrite H5. cbn.
  rewrite H6. cbn. rewrite Hrb. cbn. rewrite H7. cbn. split; reflexivity.
Qed.

End Paths.

(** *** The paths on concrete runs *)

(** The resource [hr] with tests enabled, failures ignored or not. *)
Definition withTests (ignoreFailures : bool) (hr : V1.HelmRelease) : V1.HelmRelease :=
  let sp := V1.Spec hr in
  {| V1.Namespace := V1.Namespace hr;
     V1.ObjName := V1.ObjName hr;
     V1.Generation := V1.Generation hr;
     V1.Annotations := V1.Annotations hr;
     V1.Spec :=
       {| V1.HelmVersion := V1.HelmVersion sp;
          V1.GitChartSource_ := V1.GitChartSource_ sp;
          V1.RepoChartSource_ := V1.RepoChartSource_ sp;
          V1.Customize_ := V1.Customize_ sp;
          V1.Oss_ := V1.Oss_ sp;
          V1.ReleaseName := V1.ReleaseName sp;
          V1.TargetNamespace := V1.TargetNamespace sp;
          V1.Timeout := V1.Timeout sp;
          V1.MaxHistory := V1.MaxHistory sp;
          V1.ResetValues := V1.ResetValues sp;
          V1.ForceUpgrade := V1.ForceUpgrade sp;
          V1.SkipCRDs := V1.SkipCRDs sp;
          V1.Wait := V1.Wait sp;
          V1.DisableOpenAPIValidation := V1.DisableOpenAPIValidation sp;
          V1.Test_ := {| V1.TestEnable := true;
                         V1.TestIgnoreFailures := Some ignoreFailures;
                         V1.TestTimeout := None;
                         V1.TestCleanup := None |};
          V1.Rollback_ := V1.Rollback_ sp;
          V1.AppId := V1.AppId sp;
          V1.ComponentId := V1.ComponentId sp;
          V1.IstioEnabled := V1.IstioEnabled sp;
          V1.LogCollect := V1.LogCollect sp |};
     V1.Status := V1.Status hr |}.

(** A world in which the tests of a release fail. *)
Definition failingTests : handler unit := fun R op w =>
  (match op in Op T return T with
   | ClientTest _ _ _ => Some (External "pod podinfo-test failed")
   | op' => Samples.quietAnswer op'
   end, w).

(** A world in which Helm cannot upgrade. *)
Definition failingUpgrade : handler unit := fun R op w =>
  (match op in Op T return T with
   | ClientUpgradeFromPath _ _ _ _ _ => Err (External "UPGRADE FAILED")
   | op' => Samples.quietAnswer op'
   end, w).

(** A resource that asks for a real migration, or for a dry run of it,
    with rollbacks enabled. *)
Definition migrating (annotation : string) : V1.HelmRelease :=
  Samples.resource {[ MigrateAnnotation := annotation ]} 1 0
    (Samples.spec "v3" None (Some Samples.repoSource) None None true).

(** The release [podinfo] is deployed and owned by the resource, whose
    last generation is not synchronised: the start is [Upgrade], with
    the release found. *)
Lemma release_is_handed_over_when_owned_witness :
  exists (curRel : Helm.Release) (w1 : unit) (antecedent : string),
    Samples.withRelease 1 _
      (ClientGet "v2" "podinfo" (@getOptions Samples.plainAccessors Samples.staleResource)) tt
    = (Ok (Some curRel), w1)
    /\ fst (Samples.withRelease 1 _ (managedByHelmRelease curRel Samples.staleResource) w1)
       = (true, antecedent, None)
    /\ @Helm.AllowsUpgrade Samples.deployedOnly (Helm.InfoStatus (Helm.Info_ curRel)) = true
    /\ (UpgradeAction = UpgradeAction -> Samples.deployed 1 = curRel).
Proof.
  apply (@release_is_handed_over_when_owned Samples.plainAccessors Samples.deployedOnly
           Samples.engine "v2" Samples.staleResource (Samples.sampleChart false) unit
           (Samples.withRelease 1) tt UpgradeAction (Samples.deployed 1) None).
  reflexivity.
Defined.

(** An upgrade to the release [podinfo] was made, and the test of the
    new release fails. *)
Definition upgraded : loopState := {| newRel := Some (Samples.deployed 2); errs := [] |}.

Lemma ignored_test_failure_is_reported_witness :
  outcomeOf failingTests
    (@loop Samples.plainAccessors Samples.deployedOnly (2 + 1) Samples.engine "v2"
       (withTests true Samples.staleResource) (Some (Samples.deployed 1))
       (Samples.sampleChart true) "" TestAction upgraded) tt
  = Returned (Some {| newRel := Some (Samples.deployed 2);
                      errs := [] ++ [Errorf "test failed: %w"
                                       [ArgErr (External "pod podinfo-test failed")]] |})
  /\ callsOf failingTests
       (@loop Samples.plainAccessors Samples.deployedOnly (2 + 1) Samples.engine "v2"
          (withTests true Samples.staleResource) (Some (Samples.deployed 1))
          (Samples.sampleChart true) "" TestAction upgraded) tt
     = @failedTest Samples.plainAccessors "v2" (withTests true Samples.staleResource)
       ++ [called (SetStatusPhaseWithRevision "demo" (withTests true Samples.staleResource)
                     V1.HelmReleasePhaseSucceeded "1.0.0");
           called (annotateResources (Some (Samples.deployed 2)) "demo:helmrelease/podinfo")].
Proof.
  apply (@ignored_test_failure_is_reported Samples.plainAccessors Samples.deployedOnly
           Samples.engine "v2" (withTests true Samples.staleResource)
           (Samples.sampleChart true) "" unit failingTests tt tt tt
           (Some (Samples.deployed 1)) upgraded (External "pod podinfo-test failed") 1);
    reflexivity.
Defined.

Lemma failed_test_of_first_install_uninstalls_witness :
  outcomeOf failingTests
    (@loop Samples.plainAccessors Samples.deployedOnly (2 + 2) Samples.engine "v2"
       (withTests false Samples.staleResource) None (Samples.sampleChart true) ""
       TestAction upgraded) tt
  = Returned (Some {| newRel := Some (Samples.deployed 2);
                      errs := [] ++ [Errorf "test failed: %w"
                                       [ArgErr (External "pod podinfo-test failed")]] |})
  /\ callsOf failingTests
       (@loop Samples.plainAccessors Samples.deployedOnly (2 + 2) Samples.engine "v2"
          (withTests false Samples.staleResource) None (Samples.sampleChart true) ""
          TestAction upgraded) tt
     = @failedTest Samples.plainAccessors "v2" (withTests false Samples.staleResource)
       ++ [called (ClientUninstall "v2" "podinfo"
                     {| Helm.UninstallNamespace := "demo"; Helm.KeepHistory := false;
                        Helm.UninstallTimeout := 300 |})]
       ++ [].
Proof.
  apply (@failed_test_of_first_install_uninstalls Samples.plainAccessors
           Samples.deployedOnly Samples.engine "v2" (withTests false Samples.staleResource)
           (Samples.sampleChart true) "" unit failingTests tt tt tt upgraded
           (External "pod podinfo-test failed") 2);
    reflexivity.
Defined.

(** The same test after an installation that [run] made: [Sync]
    installs, the test fails, the release is uninstalled, and the error
    of the test is what [run] returns. *)
Example run_uninstalls_after_failed_test :
  outcomeOf failingTests
    (@run Samples.plainAccessors Samples.deployedOnly Samples.engine "v2" InstallAction
       (withTests false Samples.staleResource) None (Samples.sampleChart true) "") tt
  = Returned (Some (errCollection
                      [Errorf "test failed: %w"
                         [ArgErr (External "pod podinfo-test failed")]]))
  /\ existsb LoopInvariants.isUninstall
       (callsOf failingTests
          (@run Samples.plainAccessors Samples.deployedOnly Samples.engine "v2"
             InstallAction (withTests false Samples.staleResource) None
             (Samples.sampleChart true) "") tt)
     = true.
Proof. split; reflexivity. Qed.

Lemma dry_run_without_diff_changes_nothing_witness :
  outcomeOf (Samples.withRelease 1)
    (@run Samples.plainAccessors Samples.deployedOnly Samples.engine "v2"
       DryRunCompareAction Samples.syncedResource (Some (Samples.deployed 1))
       (Samples.sampleChart false) "") tt
  = Returned None
  /\ callsOf (Samples.withRelease 1)
       (@run Samples.plainAccessors Samples.deployedOnly Samples.engine "v2"
          DryRunCompareAction Samples.syncedResource (Some (Samples.deployed 1))
          (Samples.sampleChart false) "") tt
     = [called (ClientUpgradeFromPath "v2" "/tmp/podinfo-1.0.0.tgz" "podinfo" ""
                  (@dryRunOptions Samples.plainAccessors Samples.syncedResource));
        called (HasRolledBack Samples.syncedResource)]
       ++ [called (SetStatusPhase "demo" Samples.syncedResource V1.HelmReleasePhaseSucceeded)]
  /\ Helm.DryRun (@dryRunOptions Samples.plainAccessors Samples.syncedResource) = true.
Proof.
  apply (@dry_run_without_diff_changes_nothing Samples.plainAccessors Samples.deployedOnly
           Samples.engine "v2" Samples.syncedResource (Samples.sampleChart false) ""
           unit (Samples.withRelease 1) tt tt tt (Samples.deployed 1) None false);
    reflexivity.
Defined.

Lemma migrate_is_dry_run_by_default_witness :
  outcomeOf Samples.withV2Release
    (@run Samples.plainAccessors Samples.deployedOnly Samples.engine "v3" MigrateAction
       (migrating "yes") None (Samples.sampleChart true) "") tt
  = Returned None
  /\ callsOf Samples.withV2Release
       (@run Samples.plainAccessors Samples.deployedOnly Samples.engine "v3" MigrateAction
          (migrating "yes") None (Samples.sampleChart true) "") tt
     = [called (SetStatusPhaseWithRevision "demo" (migrating "yes")
                  V1.HelmReleasePhaseMigrating "1.0.0");
        called (Convert "podinfo" true);
        called (SetStatusPhase "demo" (migrating "yes") V1.HelmReleasePhaseSucceeded)].
Proof.
  apply (@migrate_is_dry_run_by_default Samples.plainAccessors Samples.deployedOnly
           Samples.engine "v3" (migrating "yes") (Samples.sampleChart true) ""
           unit Samples.withV2Release tt tt tt None);
    [vm_compute; discriminate | reflexivity | reflexivity].
Defined.

Lemma failed_upgrade_after_migration_panics_witness :
  outcomeOf failingUpgrade
    (@run Samples.plainAccessors Samples.deployedOnly Samples.engine "v3" MigrateAction
       (migrating "true") None (Samples.sampleChart true) "") tt
  = Panicked nilDereference
  /\ last (callsOf failingUpgrade
             (@run Samples.plainAccessors Samples.deployedOnly Samples.engine "v3"
                MigrateAction (migrating "true") None (Samples.sampleChart true) "") tt)
     = Some (called (ClientGet "v3" "podinfo"
                       (@getOptions Samples.plainAccessors (migrating "true")))).
Proof.
  apply (@failed_upgrade_after_migration_panics Samples.plainAccessors Samples.deployedOnly
           Samples.engine "v3" (migrating "true") (Samples.sampleChart true) ""
           unit failingUpgrade tt tt tt tt tt tt tt tt (External "UPGRADE FAILED") None);
    reflexivity.
Defined.

(** The whole of [Sync] on that resource: the Helm 2 release is
    converted, the upgrade fails, and the panic leaves [Sync] after the
    deferred record of the observed generation. *)
Example Sync_panics_after_failed_migrated_upgrade :
  outcomeOf (fun R op w =>
               (match op in Op T return T with
                | V2ReleaseExists _ => Ok true
                | ClientUpgradeFromPath _ _ _ _ _ => Err (External "UPGRADE FAILED")
                | op' => Samples.quietAnswer op'
                end, w))
    (@Sync Samples.plainAccessors Samples.deployedOnly Samples.slashJoin Samples.engine
       (migrating "true")) tt
  = Panicked nilDereference.
Proof. vm_compute. reflexivity. Qed.

(** A first installation that Helm refuses: after the three calls of
    [Install] the loop goes on with [Uninstall], and ends with the error
    of the installation. *)
Example loop_uninstalls_after_failed_install :
  exec failingUpgrade
    (@loop Samples.plainAccessors Samples.deployedOnly passes Samples.engine "v2"
       Samples.staleResource None (Samples.sampleChart true) "" InstallAction
       {| newRel := None; errs := [] |}) tt
  = (Returned (Some {| newRel := None;
                       errs := [Errorf "installation failed: %w"
                                  [ArgErr (External "UPGRADE FAILED")]] |}),
     tt,
     [called (SetStatusPhaseWithRevision "demo" Samples.staleResource
                V1.HelmReleasePhaseInstalling "1.0.0");
      called (ClientUpgradeFromPath "v2" "/tmp/podinfo-1.0.0.tgz" "podinfo" ""
                (@installOptions Samples.plainAccessors Samples.staleResource));
      called (SetStatusPhase "demo" Samples.staleResource V1.HelmReleasePhaseDeployFailed);
      called (ClientUninstall "v2" "podinfo"
                {| Helm.UninstallNamespace := "demo"; Helm.KeepHistory := false;
                   Helm.UninstallTimeout := 300 |})]).
Proof. reflexivity. Qed.

(** An upgrade that Helm refuses, of a release that Helm has meanwhile
    at a newer version: the loop goes on with [Rollback], the rollback
    succeeds, and the loop goes on with [Annotate]. *)
Example loop_rolls_back_after_failed_upgrade :
  callsOf (fun R op w =>
             (match op in Op T return T with
              | ClientGet _ _ _ => Ok (Some (Samples.deployed 2))
              | ClientUpgradeFromPath _ _ _ _ _ => Err (External "UPGRADE FAILED")
              | op' => Samples.quietAnswer op'
              end, w))
    (@loop Samples.plainAccessors Samples.deployedOnly passes Samples.engine "v2"
       Samples.staleResource (Some (Samples.deployed 1)) (Samples.sampleChart true) ""
       UpgradeAction {| newRel := None; errs := [] |}) tt
  = [called (SetStatusPhaseWithRevision "demo" Samples.staleResource
               V1.HelmReleasePhaseUpgrading "1.0.0");
     called (ClientUpgradeFromPath "v2" "/tmp/podinfo-1.0.0.tgz" "podinfo" ""
               (@upgradeOptions Samples.plainAccessors Samples.staleResource));
     called (SetStatusPhase "demo" Samples.staleResource V1.HelmReleasePhaseDeployFailed);
     called (ClientGet "v2" "podinfo"
               (@getOptions Samples.plainAccessors Samples.staleResource));
     called (SetStatusPhase "demo" Samples.staleResource V1.HelmReleasePhaseRollingBack);
     called (ClientRollback "v2" "podinfo"
               (@rollbackOptions Samples.plainAccessors Samples.staleResource));
     called (SetStatusPhase "demo" Samples.staleResource V1.HelmReleasePhaseRolledBack);
     called (annotateResources None "demo:helmrelease/podinfo")].
Proof. reflexivity. Qed.

End ActionPaths.

(** ** The object-store providers: cache, credentials, and what is closed *)

Module ObjectStore.

Import Base64 Chartsync ProgFacts Base64Facts.

(** The name of the cache file of an object key, inside the cache
    directory. *)
Definition cacheName (oss : V1.Oss) : string :=
  EncodeToString URLEncoding (list_ascii_of_string (V1.Key oss)).

(** A padded encoding whose alphabet reads back what it writes. *)
Definition readsBack (enc : Encoding) : Prop :=
  padChar enc = Some "="%char
  /\ forall b0 b1 b2 b3 b4 b5 : bool,
       decodeMap enc (encodeChar enc (Ascii b0 b1 b2 b3 b4 b5 false false))
       = Some (Ascii b0 b1 b2 b3 b4 b5 false false).

Lemma URLEncoding_readsBack : readsBack URLEncoding.
Proof. split; [reflexivity |]. intros. destruct b0, b1, b2, b3, b4, b5; vm_compute; reflexivity. Qed.

Lemma StdEncoding_readsBack : readsBack StdEncoding.
Proof. split; [reflexivity |]. intros. destruct b0, b1, b2, b3, b4, b5; vm_compute; reflexivity. Qed.

(** Decoding what a padded encoding wrote gives the bytes back, without
    error. *)
Lemma decodeFrom_Encode_padded (enc : Encoding) (src : list ascii) :
  readsBack enc ->
  decodeMap enc "="%char = None ->
  forall (len si : Z), decodeFrom enc len [] (Encode enc src) si = (src, None).
Proof.
  intros [Hpad Hmap] Heq.
  induction src as [| a | a b | a b c rest IH] using list_ind3; intros len si.
  - reflexivity.
  - destruct a as [a0 a1 a2 a3 a4 a5 a6 a7].
    unfold Encode, padding. rewrite Hpad.
    cbn [sextet0 sextet1 zero app repeat decodeFrom].
    repeat (rewrite Hmap; cbn [app decodeFrom]).
    rewrite Heq. unfold isPad. rewrite Hpad. cbn. reflexivity.
  - destruct a as [a0 a1 a2 a3 a4 a5 a6 a7], b as [b0 b1 b2 b3 b4 b5 b6 b7].
    unfold Encode, padding. rewrite Hpad.
    cbn [sextet0 sextet1 sextet2 zero app repeat decodeFrom].
    repeat (rewrite Hmap; cbn [app decodeFrom]).
    rewrite Heq. unfold isPad. rewrite Hpad. cbn. reflexivity.
  - destruct a as [a0 a1 a2 a3 a4 a5 a6 a7], b as [b0 b1 b2 b3 b4 b5 b6 b7],
      c as [c0 c1 c2 c3 c4 c5 c6 c7].
    cbn [Encode sextet0 sextet1 sextet2 sextet3 decodeFrom].
    repeat (rewrite Hmap; cbn [app decodeFrom]).
    rewrite IH. reflexivity.
Qed.

Lemma DecodeString_EncodeToString_padded (enc : Encoding) (src : list ascii) :
  readsBack enc ->
  decodeMap enc "="%char = None ->
  DecodeString enc (EncodeToString enc src) = (src, None).
Proof.
  intros Hr Heq. unfold DecodeString, EncodeToString.
  rewrite list_ascii_of_string_of_list_ascii. apply decodeFrom_Encode_padded; assumption.
Qed.

(** The characters that the URL-safe encoding writes. *)
Lemma encodeChar_URL_no_slash (b0 b1 b2 b3 b4 b5 : bool) :
  encodeChar URLEncoding (Ascii b0 b1 b2 b3 b4 b5 false false) <> "/"%char.
Proof. destruct b0, b1, b2, b3, b4, b5; vm_compute; discriminate. Qed.

Lemma Encode_URL_no_slash (src : list ascii) :
  Forall (fun ch => ch <> "/"%char) (Encode URLEncoding src).
Proof.
  induction src as [| a | a b | a b c rest IH] using list_ind3.
  - constructor.
  - destruct a as [a0 a1 a2 a3 a4 a5 a6 a7]. cbn.
    repeat (constructor; [first [apply encodeChar_URL_no_slash | discriminate] |]).
    constructor.
  - destruct a as [a0 a1 a2 a3 a4 a5 a6 a7], b as [b0 b1 b2 b3 b4 b5 b6 b7]. cbn.
    repeat (constructor; [first [apply encodeChar_URL_no_slash | discriminate] |]).
    constructor.
  - destruct a as [a0 a1 a2 a3 a4 a5 a6 a7], b as [b0 b1 b2 b3 b4 b5 b6 b7],
      c as [c0 c1 c2 c3 c4 c5 c6 c7].
    cbn [Encode sextet0 sextet1 sextet2 sextet3].
    repeat (constructor; [apply encodeChar_URL_no_slash |]).
    exact IH.
Qed.

(** X18: The cache file of an object is named after its key in URL-safe
    base64: the name holds no slash, whatever the key (it stays inside
    the cache directory), and two keys never share a name. *)
Theorem cache_file_name_is_safe :
  (forall oss : V1.Oss,
      Forall (fun ch => ch <> "/"%char) (list_ascii_of_string (cacheName oss)))
  /\ (forall oss1 oss2 : V1.Oss,
         cacheName oss1 = cacheName oss2 -> V1.Key oss1 = V1.Key oss2).
Proof.
  split.
  - intros oss. unfold cacheName, EncodeToString.
    rewrite list_ascii_of_string_of_list_ascii. apply Encode_URL_no_slash.
  - intros oss1 oss2 Heq. unfold cacheName in Heq.
    pose proof (DecodeString_EncodeToString_padded URLEncoding
                  (list_ascii_of_string (V1.Key oss1)) URLEncoding_readsBack eq_refl) as H1.
    pose proof (DecodeString_EncodeToString_padded URLEncoding
                  (list_ascii_of_string (V1.Key oss2)) URLEncoding_readsBack eq_refl) as H2.
    rewrite Heq in H1. rewrite H1 in H2. injection H2 as H2.
    rewrite <- (string_of_list_ascii_of_string (V1.Key oss1)),
      <- (string_of_list_ascii_of_string (V1.Key oss2)), H2.
    reflexivity.
Qed.

Section Download.

Context `{FilePath}.

(** The path of the cache file. *)
Definition cachePath (p : Provider) : string :=
  Join (providerBase p) (cacheName (providerOss p)).

(** X19: With [useCache] and the cache file in place, [DownloadFile] returns
    the path of that file at once: the credentials are not decoded and
    no object store is contacted.  This holds for both providers. *)
Theorem DownloadFile_cache_hit {W : Type} (h : handler W) (w w1 w2 : W) (p : Provider) :
  h _ (KlogInfo ("cache used,key: " +:+ V1.Key (providerOss p) +:+ ",path:" +:+ cachePath p)) w
  = (tt, w1) ->
  h _ (OsStat (cachePath p)) w1 = (None, w2) ->
  exec h (ProviderDownloadFile p true) w
  = (Returned (providerOss p, Ok (cachePath p)), w2,
     [called (KlogInfo ("cache used,key: " +:+ V1.Key (providerOss p) +:+ ",path:"
                        +:+ cachePath p));
      called (OsStat (cachePath p))]).
Proof.
  intros Hlog Hstat. unfold ProviderDownloadFile, cachePath, cacheName in *.
  cbn. rewrite Hlog. cbn. rewrite Hstat. reflexivity.
Qed.

(** What [DownloadFile] does before it decodes the credentials. *)
Definition lookup (p : Provider) (useCache : bool) : Prog bool :=
  if useCache then
    call (KlogInfo ("cache used,key: " +:+ V1.Key (providerOss p) +:+ ",path:"
                    +:+ cachePath p));;
    err ← call (OsStat (cachePath p));
    mret (match err with None => true | Some _ => false end)
  else mret false.

Lemma ProviderDownloadFile_unfold (p : Provider) (useCache : bool) :
  ProviderDownloadFile p useCache
  = bind (lookup p useCache) (fun cached : bool =>
      if cached then mret (providerOss p, Ok (cachePath p))
      else
        bind (AckDecode (providerOss p)) (fun '(oss', err) =>
          match err with
          | Some e => mret (oss', Err e)
          | None => bind (fetchObject p oss' (cachePath p)) (fun r => mret (oss', r))
          end)).
Proof. reflexivity. Qed.

(** When the credentials cannot be decoded, [DownloadFile] contacts no
    object store: after the look-up in the cache its calls are those of
    [AckDecode], and it returns the error of the decoder as it is (not
    wrapped as a [ChartUnavailableError]). *)
Theorem DownloadFile_stops_on_bad_credentials {W : Type} (h : handler W) (w w1 w2 : W)
  (p : Provider) (useCache : bool) (oss' : V1.Oss) (e : error) (looked decoding : list Call) :
  exec h (lookup p useCache) w = (Returned false, w1, looked) ->
  exec h (AckDecode (providerOss p)) w1 = (Returned (oss', Some e), w2, decoding) ->
  exec h (ProviderDownloadFile p useCache) w
  = (Returned (oss', Err e), w2, looked ++ decoding).
Proof.
  intros Hlook Hack. rewrite ProviderDownloadFile_unfold.
  rewrite exec_bind, Hlook. rewrite exec_bind, Hack. cbn.
  rewrite app_nil_r. reflexivity.
Qed.

(** X20: The Huawei client is closed once it exists: when [obs.New]
    succeeded, [Close] is the last call of [DownloadFile], whether the
    download succeeded or not, and a failed download is returned as a
    [ChartUnavailableError]; when [obs.New] failed there is nothing to
    close. *)
Theorem huawei_client_is_closed {W : Type} (h : handler W) (w w1 w2 : W)
  (oss oss' : V1.Oss) (base : string) (useCache : bool) (looked decoding : list Call) :
  let p := huaweiImpl oss base in
  exec h (lookup p useCache) w = (Returned false, w1, looked) ->
  exec h (AckDecode oss) w1 = (Returned (oss', None), w2, decoding) ->
  let new := ObsNew (V1.AckId oss') (V1.AckSecret oss')
               ("http://obs." +:+ V1.RegionId oss' +:+ ".myhuaweicloud.com") in
  let download := ObsDownloadFile (V1.Bucket oss') (V1.Key oss') (cachePath p) in
  match h _ new w2 with
  | (Some e, w3) =>
      exec h (ProviderDownloadFile p useCache) w
      = (Returned (oss', Err (ChartUnavailableError e)), w3,
         looked ++ decoding ++ [called new])
  | (None, w3) =>
      let (err, w4) := h _ download w3 in
      exec h (ProviderDownloadFile p useCache) w
      = (Returned (oss', match err with
                         | Some e => Err (ChartUnavailableError e)
                         | None => Ok (cachePath p)
                         end),
         snd (h _ ObsClose w4),
         looked ++ decoding ++ [called new; called download; called ObsClose])
  end.
Proof.
  intros p Hlook Hack new download. rewrite ProviderDownloadFile_unfold.
  rewrite exec_bind, Hlook. rewrite exec_bind. cbn [providerOss p]. rewrite Hack.
  subst new download. cbn.
  destruct (h _ (ObsNew _ _ _) w2) as [[e |] w3']; cbn.
  - reflexivity.
  - destruct (h _ (ObsDownloadFile _ _ _) w3') as [[e |] w4]; cbn;
      destruct (h _ ObsClose w4) as [u w5]; cbn; reflexivity.
Qed.

End Download.

(** *** The providers on concrete runs *)

Definition store (provider ackId : string) (encrypted : bool) : V1.Oss :=
  {| V1.CloudProvider := provider; V1.RegionId := "cn-north-4"; V1.Bucket := "charts";
     V1.Key := "charts/podinfo?>.tgz"; V1.AckId := ackId; V1.AckSecret := "secret";
     V1.AckEncrypted := encrypted; V1.UseCache := true |}.

(** The key holds a slash; the name of its cache file does not. *)
Example cacheName_of_key :
  cacheName (store Ali "id" false) = "Y2hhcnRzL3BvZGluZm8_Pi50Z3o=".
Proof. reflexivity. Qed.

Lemma DownloadFile_cache_hit_witness :
  exec Samples.quiet
    (@ProviderDownloadFile Samples.slashJoin (aliImpl (store Ali "id" true) "/tmp") true) tt
  = (Returned (store Ali "id" true, Ok "/tmp/Y2hhcnRzL3BvZGluZm8_Pi50Z3o="), tt,
     [called (KlogInfo "cache used,key: charts/podinfo?>.tgz,path:/tmp/Y2hhcnRzL3BvZGluZm8_Pi50Z3o=");
      called (OsStat "/tmp/Y2hhcnRzL3BvZGluZm8_Pi50Z3o=")]).
Proof.
  apply (@DownloadFile_cache_hit Samples.slashJoin unit Samples.quiet tt tt tt
           (aliImpl (store Ali "id" true) "/tmp"));
    reflexivity.
Defined.

Lemma DownloadFile_stops_on_bad_credentials_witness :
  exec Samples.quiet
    (@ProviderDownloadFile Samples.slashJoin (aliImpl (store Ali "%%%" true) "/tmp") false) tt
  = (Returned (store Ali "%%%" true, Err (CorruptInputError 0)), tt, [] ++ []).
Proof.
  apply (@DownloadFile_stops_on_bad_credentials Samples.slashJoin unit Samples.quiet
           tt tt tt (aliImpl (store Ali "%%%" true) "/tmp") false);
    reflexivity.
Defined.

(** A world in which the object is not in the bucket. *)
Definition missingObject : handler unit := fun R op w =>
  (match op in Op T return T with
   | ObsDownloadFile _ _ _ => Some (External "NoSuchKey")
   | op' => Samples.quietAnswer op'
   end, w).

Lemma huawei_client_is_closed_witness :
  exec missingObject
    (@ProviderDownloadFile Samples.slashJoin (huaweiImpl (store Huawei "id" false) "/tmp")
       false) tt
  = (Returned (store Huawei "id" false, Err (ChartUnavailableError (External "NoSuchKey"))),
     tt,
     [called (ObsNew "id" "secret" "http://obs.cn-north-4.myhuaweicloud.com");
      called (ObsDownloadFile "charts" "charts/podinfo?>.tgz"
                "/tmp/Y2hhcnRzL3BvZGluZm8_Pi50Z3o=");
      called ObsClose]).
Proof.
  exact (@huawei_client_is_closed Samples.slashJoin unit missingObject tt tt tt
           (store Huawei "id" false) (store Huawei "id" false) "/tmp" false [] []
           eq_refl eq_refl).
Defined.

End ObjectStore.

(** ** The decoder of oss.go: what it reads, and what it makes of the rest *)

Module Decoder.

Import Base64 AES Chartsync ProgFacts AESFacts Base64Facts Credentials.

Definition sliceBounds : string := "runtime error: slice bounds out of range".

(** Block-wise encryption with [cipher.Encrypt], the counterpart of the
    loop of [AESDecrypt] (ECB): the repository holds no encoder for its
    decoder, this is the one it reads. *)
Fixpoint ecbEncryptBlocks (c : aesCipher) (src : list ascii) : list ascii :=
  match src with
  | b0 :: b1 :: b2 :: b3 :: b4 :: b5 :: b6 :: b7 :: b8 :: b9 :: b10 :: b11
       :: b12 :: b13 :: b14 :: b15 :: rest =>
      encryptBlock c [b0; b1; b2; b3; b4; b5; b6; b7; b8; b9; b10; b11;
                      b12; b13; b14; b15]
      ++ ecbEncryptBlocks c rest
  | _ => []
  end.

Ltac block s Hs :=
  do 16 (destruct s as [| ? s]; [discriminate Hs |]);
  destruct s; [| discriminate Hs]; clear Hs.

Lemma decryptBlocks_app (c : aesCipher) (blk rest : list ascii) :
  length blk = 16%nat ->
  decryptBlocks c (blk ++ rest)
  = obind (decryptBlocks c rest) (fun ds => Returned (decryptBlock c blk ++ ds)).
Proof. intros Hb. block blk Hb. reflexivity. Qed.

Lemma ecbEncryptBlocks_app (c : aesCipher) (blk rest : list ascii) :
  length blk = 16%nat ->
  ecbEncryptBlocks c (blk ++ rest) = encryptBlock c blk ++ ecbEncryptBlocks c rest.
Proof. intros Hb. block blk Hb. reflexivity. Qed.

(** A slice that is not whole blocks: the loop slices beyond its end. *)
Lemma decryptBlocks_partial (c : aesCipher) (n : nat) :
  forall encrypted : list ascii,
    (length encrypted <= 16 * n)%nat ->
    (length encrypted mod 16 <> 0)%nat ->
    decryptBlocks c encrypted = Panicked sliceBounds.
Proof.
  induction n as [| n IH]; intros encrypted Hlen Hmod.
  - destruct encrypted; [cbn in Hmod; lia | cbn in Hlen; lia].
  - destruct (Nat.lt_ge_cases (length encrypted) 16) as [Hshort | Hlong].
    + do 16 (destruct encrypted as [| ? encrypted];
             [first [cbn in Hmod; lia | reflexivity] |]).
      cbn in Hshort. lia.
    + rewrite <- (firstn_skipn 16 encrypted).
      rewrite decryptBlocks_app by (rewrite length_firstn; lia).
      rewrite IH; [reflexivity | rewrite length_skipn; clear Hmod; lia |].
      rewrite length_skipn.
      replace (length encrypted) with (length encrypted - 16 + 1 * 16)%nat in Hmod
        by (clear Hmod; lia).
      rewrite Nat.Div0.mod_add in Hmod. exact Hmod.
Qed.

(** X21: A credential whose decoded bytes are not whole blocks of 16 is not
    an error for [Decrypt]: the panic of the slicing is recovered and
    logged, and the result is the empty string with a nil error. *)
Theorem Decrypt_of_partial_blocks {W : Type} (h : handler W) (w : W)
  (encrypted : string) (bytes : list ascii) :
  DecodeString StdEncoding encrypted = (bytes, None) ->
  (length bytes mod 16 <> 0)%nat ->
  exec h (Decrypt encrypted) w
  = (Returned ("", None), snd (h _ (KlogError sliceBounds) w),
     [called (KlogError sliceBounds)]).
Proof.
  intros Hdec Hmod. unfold Decrypt, AESDecrypt. rewrite Hdec, NewCipher_k.
  rewrite (decryptBlocks_partial fixedCipher (length bytes) bytes);
    [| clear Hmod; lia | exact Hmod].
  cbn. destruct (h _ (KlogError sliceBounds) w) as [u w1]. reflexivity.
Qed.

Lemma Decrypt_of_partial_blocks_witness :
  exec Samples.quiet (Decrypt "AAAA") tt
  = (Returned ("", None), snd (Samples.quiet _ (KlogError sliceBounds) tt),
     [called (KlogError sliceBounds)]).
Proof.
  apply (Decrypt_of_partial_blocks Samples.quiet tt "AAAA" ["000"; "000"; "000"]%char);
    [reflexivity | cbn; lia].
Defined.

(** *** What the decoder reads *)

Lemma ecb_roundtrip (c : aesCipher) (n : nat) :
  wellKeyed c ->
  forall p : list ascii,
    length p = (16 * n)%nat ->
    decryptBlocks c (ecbEncryptBlocks c p) = Returned p.
Proof.
  intros Hkey. induction n as [| n IH]; intros p Hp.
  - destruct p; [reflexivity | discriminate].
  - destruct (split_block p n Hp) as (blk & rest & -> & Hblk & Hrest).
    rewrite ecbEncryptBlocks_app by exact Hblk.
    rewrite decryptBlocks_app by (apply length_encryptBlock; assumption).
    rewrite (IH rest Hrest). cbn [obind].
    rewrite decryptBlock_encryptBlock by assumption. reflexivity.
Qed.

Lemma trimPadding_PKCS7Padding (data : list ascii) :
  trimPadding (PKCS7Padding data BlockSize) = Returned data.
Proof.
  pose proof (PKCS7UnPadding_PKCS7Padding data) as Hun.
  unfold PKCS7UnPadding in Hun. unfold trimPadding.
  destruct (last (PKCS7Padding data BlockSize)); [exact Hun | discriminate].
Qed.

(** X22: [Decrypt] reads standard base64 of AES under the fixed key, block
    by block (ECB), with PKCS#7 padding: for every plaintext [p], the
    credential written in that form is decoded to [p], with a nil error
    and without any call (nothing is logged). *)
Theorem Decrypt_reads_ecb (p : string) :
  Decrypt (EncodeToString StdEncoding
             (ecbEncryptBlocks fixedCipher
                (PKCS7Padding (list_ascii_of_string p) BlockSize)))
  = Ret (p, None).
Proof.
  unfold Decrypt, AESDecrypt.
  rewrite (ObjectStore.DecodeString_EncodeToString_padded StdEncoding _
             ObjectStore.StdEncoding_readsBack eq_refl).
  rewrite NewCipher_k.
  destruct (PKCS7Padding_length (list_ascii_of_string p)) as [n Hn].
  rewrite (ecb_roundtrip fixedCipher n fixedCipher_wellKeyed _ Hn). cbn [obind].
  rewrite trimPadding_PKCS7Padding. cbn.
  rewrite string_of_list_ascii_of_string. reflexivity.
Qed.

(** The credential ["a"], as [openssl enc -aes-128-ecb] writes it. *)
Example Decrypt_reads_openssl :
  EncodeToString StdEncoding
    (ecbEncryptBlocks fixedCipher (PKCS7Padding (list_ascii_of_string "a") BlockSize))
  = "8p9OT/eLlcpwBYjV9aueUw=="
  /\ Decrypt "8p9OT/eLlcpwBYjV9aueUw==" = Ret ("a", None).
Proof. split; vm_compute; reflexivity. Qed.

End Decoder.

(** ** The mesh label: when a workload of the cluster is replaced *)

Module MeshInjection.

Import Release Unstructured UnstructuredFacts ProgFacts.

(** Whether the workload found in the cluster carries the mesh label on
    its pod template. *)
Definition meshEnabled (current : t) : bool :=
  bool_decide (orEmpty (NestedStringMap current templateLabelsPath) !! IstioEnableLabelKey
               = Some IstioEnableLabelValue).

Section Handle.

Variables (hr : V1.HelmRelease) (resource : GroupVersionResource) (target : t).

(** The labels that [istioInject] writes where it read [labels]: the
    string map read, or a fresh one when nothing was read, with the
    mesh label. *)
Definition withMeshLabel (labels : option (gmap string string)) : gmap string string :=
  <[IstioEnableLabelKey := IstioEnableLabelValue]> (orEmpty labels).

(** Labels that were read are kept, but for the mesh label. *)
Lemma withMeshLabel_keeps (m : gmap string string) (k : string) :
  k <> IstioEnableLabelKey -> withMeshLabel (Some m) !! k = m !! k.
Proof. intros Hk. unfold withMeshLabel. apply lookup_insert_ne. congruence. Qed.

(** A map that holds a value that is no string is not read at all. *)
Lemma NestedStringMap_mixed (obj : t) (path : list string) (m : gmap string value)
  (k : string) (v : value) :
  NestedFieldNoCopy (Object obj) path = Some (Object m) ->
  m !! k = Some v -> asString v = None ->
  NestedStringMap obj path = None.
Proof.
  intros Hget Hk Hv. unfold NestedStringMap, toStringMap. rewrite Hget.
  destruct (decide _) as [Hall |]; [| reflexivity].
  destruct (Hall k v Hk) as [x Hx]. congruence.
Qed.

(** X23: [istioInject] sets the labels of the selector and those of the pod
    template, where the object can hold labels there, to the string map
    it read there with the mesh label added: the labels of a string map
    are kept, and a map that holds a value that is no string is not
    read and is replaced by the mesh label alone.  Every field on a
    path that parts from these two is left as it was, and an object
    that can hold labels at neither place is returned as it came. *)
Theorem istioInject_sets_mesh_label :
  (levelsOk target matchLabelsPath = true ->
   NestedStringMap (istioInject hr target) matchLabelsPath
   = Some (withMeshLabel (NestedStringMap target matchLabelsPath)))
  /\ (levelsOk target templateLabelsPath = true ->
      NestedStringMap (istioInject hr target) templateLabelsPath
      = Some (withMeshLabel (NestedStringMap target templateLabelsPath)))
  /\ (forall (path : list string) (m : gmap string value) (k : string) (v : value),
         path = matchLabelsPath \/ path = templateLabelsPath ->
         NestedFieldNoCopy (Object target) path = Some (Object m) ->
         m !! k = Some v -> asString v = None ->
         NestedStringMap (istioInject hr target) path
         = Some {[ IstioEnableLabelKey := IstioEnableLabelValue ]})
  /\ (forall q : list string,
         diverge matchLabelsPath q = true -> diverge templateLabelsPath q = true ->
         NestedFieldNoCopy (Object (istioInject hr target)) q
         = NestedFieldNoCopy (Object target) q)
  /\ (levelsOk target matchLabelsPath = false ->
      levelsOk target templateLabelsPath = false ->
      istioInject hr target = target).
Proof using Type.
  assert (Hmatch : levelsOk target matchLabelsPath = true ->
                   NestedStringMap (istioInject hr target) matchLabelsPath
                   = Some (withMeshLabel (NestedStringMap target matchLabelsPath))).
  { intros Hok. unfold istioInject, NestedStringMap at 1.
    rewrite (proj1 (SetNestedStringMap_frame _ _ templateLabelsPath matchLabelsPath eq_refl)).
    apply (NestedStringMap_set target _ matchLabelsPath Hok). }
  assert (Htemplate : levelsOk target templateLabelsPath = true ->
                      NestedStringMap (istioInject hr target) templateLabelsPath
                      = Some (withMeshLabel (NestedStringMap target templateLabelsPath))).
  { intros Hok. unfold istioInject, withMeshLabel.
    set (selected := SetNestedStringMap target _ matchLabelsPath).
    assert (Hread : NestedStringMap selected templateLabelsPath
                    = NestedStringMap target templateLabelsPath).
    { unfold NestedStringMap, selected.
      rewrite (proj1 (SetNestedStringMap_frame _ _ matchLabelsPath templateLabelsPath
                        eq_refl)).
      reflexivity. }
    rewrite <- Hread. apply NestedStringMap_set.
    unfold selected.
    rewrite (proj2 (SetNestedStringMap_frame _ _ matchLabelsPath templateLabelsPath eq_refl)).
    exact Hok. }
  split; [exact Hmatch |]. split; [exact Htemplate |]. split; [| split].
  - intros path m k v Hpath Hget Hk Hv.
    pose proof (NestedStringMap_mixed target path m k v Hget Hk Hv) as Hnone.
    assert (Hok : levelsOk target path = true).
    { apply (NestedFieldNoCopy_levelsOk path target (Object m)); [| exact Hget].
      destruct Hpath as [-> | ->]; discriminate. }
    destruct Hpath as [-> | ->].
    + rewrite (Hmatch Hok), Hnone. reflexivity.
    + rewrite (Htemplate Hok), Hnone. reflexivity.
  - intros q Hm Ht. unfold istioInject.
    rewrite (proj1 (SetNestedStringMap_frame _ _ templateLabelsPath q Ht)).
    apply (SetNestedStringMap_frame _ _ matchLabelsPath q Hm).
  - intros Hm Ht.
    assert (Hkept : forall (obj : t) (labels : gmap string string) (path : list string),
               levelsOk obj path = false -> SetNestedStringMap obj labels path = obj).
    { intros obj labels path Hno. unfold SetNestedStringMap.
      destruct (setNestedField obj (Object (Str <$> labels)) path) as [obj' |] eqn:Hset;
        [| reflexivity].
      assert (Hsome : is_Some (setNestedField obj (Object (Str <$> labels)) path))
        by (rewrite Hset; eexists; reflexivity).
      apply setNestedField_levelsOk in Hsome. congruence. }
    unfold istioInject. rewrite (Hkept target _ matchLabelsPath Hm).
    apply Hkept, Ht.
Qed.

(** X24: The workload of the cluster is replaced exactly when its mesh label
    is not what the resource asks for.  [istioInjectHandle] looks the
    workload up in the namespace of the [HelmRelease].  When it is found
    and its pod template carries the mesh label although injection is
    off, or lacks it although injection is on, it is deleted (in the
    namespace that the manifest object names) and awaited; a failed
    deletion is returned, with the object as it came.  When it is found
    with the label as asked, or is not found, nothing is deleted.  In
    these cases the object comes back with the mesh label when
    injection is on, and as it came when it is off.  When the look-up
    fails for another reason than [NotFound], the object comes back as
    it came, with the error, and nothing is deleted. *)
Theorem istioInjectHandle_replaces_on_change {W : Type} (h : handler W) (w : W)
  (inject : bool) :
  let get := DynGet resource (V1.Namespace hr) (GetName target) in
  let delete := DynDelete resource (GetNamespace target) (GetName target) in
  let await := WaitUntilGone resource (GetNamespace target) (GetName target) in
  let result := if inject then istioInject hr target else target in
  match h _ get w with
  | (Ok current, w1) =>
      if Bool.eqb inject (meshEnabled current) then
        exec h (istioInjectHandle hr resource target inject) w
        = (Returned (result, None), w1, [called get])
      else
        match h _ delete w1 with
        | (Some e, w2) =>
            exec h (istioInjectHandle hr resource target inject) w
            = (Returned (target, Some e), w2, [called get; called delete])
        | (None, w2) =>
            exec h (istioInjectHandle hr resource target inject) w
            = (Returned (result, None), snd (h _ await w2),
               [called get; called delete; called await])
        end
  | (Err e, w1) =>
      exec h (istioInjectHandle hr resource target inject) w
      = (Returned (if IsNotFound e then (result, None) else (target, Some e)),
         w1, [called get])
  end.
Proof using Type.
  intros get delete await result. subst get delete await result.
  unfold istioInjectHandle, deleteOldRes. cbn.
  destruct (h _ (DynGet _ _ _) w) as [[current | e] w1]; cbn.
  - fold (meshEnabled current).
    destruct inject, (meshEnabled current); cbn; try reflexivity;
      destruct (h _ (DynDelete _ _ _) w1) as [[e |] w2]; cbn; try reflexivity;
      destruct (h _ (WaitUntilGone _ _ _) w2) as [u w3]; reflexivity.
  - destruct (IsNotFound e); reflexivity.
Qed.

End Handle.

(** *** On concrete objects *)

(** A Deployment of the manifest, in the namespace [apps]. *)
Definition workload : t :=
  {[ "kind" := Str "Deployment";
     "metadata" := Object {[ "name" := Str "podinfo"; "namespace" := Str "apps" ]};
     "spec" := Object {[ "selector" := Object {[ "matchLabels" :=
                            Object {[ "app" := Str "podinfo" ]} ]} ]} ]}.

(** The same Deployment as the cluster has it, without the mesh label. *)
Definition running : t :=
  {[ "kind" := Str "Deployment";
     "metadata" := Object {[ "name" := Str "podinfo" ]};
     "spec" := Object {[ "template" := Object {[ "metadata" := Object {[ "labels" :=
                            Object {[ "app" := Str "podinfo" ]} ]} ]} ]} ]}.

Definition withRunning : handler unit := fun R op w =>
  (match op in Op T return T with
   | DynGet _ _ _ => Ok running
   | op' => Samples.quietAnswer op'
   end, w).

Definition forbidden : handler unit := fun R op w =>
  (match op in Op T return T with
   | DynGet _ _ _ => Err (External "forbidden")
   | op' => Samples.quietAnswer op'
   end, w).

(** Injection is on and the running Deployment lacks the label: it is
    deleted, in the namespace of the manifest object, after it was
    looked up in the namespace of the resource. *)
Example istioInjectHandle_replaces :
  exec withRunning
    (istioInjectHandle Samples.syncedResource deploymentGroupVersionResource workload true) tt
  = (Returned (istioInject Samples.syncedResource workload, None), tt,
     [called (DynGet deploymentGroupVersionResource "demo" "podinfo");
      called (DynDelete deploymentGroupVersionResource "apps" "podinfo");
      called (WaitUntilGone deploymentGroupVersionResource "apps" "podinfo")]).
Proof. reflexivity. Qed.

(** The look-up is refused: the Deployment goes on without the label. *)
Example istioInjectHandle_forbidden :
  exec forbidden
    (istioInjectHandle Samples.syncedResource deploymentGroupVersionResource workload true) tt
  = (Returned (workload, Some (External "forbidden")), tt,
     [called (DynGet deploymentGroupVersionResource "demo" "podinfo")]).
Proof. reflexivity. Qed.

(** A Deployment whose selector holds a number beside a label. *)
Definition mixedSelector : t :=
  {[ "kind" := Str "Deployment";
     "spec" := Object {[ "selector" := Object {[ "matchLabels" :=
                            Object {[ "app" := Str "podinfo"; "tier" := Number 2 ]} ]} ]} ]}.

(** Its selector is not read, and leaves with the mesh label alone: the
    label [app] is gone. *)
Example istioInject_mixed_selector :
  NestedStringMap mixedSelector matchLabelsPath = None
  /\ NestedStringMap (istioInject Samples.syncedResource mixedSelector) matchLabelsPath
     = Some {[ IstioEnableLabelKey := IstioEnableLabelValue ]}.
Proof. vm_compute. split; reflexivity. Qed.

(** The mesh label on that Deployment: in the selector and in the pod
    template, beside the label it had. *)
Example istioInject_workload :
  map (fun path =>
         NestedStringMap (istioInject Samples.syncedResource workload) path
         ≫= (.!! IstioEnableLabelKey))
    [matchLabelsPath; templateLabelsPath]
  = [Some "enabled"; Some "enabled"]
  /\ NestedStringMap (istioInject Samples.syncedResource workload) matchLabelsPath
     ≫= (.!! "app") = Some "podinfo".
Proof. vm_compute. split; reflexivity. Qed.

End MeshInjection.

(** ** The post-renderer on objects that are no workloads *)

Module PlainManifests.

Import Release Unstructured UnstructuredFacts ProgFacts.

(** An object that is neither a StatefulSet nor a Deployment. *)
Definition plain (u : t) : bool := negb (isWorkload (GetKind u)).

Section Plain.

Variable hr : V1.HelmRelease.

(** Such an object is rendered without a call: it gets its labels, and
    the two [switch] statements pass it by. *)
Lemma renderObject_plain (u : t) :
  plain u = true -> renderObject hr u = Ret (PostRender.withLabels hr u).
Proof using Type.
  unfold plain, renderObject. intros Hplain.
  change (SetLabels u _) with (PostRender.withLabels hr u).
  pose proof (PostRender.GetKind_withLabels hr u) as Hkind.
  rewrite !Hkind.
  unfold isWorkload in *.
  destruct (String.eqb (GetKind u) "StatefulSet") eqn:Hss; [discriminate |].
  destruct (String.eqb (GetKind u) "Deployment") eqn:Hd; [discriminate |].
  cbn [orb]. rewrite Hkind, Hss, Hd. reflexivity.
Qed.

Lemma renderObjects_plain (us : list t) :
  forallb plain us = true -> renderObjects hr us = Ret (map (PostRender.withLabels hr) us).
Proof using Type.
  induction us as [| u us IH]; intros Hall; [reflexivity |].
  cbn [forallb] in Hall. apply andb_true_iff in Hall as [Hu Hus].
  cbn [renderObjects map]. rewrite (renderObject_plain u Hu), (IH Hus). reflexivity.
Qed.

End Plain.

(** X25: The post-renderer reads and replaces cluster objects only for
    StatefulSets and Deployments.  On a manifest without them, once the
    cluster configuration and the dynamic client are built, it makes no
    further call but the final log of what it wrote; it writes the
    objects in order, each with the [appId] and [componentId] labels
    put into [metadata.labels] by [SetLabels] and no other change. *)
Theorem postRender_of_plain_manifest `{Manifests} {W : Type} (h : handler W) (w w1 w2 : W)
  (hr : V1.HelmRelease) (renderedManifests : string) :
  h _ BuildConfigFromFlags w = (None, w1) ->
  h _ DynamicNewForConfig w1 = (None, w2) ->
  forallb plain (releaseManifestToUnstructured renderedManifests) = true ->
  let us' := map (PostRender.withLabels hr) (releaseManifestToUnstructured renderedManifests) in
  outcomeOf h (postRender hr renderedManifests) w = Returned (Some us', writeObjects us')
  /\ callsOf h (postRender hr renderedManifests) w
     = [called BuildConfigFromFlags; called DynamicNewForConfig;
        called (KlogInfo (writeObjects us'))].
Proof.
  intros Hcfg Hdyn Hall us'.
  unfold outcomeOf, callsOf, postRender.
  rewrite (renderObjects_plain hr _ Hall). fold us'.
  cbn -[writeObjects]. rewrite Hcfg. cbn -[writeObjects]. rewrite Hdyn.
  cbn -[writeObjects]. destruct (h _ (KlogInfo _) w2) as [u w3]. split; reflexivity.
Qed.

(** A manifest with one ConfigMap. *)
Definition configMap : t :=
  {[ "kind" := Str "ConfigMap";
     "metadata" := Object {[ "name" := Str "podinfo-settings" ]} ]}.

Definition oneConfigMap : Manifests :=
  {| releaseManifestToUnstructured := fun _ => [configMap];
     Marshal := fun u => default "" (GetLabels u ≫= (.!! AppIdLabelKey)) |}.

Lemma postRender_of_plain_manifest_witness :
  outcomeOf Samples.quiet (@postRender oneConfigMap Samples.syncedResource "configmap.yaml") tt
  = Returned (Some (map (PostRender.withLabels Samples.syncedResource) [configMap]),
              @writeObjects oneConfigMap
                (map (PostRender.withLabels Samples.syncedResource) [configMap]))
  /\ callsOf Samples.quiet
       (@postRender oneConfigMap Samples.syncedResource "configmap.yaml") tt
     = [called BuildConfigFromFlags; called DynamicNewForConfig;
        called (KlogInfo (@writeObjects oneConfigMap
                            (map (PostRender.withLabels Samples.syncedResource)
                               [configMap])))].
Proof.
  apply (@postRender_of_plain_manifest oneConfigMap unit Samples.quiet tt tt tt
           Samples.syncedResource "configmap.yaml"); reflexivity.
Defined.

(** What is written for that ConfigMap. *)
Example postRender_configMap :
  @writeObjects oneConfigMap (map (PostRender.withLabels Samples.syncedResource) [configMap])
  = String.concat "" ["---"; String (ascii_of_nat 10) ""; "app-1"; String (ascii_of_nat 10) ""].
Proof. vm_compute. reflexivity. Qed.

End PlainManifests.

(** ** The worker: what is always done with an item and with a lock *)

Module WorkerDuties.

Import Release ProgFacts Operator.

Section Worker.

Context `{V1.Accessors} `{Helm.StatusAPI} `{Chartsync.FilePath}.

(** X26: Every item taken from the queue is marked as done, whatever happens
    to it.  When the queue is shut down, [processNextWorkItem] returns
    false and does nothing with the item.  Otherwise [Done] of the item
    is called after everything that processing it did (also when the
    processing panicked), followed at most by the report of the error,
    and the worker goes on (or the panic does). *)
Theorem processNextWorkItem_marks_done {W : Type} (h : handler W) (w : W) (c : Controller) :
  let (n, w1) := h _ QueueLen w in
  let w2 := snd (h _ (SetQueueLength n) w1) in
  let taken := [called QueueLen; called (SetQueueLength n); called QueueGet] in
  match h _ QueueGet w2 with
  | ((obj, true), w3) => exec h (processNextWorkItem c) w = (Returned false, w3, taken)
  | ((obj, false), w3) =>
      exists (processing report : list Call),
        callsOf h (processNextWorkItem c) w
        = taken ++ processing ++ [called (QueueDone obj)] ++ report
        /\ (report = [] \/ exists e, report = [called (HandleError e)])
        /\ (outcomeOf h (processNextWorkItem c) w = Returned true
            \/ exists v, outcomeOf h (processNextWorkItem c) w = Panicked v)
  end.
Proof.
  unfold callsOf, outcomeOf, processNextWorkItem. cbn -[processItem].
  destruct (h _ QueueLen w) as [n w1]. cbn -[processItem].
  destruct (h _ (SetQueueLength n) w1) as [u w2]. cbn -[processItem].
  destruct (h _ QueueGet w2) as [[obj [|]] w3]; cbn -[processItem]; [reflexivity |].
  change (mbind ?k (processItem c obj)) with (bind (processItem c obj) k).
  rewrite exec_bind. unfold processItem, call. rewrite exec_deferring_call.
  destruct (exec h _ w3) as [[o w4] processing]. cbn.
  exists processing.
  destruct o as [[e |] | v]; cbn.
  - destruct (h _ (HandleError e) _) as [u' w5]. cbn.
    exists [called (HandleError e)]. rewrite <- app_assoc. cbn.
    split; [reflexivity |]. split; [right; exists e; reflexivity | left; reflexivity].
  - exists []. rewrite ?app_nil_r.
    split; [reflexivity |]. split; [left; reflexivity | left; reflexivity].
  - exists []. rewrite ?app_nil_r.
    split; [reflexivity |]. split; [left; reflexivity | right; exists v; reflexivity].
Qed.

(** What [syncHandler] does once the lock is held. *)
Definition locked (c : Controller) (key namespace name : string) : Prog (option error) :=
  g ← call (ListerGet namespace name);
  match g with
  | Err e =>
      if IsNotFound e then
        call (HandleError
                (Errorf "HelmRelease '%s' referred to in work queue no longer exists"
                   [ArgStr key]));;
        mret None
      else mret (Some e)
  | Ok hr =>
      err ← Release.Sync (release c) hr;
      match err with
      | Some e =>
          call (RecorderEvent hr EventTypeWarning FailedReleaseSync
                  "synchronization of release '%s' in namespace '%s' failed: %s"
                  [ArgStr (V1.GetReleaseName hr);
                   ArgStr (V1.GetTargetNamespace hr); ArgErr e]);;
          mret None
      | None =>
          call (RecorderEvent hr EventTypeNormal ReleaseSynced
                  "managed release '%s' in namespace '%s' synchronized"
                  [ArgStr (V1.GetReleaseName hr);
                   ArgStr (V1.GetTargetNamespace hr)]);;
          mret None
      end
  end.

Lemma syncHandler_unfold (c : Controller) (key : string) :
  syncHandler c key
  = match SplitMetaNamespaceKey key with
    | Err _ =>
        call (HandleError (Errorf "key '%s' is invalid" [ArgStr key]));;
        mret None
    | Ok (namespace, name) =>
        bind (call (Lock (namespace +:+ "-" +:+ name))) (fun err =>
          match err with
          | Some _ => mret None
          | None =>
              deferring (locked c key namespace name)
                (call (Unlock (namespace +:+ "-" +:+ name)))
          end)
    end.
Proof. reflexivity. Qed.

(** X27: The lock of a resource is released once it was taken.  A key that
    cannot be split is reported and nothing is locked; when the lock
    cannot be taken, [syncHandler] returns nil at once; when it was
    taken, [Unlock] is the last call of [syncHandler], whatever the
    look-up and [Sync] did (also when [Sync] panicked). *)
Theorem syncHandler_releases_lock {W : Type} (h : handler W) (w : W) (c : Controller)
  (key : string) :
  match SplitMetaNamespaceKey key with
  | Err _ =>
      outcomeOf h (syncHandler c key) w = Returned None
      /\ callsOf h (syncHandler c key) w
         = [called (HandleError (Errorf "key '%s' is invalid" [ArgStr key]))]
  | Ok (namespace, name) =>
      let lockName := namespace +:+ "-" +:+ name in
      match h _ (Lock lockName) w with
      | (Some _, w1) =>
          exec h (syncHandler c key) w = (Returned None, w1, [called (Lock lockName)])
      | (None, w1) =>
          exists locked : list Call,
            callsOf h (syncHandler c key) w
            = called (Lock lockName) :: locked ++ [called (Unlock lockName)]
      end
  end.
Proof.
  unfold callsOf, outcomeOf. rewrite syncHandler_unfold.
  destruct (SplitMetaNamespaceKey key) as [[namespace name] | e].
  - rewrite exec_bind, exec_call.
    destruct (h _ (Lock _) w) as [[e |] w1]; cbn [fst snd]; [reflexivity |].
    unfold call. rewrite exec_deferring_call.
    destruct (exec h (locked c key namespace name) w1) as [[o w2] cs]. cbn.
    exists cs. reflexivity.
  - cbn. destruct (h _ (HandleError _) w) as [u w1]. split; reflexivity.
Qed.

Lemma locked_outcome {W : Type} (h : handler W) (w : W) (c : Controller)
  (key namespace name : string) (e : error) :
  outcomeOf h (locked c key namespace name) w = Returned (Some e)
  <-> fst (h _ (ListerGet namespace name) w) = Err e /\ IsNotFound e = false.
Proof.
  unfold outcomeOf, locked. cbn -[Sync].
  destruct (h _ (ListerGet namespace name) w) as [[hr | e'] w1]; cbn -[Sync].
  - change (mbind ?k (Sync ?a ?b)) with (bind (Sync a b) k). rewrite exec_bind.
    destruct (exec h (Sync (release c) hr) w1) as [[[[e1 |] | v] w2] cs]; cbn;
      try destruct (h _ (RecorderEvent _ _ _ _ _) w2) as [u w3]; cbn;
      split; try discriminate; intros [Hf _]; discriminate.
  - destruct (IsNotFound e') eqn:Hnf; cbn.
    + destruct (h _ (HandleError _) w1) as [u w2]. cbn.
      split; [discriminate |]. intros [[= ->] Hf]. congruence.
    + split.
      * intros [= ->]. split; [reflexivity | exact Hnf].
      * intros [[= ->] _]. reflexivity.
Qed.

(** X28: [syncHandler] returns an error in one case only: the key is well
    formed, the lock was taken, and the lister failed with an error
    other than [NotFound]; the error is then the lister's.  A failure
    of [Sync] never makes [syncHandler] return an error. *)
Theorem syncHandler_error_is_the_listers {W : Type} (h : handler W) (w : W)
  (c : Controller) (key : string) (e : error) :
  outcomeOf h (syncHandler c key) w = Returned (Some e)
  <-> exists (namespace name : string) (w1 : W),
        SplitMetaNamespaceKey key = Ok (namespace, name)
        /\ h _ (Lock (namespace +:+ "-" +:+ name)) w = (None, w1)
        /\ fst (h _ (ListerGet namespace name) w1) = Err e
        /\ IsNotFound e = false.
Proof.
  unfold outcomeOf. rewrite syncHandler_unfold.
  destruct (SplitMetaNamespaceKey key) as [[namespace name] | e0].
  - rewrite exec_bind, exec_call.
    destruct (h _ (Lock _) w) as [[e1 |] w1] eqn:Hlock; cbn [fst snd].
    + cbn. split; [discriminate |].
      intros (ns & nm & w' & Hs & Hl & _).
      injection Hs as Hns Hnm. subst ns nm. rewrite Hlock in Hl. discriminate.
    + unfold call. rewrite exec_deferring_call.
      pose proof (locked_outcome h w1 c key namespace name e) as Hlocked.
      unfold outcomeOf in Hlocked.
      destruct (exec h (locked c key namespace name) w1) as [[o w2] cs]. cbn in *.
      rewrite Hlocked. split.
      * intros [Hg Hnf]. exists namespace, name, w1. repeat split; assumption.
      * intros (ns & nm & w' & Hs & Hl & Hg & Hnf).
        injection Hs as Hns Hnm. subst ns nm. rewrite Hlock in Hl.
        injection Hl as Hw. subst w'. split; assumption.
  - cbn. destruct (h _ (HandleError _) w) as [u w1]. cbn.
    split; [discriminate |]. intros (ns & nm & w' & Hf & _). discriminate.
Qed.

End Worker.

End WorkerDuties.

(** ** The kubectl marks: what is run, and which failures are told *)

Module MarksFacts.

Import Marks.

Section Commands.

Context `{Release.Manifests} `{Namespaced} `{Range} {W : Type} (kubectl : Kubectl W).

Lemma runEach_ran (commands : list (list string)) :
  forall w : W, snd (runEach kubectl commands w) = commands.
Proof.
  induction commands as [| args rest IH]; intros w; [reflexivity |].
  cbn. destruct (kubectl args w) as [[output err] w1].
  specialize (IH w1). destruct (runEach kubectl rest w1) as [[errs' w2] ran].
  cbn in *. rewrite IH. reflexivity.
Qed.

(** A command that fails without output is not told. *)
Definition silent (args : list string) (w : W) : Prop :=
  snd (fst (kubectl args w)) = None \/ fst (fst (kubectl args w)) = "".

Lemma runEach_silent (commands : list (list string)) :
  forall w : W,
    (forall args w', silent args w') -> fst (fst (runEach kubectl commands w)) = [].
Proof.
  induction commands as [| args rest IH]; intros w Hs; [reflexivity |].
  cbn. pose proof (Hs args w) as Ha. unfold silent in Ha.
  destruct (kubectl args w) as [[output err] w1]. cbn in Ha.
  specialize (IH w1 Hs). destruct (runEach kubectl rest w1) as [[errs' w2] ran].
  cbn in *. rewrite IH.
  destruct Ha as [-> | ->]; [reflexivity | destruct err; reflexivity].
Qed.

(** X29: What [markResources] runs.  When the application id, the component
    id, the mesh flag and the log flag are all unset it runs nothing.
    Otherwise it runs one [kubectl label] per namespace of the release
    and then one [kubectl annotate] per namespace; the annotate command
    carries [logCollect=true] when the log flag is set and no
    annotation at all when it is not, and the label command carries
    only the labels that are set. *)
Theorem markResources_commands (hr : V1.HelmRelease) (rel : Helm.Release) (w : W) :
  let sp := V1.Spec hr in
  let ran := snd (markResources kubectl hr rel w) in
  if String.eqb (V1.AppId sp) "" && String.eqb (V1.ComponentId sp) ""
     && negb (V1.IstioEnabled sp) && negb (V1.LogCollect sp)
  then markResources kubectl hr rel w = (None, w, [])
  else
    ran = map (labelArguments hr) (targets 0 rel)
          ++ map (annotateArguments hr) (targets 1 rel)
    /\ length ran
       = (2 * size (namespacedResourceMap
                      (Release.releaseManifestToUnstructured (Helm.Manifest rel))
                      (Helm.Namespace rel)))%nat
    /\ (V1.LogCollect sp = false ->
        forall target, annotateArguments hr target
                       = ["annotate"; "--overwrite"; "--namespace"; fst target]
                         ++ snd target).
Proof.
  cbn zeta. unfold markResources.
  destruct (_ && _); [reflexivity |].
  pose proof (runEach_ran (map (labelArguments hr) (targets 0 rel)) w) as Hfirst.
  destruct (runEach kubectl (map (labelArguments hr) (targets 0 rel)) w)
    as [[errs w1] labelled].
  pose proof (runEach_ran (map (annotateArguments hr) (targets 1 rel)) w1) as Hsecond.
  destruct (runEach kubectl (map (annotateArguments hr) (targets 1 rel)) w1)
    as [[errs' w2] annotated].
  cbn in *. subst labelled annotated.
  split; [reflexivity |]. split.
  - rewrite length_app, !length_map. unfold targets.
    rewrite !rangeOver_all, length_map_to_list. lia.
  - intros Hlog target. unfold annotateArguments. rewrite Hlog, app_nil_r. reflexivity.
Qed.

(** X30: A command that failed is told only if it wrote something: when
    every failing [kubectl] is silent, [markResources] and
    [labelResources] return nil, whatever failed. *)
Theorem silent_failures_are_dropped (hr : V1.HelmRelease) (rel : Helm.Release) (w : W) :
  (forall args w', silent args w') ->
  fst (fst (markResources kubectl hr rel w)) = None
  /\ fst (fst (labelResources kubectl hr rel w)) = None.
Proof.
  intros Hs. unfold markResources, labelResources. split.
  - destruct (_ && _); [reflexivity |].
    pose proof (runEach_silent (map (labelArguments hr) (targets 0 rel)) w Hs) as Hfirst.
    destruct (runEach kubectl (map (labelArguments hr) (targets 0 rel)) w)
      as [[errs w1] labelled].
    pose proof (runEach_silent (map (annotateArguments hr) (targets 1 rel)) w1 Hs) as Hsecond.
    destruct (runEach kubectl (map (annotateArguments hr) (targets 1 rel)) w1)
      as [[errs' w2] annotated].
    cbn in *. subst errs errs'. reflexivity.
  - destruct (_ || _); [reflexivity |].
    pose proof (runEach_silent (map (labelBoth hr) (targets 0 rel)) w Hs) as Hfirst.
    destruct (runEach kubectl (map (labelBoth hr) (targets 0 rel)) w)
      as [[errs w1] labelled].
    cbn in *. subst errs. reflexivity.
Qed.

(** [labelResources] labels only when both ids are set: with an empty
    application id or an empty component id it runs nothing (the other
    id and the mesh flag are not applied); with both it runs one
    [kubectl label] per namespace, each carrying both ids. *)
Lemma labelResources_needs_both_ids (hr : V1.HelmRelease) (rel : Helm.Release) (w : W) :
  let sp := V1.Spec hr in
  if String.eqb (V1.AppId sp) "" || String.eqb (V1.ComponentId sp) ""
  then labelResources kubectl hr rel w = (None, w, [])
  else snd (labelResources kubectl hr rel w) = map (labelBoth hr) (targets 0 rel).
Proof.
  cbn zeta. unfold labelResources. destruct (_ || _); [reflexivity |].
  pose proof (runEach_ran (map (labelBoth hr) (targets 0 rel)) w) as Hfirst.
  destruct (runEach kubectl (map (labelBoth hr) (targets 0 rel)) w)
    as [[errs w1] labelled].
  exact Hfirst.
Qed.

End Commands.

(** *** On a release with resources in two namespaces *)

Definition twoNamespaces : Namespaced :=
  {| namespacedResourceMap := fun _ _ =>
       {[ "demo" := ["deployment/podinfo"; "service/podinfo"];
          "apps" := ["configmap/settings"] ]} |}.

Definition inMapOrder : Range.
Proof.
  refine {| rangeOver := fun _ m => map_to_list m |}.
  intros i m. reflexivity.
Defined.

(** A [kubectl] that fails on every command without a word. *)
Definition mute : Kubectl unit := fun _ w => (("", Some (External "exit status 1")), w).

Lemma silent_failures_are_dropped_witness :
  fst (fst (@markResources PostRender.twoManifests twoNamespaces inMapOrder unit mute
              Samples.syncedResource (Samples.deployed 1) tt)) = None
  /\ fst (fst (@labelResources PostRender.twoManifests twoNamespaces inMapOrder unit mute
                 Samples.syncedResource (Samples.deployed 1) tt)) = None.
Proof.
  apply (@silent_failures_are_dropped PostRender.twoManifests twoNamespaces inMapOrder
           unit mute Samples.syncedResource (Samples.deployed 1) tt).
  intros args w'. right. reflexivity.
Defined.

(** The commands of [markResources] on that release, for a resource
    with an application id and the log flag. *)
Example markResources_two_namespaces :
  @markResources PostRender.twoManifests twoNamespaces inMapOrder unit mute
    Samples.syncedResource (Samples.deployed 1) tt
  = (None, tt,
     [["label"; "--overwrite"; "--namespace"; "apps"; "configmap/settings";
       "oam.runtime.app.id=app-1"];
      ["label"; "--overwrite"; "--namespace"; "demo"; "deployment/podinfo";
       "service/podinfo"; "oam.runtime.app.id=app-1"];
      ["annotate"; "--overwrite"; "--namespace"; "apps"; "configmap/settings";
       "logCollect=true"];
      ["annotate"; "--overwrite"; "--namespace"; "demo"; "deployment/podinfo";
       "service/podinfo"; "logCollect=true"]]).
Proof. vm_compute. reflexivity. Qed.

End MarksFacts.
